(** * Shark Etcher: a shallow embedding of the flashing core

    The development follows the Python sources
    [shark_etcher/imaging.py], [shark_etcher/devices.py] and
    [shark_etcher/main.py].  Python code that touches the operating
    system is written in a state-and-exception monad [IO] over an explicit
    [World]: the file system, the output channel of the worker, and a
    trace of the system calls performed. *)

From stdpp Require Import base strings list gmap pretty sorting.
From Stdlib Require Import ZArith Lia Strings.Byte Strings.Ascii.

Open Scope Z_scope.

#[global] Instance byte_eq_dec : EqDecision byte := Byte.byte_eq_dec.

(** ** Python exceptions *)

Module Py.

(** The three handlers around [os.open] distinguish [PermissionError] and
    [FileNotFoundError] from the remaining [OSError]s. *)
Inductive OSErrorClass := PermissionError | FileNotFoundError | OtherOSError.

(** An [OSError] instance: its class, [exc.strerror] and [str(exc)]. *)
Record OSError := mkOSError {
  os_class : OSErrorClass;
  strerror : string;
  os_str : string
}.

(** The exception classes that occur in the three modules.  [OtherException]
    stands for any further subclass of [Exception] (for example
    [zipfile.BadZipFile], [lzma.LZMAError], [EOFError], [OverflowError],
    [MemoryError]); [KeyboardInterrupt] is the one class used here that is
    not a subclass of [Exception]. *)
Inductive exn :=
| FlashError (msg : string)
| VerificationError (msg : string)
| UnmountError (msg : string) (partial : list string)
| DeviceEnumerationError (msg : string)
| ValueError (msg : string)
| OSErr (e : OSError)
| CalledProcessError (msg : string)
| KeyboardInterrupt
| OtherException (msg : string).

(** [isinstance(e, Exception)] *)
Definition is_Exception (e : exn) : bool :=
  match e with
  | KeyboardInterrupt => false
  | _ => true
  end.

(** [isinstance(e, OSError)] *)
Definition is_OSError (e : exn) : option OSError :=
  match e with
  | OSErr o => Some o
  | _ => None
  end.

(** [str(e)] *)
Definition exn_str (e : exn) : string :=
  match e with
  | FlashError m | VerificationError m | UnmountError m _
  | DeviceEnumerationError m | ValueError m | CalledProcessError m
  | OtherException m => m
  | OSErr o => os_str o
  | KeyboardInterrupt => ""
  end.

(** [isinstance(e, FileNotFoundError)] *)
Definition is_FileNotFoundError (e : exn) : bool :=
  match e with
  | OSErr o =>
      match os_class o with
      | FileNotFoundError => true
      | _ => false
      end
  | _ => false
  end.

(** [isinstance(e, subprocess.CalledProcessError)] *)
Definition is_CalledProcessError (e : exn) : bool :=
  match e with
  | CalledProcessError _ => true
  | _ => false
  end.

Inductive outcome (A : Type) :=
| Return (a : A)
| Raise (e : exn).
Arguments Return {A} a.
Arguments Raise {A} e.

End Py.
Export Py.

(** ** The world *)

(** The records of the worker's structured output channel, one per line
    written by [emit] in [_run_worker]. *)
Inductive Phase := PhaseWrite | PhaseVerify.

Inductive FlashEvent :=
| EvProgress (phase : Phase) (current : Z) (total : option Z)
| EvStatus (message : string)
| EvLog (message : string)
| EvDone (bytes_written : Z) (dry_run : bool)
| EvError (message : string).

Inductive OpenMode := O_RDONLY | O_RDWR.

(** A node of the file system.  A block device has a fixed capacity, the
    length of its contents. *)
Inductive Node :=
| Directory
| Regular (data : list byte)
| BlockDev (data : list byte).

(** System calls that the claims observe. *)
Inductive SysCall :=
| SysOpen (path : string) (mode : OpenMode)
| SysRead (path : string) (offset : nat) (count : nat)
| SysWrite (path : string) (offset : nat) (chunk : list byte)
| SysExtract (archive : string) (target : string)
| SysCleanup.

(** A readable binary stream: the bytes it still has to deliver and, when
    it is broken (a corrupt archive, an interrupt), the exception raised
    once they are used up. *)
Record Stream := mkStream {
  st_data : list byte;
  st_fault : option exn
}.

(** [zipfile.ZipInfo] *)
Record ZipInfo := mkZipInfo {
  filename : string;
  file_size : Z
}.

(** The decoders of the Python library, as functions of the bytes of the
    file: the streams of [gzip.open], [lzma.open] and [bz2.open], the
    directory read by [zipfile.ZipFile(path)] and the stream of
    [archive.open(entry)]. *)
Record Codecs := mkCodecs {
  gzip_decode : list byte -> Stream;
  lzma_decode : list byte -> Stream;
  bz2_decode : list byte -> Stream;
  zip_infolist : list byte -> outcome (list ZipInfo);
  zip_open : list byte -> ZipInfo -> outcome Stream
}.

Record BlockDevice := mkBlockDevice {
  name : string;
  path : string;
  size_bytes : Z;
  model : string;
  removable : bool;
  transport : option string;
  description : string;
  mountpoints : list string
}.

Record World := mkWorld {
  fs : gmap string Node;
  (** the error with which opening a path fails, if any: no permission, a
      name that is too long, a path that leads through a file, ...; where
      there is none, a path that is not in [fs] gives [ENOENT] *)
  open_fault : string -> OpenMode -> option OSError;
  (** the error with which the [stat] of a path fails, if it is none of
      those that [Path.exists] takes for an absent path ([ENOENT],
      [ENOTDIR], [EBADF], [ELOOP]) *)
  stat_fault : string -> option OSError;
  (** the error with which [os.fsync] on a path fails, if any *)
  fsync_fault : string -> option OSError;
  (** for a size, the text of the [MemoryError] or [OverflowError] with
      which Python fails to make a [bytes] object of that size, if it does *)
  alloc_fault : Z -> option string;
  codecs : Codecs;
  (** [platform.system()] *)
  platform_system : string;
  (** what [_linux_devices] delivers: the devices that it builds from the
      output of [lsblk], or the exception that leaves it, which is a
      [DeviceEnumerationError] when [lsblk] is missing, fails or prints
      no JSON, and whatever else the run of [lsblk] or the reading of its
      values raises *)
  linux_devices : exn + list BlockDevice;
  (** what [subprocess.run(cmd, check=True, capture_output=True, text=True)]
      does, given the commands run before it: it returns the captured
      output, or it raises [FileNotFoundError] (no such executable),
      [CalledProcessError] (nonzero exit status), or something else
      ([PermissionError] for a tool that may not be executed, another
      [OSError], [UnicodeDecodeError] for output that is no text) *)
  proc_oracle : list (list string) -> list string -> outcome string;
  (** [shutil.which], given the commands run before the query *)
  which_oracle : list (list string) -> string -> bool;
  (** commands run so far, oldest first *)
  proc_log : list (list string);
  (** suffixes tried by [tempfile.mkdtemp], next first *)
  tmp_names : list string;
  (** standard output of the worker, oldest first *)
  stdout : list FlashEvent;
  (** system calls so far, oldest first *)
  trace : list SysCall
}.

Definition set_fs (f : gmap string Node) (w : World) : World :=
  mkWorld f (open_fault w) (stat_fault w) (fsync_fault w)
          (alloc_fault w) (codecs w) (platform_system w) (linux_devices w)
          (proc_oracle w) (which_oracle w) (proc_log w) (tmp_names w)
          (stdout w) (trace w).

Definition set_tmp_names (l : list string) (w : World) : World :=
  mkWorld (fs w) (open_fault w) (stat_fault w) (fsync_fault w)
          (alloc_fault w) (codecs w) (platform_system w) (linux_devices w)
          (proc_oracle w) (which_oracle w) (proc_log w) l
          (stdout w) (trace w).

Definition add_proc (cmd : list string) (w : World) : World :=
  mkWorld (fs w) (open_fault w) (stat_fault w) (fsync_fault w)
          (alloc_fault w) (codecs w) (platform_system w) (linux_devices w)
          (proc_oracle w) (which_oracle w) (proc_log w ++ [cmd]) (tmp_names w)
          (stdout w) (trace w).

Definition add_stdout (e : FlashEvent) (w : World) : World :=
  mkWorld (fs w) (open_fault w) (stat_fault w) (fsync_fault w)
          (alloc_fault w) (codecs w) (platform_system w) (linux_devices w)
          (proc_oracle w) (which_oracle w) (proc_log w) (tmp_names w)
          (stdout w ++ [e]) (trace w).

Definition add_trace (c : SysCall) (w : World) : World :=
  mkWorld (fs w) (open_fault w) (stat_fault w) (fsync_fault w)
          (alloc_fault w) (codecs w) (platform_system w) (linux_devices w)
          (proc_oracle w) (which_oracle w) (proc_log w) (tmp_names w)
          (stdout w) (trace w ++ [c]).

(** The world after the records [evs] have been written to the output. *)
Definition out (w : World) (evs : list FlashEvent) : World :=
  mkWorld (fs w) (open_fault w) (stat_fault w) (fsync_fault w)
          (alloc_fault w) (codecs w) (platform_system w) (linux_devices w)
          (proc_oracle w) (which_oracle w) (proc_log w) (tmp_names w)
          (stdout w ++ evs) (trace w).

(** ** The monad *)

Definition IO (A : Type) : Type := World -> outcome A * World.

Definition ret {A} (a : A) : IO A := fun w => (Return a, w).
Definition raise {A} (e : exn) : IO A := fun w => (Raise e, w).

Definition bind {A B} (m : IO A) (k : A -> IO B) : IO B :=
  fun w =>
    match m w with
    | (Return a, w') => k a w'
    | (Raise e, w') => (Raise e, w')
    end.

Declare Scope io_scope.
Delimit Scope io_scope with io.
Notation "'let*' x ':=' m 'in' k" := (bind m (fun x => k))
  (at level 10, x name, m at level 100, k at level 200) : io_scope.
Notation "'do' m 'then' k" := (bind m (fun _ => k))
  (at level 10, m at level 100, k at level 200) : io_scope.
Open Scope io_scope.

(** [try: m except <classes>: h].  The handler selects the exceptions it
    catches; the others propagate. *)
Definition try_except {A} (m : IO A) (h : exn -> option (IO A)) : IO A :=
  fun w =>
    match m w with
    | (Return a, w') => (Return a, w')
    | (Raise e, w') =>
        match h e with
        | Some k => k w'
        | None => (Raise e, w')
        end
    end.

(** [try: m except ...: h else: k] *)
Definition try_except_else {A B} (m : IO A) (h : exn -> option (IO B))
    (k : A -> IO B) : IO B :=
  fun w =>
    match m w with
    | (Return a, w') => k a w'
    | (Raise e, w') =>
        match h e with
        | Some handler => handler w'
        | None => (Raise e, w')
        end
    end.

(** [try: m finally: f].  An exception of [f] replaces the outcome of [m]. *)
Definition try_finally {A} (m : IO A) (f : IO unit) : IO A :=
  fun w =>
    match m w with
    | (r, w') =>
        match f w' with
        | (Return _, w'') => (r, w'')
        | (Raise e, w'') => (Raise e, w'')
        end
    end.

Definition emit (e : FlashEvent) : IO unit :=
  fun w => (Return tt, add_stdout e w).

Definition syscall (c : SysCall) : IO unit :=
  fun w => (Return tt, add_trace c w).

(** ** Files and streams *)

Definition ENOENT (path : string) : OSError :=
  mkOSError FileNotFoundError "No such file or directory"
    ("[Errno 2] No such file or directory: '" +:+ path +:+ "'").
Definition EISDIR (path : string) : OSError :=
  mkOSError OtherOSError "Is a directory"
    ("[Errno 21] Is a directory: '" +:+ path +:+ "'").
Definition ENOSPC : OSError :=
  mkOSError OtherOSError "No space left on device"
    "[Errno 28] No space left on device".
Definition EIO : OSError :=
  mkOSError OtherOSError "Input/output error" "[Errno 5] Input/output error".

(** [os.open(path, flags)].  The attempt is traced whether it succeeds or
    not. *)
Definition os_open (path : string) (mode : OpenMode) : IO unit :=
  do syscall (SysOpen path mode) then
  fun w =>
    match open_fault w path mode with
    | Some e => (Raise (OSErr e), w)
    | None =>
        match fs w !! path, mode with
        | None, _ => (Raise (OSErr (ENOENT path)), w)
        | Some Directory, O_RDWR => (Raise (OSErr (EISDIR path)), w)
        | Some _, _ => (Return tt, w)
        end
    end.

(** [os.fdopen(fd, mode, buffering=0)] refuses a directory. *)
Definition os_fdopen (path : string) : IO unit :=
  fun w =>
    match fs w !! path with
    | Some Directory => (Raise (OSErr (EISDIR path)), w)
    | _ => (Return tt, w)
    end.

(** [os.fsync(fd)] *)
Definition os_fsync (path : string) : IO unit :=
  fun w =>
    match fsync_fault w path with
    | Some e => (Raise (OSErr e), w)
    | None => (Return tt, w)
    end.

(** [stream.read(n)] of a buffered reader, with the stream as it is
    afterwards: [n] bytes unless the end is nearer, everything for
    [n = -1], nothing for [n = 0].  A size that is no [ssize_t] gives
    [OverflowError], another negative size [ValueError]; the buffer for the
    bytes is made before anything is read, also at the end of the stream,
    and where there is no memory for it the read fails. *)
Definition stream_read (n : Z) (s : Stream) : IO (list byte * Stream) :=
  fun w =>
    if ((n <? - 2 ^ 63) || (2 ^ 63 <=? n))%bool
    then (Raise (OtherException
                   "cannot fit 'int' into an index-sized integer"), w)
    else if n <? -1
    then (Raise (ValueError "read length must be non-negative or -1"), w)
    else if n =? 0 then (Return ([], s), w)
    else
      match alloc_fault w (if n <? 0 then Z.of_nat (length (st_data s))
                           else n) with
      | Some msg => (Raise (OtherException msg), w)
      | None =>
          match st_data s with
          | [] =>
              match st_fault s with
              | Some e => (Raise e, w)
              | None => (Return ([], s), w)
              end
          | d =>
              if n <? 0 then (Return (d, mkStream [] (st_fault s)), w)
              else (Return (take (Z.to_nat n) d,
                            mkStream (drop (Z.to_nat n) d) (st_fault s)), w)
          end
      end.

(** The most that one [read(2)] or [write(2)] moves on Linux, whatever the
    count that is asked for: [MAX_RW_COUNT], 0x7ffff000 bytes. *)
Definition MAX_RW_COUNT : Z := 2147479552.

(** The bytes that one such call moves when [n] are asked for. *)
Definition rw_count (n : nat) : nat :=
  Z.to_nat (Z.min (Z.of_nat n) MAX_RW_COUNT).

(** The bytes under a write of [chunk] at [pos] into a device of fixed
    capacity: what falls beyond the end is not written. *)
Definition overwrite (pos : nat) (chunk data : list byte) : list byte :=
  take pos data ++ take (length data - pos) chunk
    ++ drop (pos + length chunk) data.

(** The same for a regular file, which grows. *)
Definition overwrite_file (pos : nat) (chunk data : list byte) : list byte :=
  take pos data ++ chunk ++ drop (pos + length chunk) data.

(** The destination of the write loop: [io.BytesIO()] in a dry run, the
    unbuffered file object of the device otherwise. *)
Inductive Destination :=
| BytesIO (buffer : list byte)
| DeviceFile (path : string) (pos : nat).

(** [destination.write(chunk)].  The buffer of [io.BytesIO] grows by the
    chunk, if there is memory for it.  The file object of the device is
    unbuffered: the call is one [write(2)], which stores the bytes [sent],
    the first [MAX_RW_COUNT] of the chunk at most, and on a block device
    only what fits; the file position moves by what was stored.  The code
    does not look at the count that the call returns.  Writing at the end
    of a block device fails with [ENOSPC]. *)
Definition dest_write (dest : Destination) (chunk : list byte)
  : IO Destination :=
  match dest with
  | BytesIO buffer =>
      fun w =>
        match alloc_fault w (Z.of_nat (length buffer + length chunk)) with
        | Some msg => (Raise (OtherException msg), w)
        | None => (Return (BytesIO (buffer ++ chunk)), w)
        end
  | DeviceFile path pos =>
      fun w =>
        let sent := take (rw_count (length chunk)) chunk in
        match fs w !! path with
        | Some (BlockDev data) =>
            if decide (length data <= pos)%nat
            then (Raise (OSErr ENOSPC), w)
            else (Return (DeviceFile path
                            (pos + Nat.min (length sent) (length data - pos))),
                  add_trace (SysWrite path pos chunk)
                    (set_fs (<[path := BlockDev (overwrite pos sent data)]>
                               (fs w)) w))
        | Some (Regular data) =>
            (Return (DeviceFile path (pos + length sent)),
             add_trace (SysWrite path pos chunk)
               (set_fs (<[path := Regular (overwrite_file pos sent data)]>
                          (fs w)) w))
        | _ => (Raise (OSErr EIO), w)
        end
  end.

(** The bytes stored at a path, if it is a file or a device. *)
Definition contents (w : World) (p : string) : option (list byte) :=
  match fs w !! p with
  | Some (Regular data) | Some (BlockDev data) => Some data
  | _ => None
  end.

(** [device.read(n)] on the unbuffered read-only file object at [pos]: a
    buffer of [n] bytes is made, and one [read(2)] fills it with the next
    bytes of the device, [MAX_RW_COUNT] at most, or fewer where the device
    ends. *)
Definition dev_read (path : string) (pos n : nat) : IO (list byte) :=
  fun w =>
    match alloc_fault w (Z.of_nat n) with
    | Some msg => (Raise (OtherException msg), w)
    | None =>
        match fs w !! path with
        | Some (BlockDev data) | Some (Regular data) =>
            (Return (take (rw_count n) (drop pos data)),
             add_trace (SysRead path pos n) w)
        | _ => (Raise (OSErr EIO), w)
        end
    end.

(** ** imaging.py *)

(** Callbacks are given by the record they put on the output channel, as the
    lambdas of [_run_worker] do. *)
Definition ProgressCallback : Type := Z -> option Z -> FlashEvent.
Definition StatusCallback : Type := string -> FlashEvent.

Definition call_progress (cb : option ProgressCallback)
    (current : Z) (total : option Z) : IO unit :=
  match cb with
  | Some f => emit (f current total)
  | None => ret tt
  end.

Definition call_status (cb : option StatusCallback) (message : string)
  : IO unit :=
  match cb with
  | Some f => emit (f message)
  | None => ret tt
  end.

Record ImageSource := mkImageSource {
  open_stream : IO Stream;
  image_size : option Z;
  display_name : string;
  cleanup : IO unit
}.

(** [destination.fileno()]: only the device file has a descriptor. *)
Definition dest_fsync (destination : Destination) : IO unit :=
  match destination with
  | DeviceFile path _ => os_fsync path
  | BytesIO _ => raise (OtherException "fileno")
  end.

(** [except OSError: pass] *)
Definition pass_OSError (e : exn) : option (IO unit) :=
  match is_OSError e with
  | Some _ => Some (ret tt)
  | None => None
  end.

(** The [while True] loop of [stream_image_to_device].  Every turn that does
    not leave the loop takes at least one byte from [source], so
    [S (length (st_data source))] turns are enough ([write_loop_fuel]). *)
Fixpoint write_loop (fuel : nat) (chunk_size : Z) (sync_required : bool)
    (progress_callback : option ProgressCallback) (total_bytes : option Z)
    (source : Stream) (destination : Destination) (bytes_written : Z)
  : IO Z :=
  match fuel with
  | O => ret bytes_written
  | S fuel' =>
      let* read := stream_read chunk_size source in
      let '(chunk, source') := read in
      if bool_decide (chunk = []) then ret bytes_written
      else
        let* destination' := dest_write destination chunk in
        do (if sync_required
            then try_except (dest_fsync destination') pass_OSError
            else ret tt) then
        let bytes_written' := bytes_written + Z.of_nat (length chunk) in
        do call_progress progress_callback bytes_written' total_bytes then
        write_loop fuel' chunk_size sync_required progress_callback
          total_bytes source' destination' bytes_written'
  end.

(** The messages of the three handlers of [os.open] in
    [stream_image_to_device]: [except PermissionError],
    [except FileNotFoundError], [except OSError]. *)
Definition open_device_message (device_path : string) (exc : OSError)
  : string :=
  match os_class exc with
  | PermissionError =>
      "Permission denied when opening " +:+ device_path
        +:+ ". Try running as root."
  | FileNotFoundError => "Device not found: " +:+ device_path
  | OtherOSError =>
      "Unable to open device " +:+ device_path +:+ ": " +:+ strerror exc
  end.

Definition open_device_handlers (device_path : string) (e : exn)
  : option (IO unit) :=
  match is_OSError e with
  | Some exc => Some (raise (FlashError (open_device_message device_path exc)))
  | None => None
  end.

Definition stream_image_to_device (image_source : ImageSource)
    (device_path : string) (chunk_size : Z)
    (progress_callback : option ProgressCallback)
    (status_callback : option StatusCallback) (dry_run : bool) : IO Z :=
  if chunk_size <=? 0 then raise (ValueError "chunk_size must be positive")
  else
    let total_bytes := image_size image_source in
    do call_status status_callback "Starting write" then
    let* source :=
      try_except (open_stream image_source)
        (fun e =>
           match is_OSError e with
           | Some exc =>
               Some (raise (FlashError ("Unable to open image: "
                                          +:+ os_str exc)))
           | None => None
           end) in
    let* destination :=
      if dry_run then ret (BytesIO [])
      else
        do try_except (os_open device_path O_RDWR)
             (open_device_handlers device_path) then
        do os_fdopen device_path then
        ret (DeviceFile device_path 0) in
    let sync_required := negb dry_run in
    let* bytes_written :=
      write_loop (S (length (st_data source))) chunk_size sync_required
        progress_callback total_bytes source destination 0 in
    do call_status status_callback "Write completed" then
    ret bytes_written.

(** The [while True] loop of [verify_device_contents]; [pos] is the position
    of the device file object. *)
Fixpoint verify_loop (fuel : nat) (chunk_size : Z) (device_path : string)
    (progress_callback : option ProgressCallback) (total : option Z)
    (source : Stream) (pos : nat) (bytes_checked : Z) : IO unit :=
  match fuel with
  | O => ret tt
  | S fuel' =>
      let* read := stream_read chunk_size source in
      let '(image_chunk, source') := read in
      if bool_decide (image_chunk = []) then ret tt
      else
        let* device_chunk :=
          dev_read device_path pos (length image_chunk) in
        if bool_decide (image_chunk <> device_chunk)
        then raise (VerificationError ("Verification failed at offset "
                                         +:+ pretty bytes_checked))
        else
          let bytes_checked' :=
            bytes_checked + Z.of_nat (length image_chunk) in
          do call_progress progress_callback bytes_checked' total then
          verify_loop fuel' chunk_size device_path progress_callback
            total source' (pos + length device_chunk)%nat bytes_checked'
  end.

(** The messages of the three handlers of [os.open] in
    [verify_device_contents]. *)
Definition read_device_message (device_path : string) (exc : OSError)
  : string :=
  match os_class exc with
  | PermissionError =>
      "Permission denied when reading " +:+ device_path
        +:+ ". Try running as root."
  | FileNotFoundError => "Device not found: " +:+ device_path
  | OtherOSError =>
      "Unable to read " +:+ device_path +:+ ": " +:+ strerror exc
  end.

Definition read_device_handlers (device_path : string) (e : exn)
  : option (IO unit) :=
  match is_OSError e with
  | Some exc =>
      Some (raise (VerificationError (read_device_message device_path exc)))
  | None => None
  end.

Definition verify_device_contents (image_source : ImageSource)
    (device_path : string) (chunk_size : Z)
    (progress_callback : option ProgressCallback)
    (status_callback : option StatusCallback) : IO unit :=
  do call_status status_callback "Starting verification" then
  let total := image_size image_source in
  let* source :=
    try_except (open_stream image_source)
      (fun e =>
         match is_OSError e with
         | Some exc =>
             Some (raise (VerificationError ("Unable to reopen image: "
                                               +:+ os_str exc)))
         | None => None
         end) in
  do try_except (os_open device_path O_RDONLY)
       (read_device_handlers device_path) then
  do os_fdopen device_path then
  do verify_loop (S (length (st_data source))) chunk_size device_path
       progress_callback total source 0%nat 0 then
  call_status status_callback "Verification completed".

(** ** Strings and paths of the Python library

    A character of a Python [str] is an [ascii] here, a code point below
    256. *)

(** [c.lower()] for the letters A to Z.  Other characters are left as
    they are; lowered or not, none of them occurs in a suffix that
    [prepare_image_source] looks for. *)
Definition ascii_lower (c : ascii) : ascii :=
  let n := Ascii.nat_of_ascii c in
  if (Nat.leb 65 n && Nat.leb n 90)%bool then Ascii.ascii_of_nat (n + 32)
  else c.

(** [s.lower()] *)
Fixpoint lower (s : string) : string :=
  match s with
  | EmptyString => EmptyString
  | String c s' => String (ascii_lower c) (lower s')
  end.

(** [s.split(sep)] for a separator of one character. *)
Fixpoint split_on (sep : ascii) (s : string) : list string :=
  match s with
  | EmptyString => [EmptyString]
  | String c s' =>
      if decide (c = sep) then EmptyString :: split_on sep s'
      else
        match split_on sep s' with
        | [] => [String c EmptyString]
        | h :: t => String c h :: t
        end
  end.

(** [s.lstrip(c)] for one character. *)
Fixpoint lstrip_char (c : ascii) (s : string) : string :=
  match s with
  | EmptyString => EmptyString
  | String c' s' => if decide (c' = c) then lstrip_char c s' else s
  end.

(** [s.endswith(c)] for one character. *)
Fixpoint endswith_char (c : ascii) (s : string) : bool :=
  match s with
  | EmptyString => false
  | String c' EmptyString => bool_decide (c' = c)
  | String _ s' => endswith_char c s'
  end.

(** The whitespace that [str.strip()] removes. *)
Definition is_space (c : ascii) : bool :=
  let n := Ascii.nat_of_ascii c in
  ((Nat.leb 9 n && Nat.leb n 13) || (Nat.leb 28 n && Nat.leb n 32)
   || Nat.eqb n 133 || Nat.eqb n 160)%bool.

Fixpoint lstrip (s : string) : string :=
  match s with
  | EmptyString => EmptyString
  | String c s' => if is_space c then lstrip s' else s
  end.

(** [s.rstrip()] *)
Fixpoint rstrip (s : string) : string :=
  match s with
  | EmptyString => EmptyString
  | String c s' =>
      match rstrip s' with
      | EmptyString => if is_space c then EmptyString else String c EmptyString
      | r => String c r
      end
  end.

(** [s.strip()] *)
Definition strip (s : string) : string := lstrip (rstrip s).

(** [sep.join(l)] *)
Fixpoint join (sep : string) (l : list string) : string :=
  match l with
  | [] => EmptyString
  | [x] => x
  | x :: rest => x +:+ sep +:+ join sep rest
  end.

(** [bool(s)] for a string. *)
Definition truthy (s : string) : bool :=
  match s with
  | EmptyString => false
  | _ => true
  end.

(** The components of [Path(p)] after its root: empty components and [.]
    do not count. *)
Definition path_parts (p : string) : list string :=
  filter (fun c => c <> EmptyString /\ c <> ".") (split_on "/" p).

(** [Path(p).name]: the last component. *)
Definition path_name (p : string) : string :=
  List.last (path_parts p) EmptyString.

Fixpoint leading_slashes (s : string) : nat :=
  match s with
  | EmptyString => O
  | String c s' => if decide (c = "/"%char) then S (leading_slashes s') else O
  end.

(** The root of [Path(p)]: two slashes at the start are kept, one and
    three or more are one. *)
Definition path_root (p : string) : string :=
  match leading_slashes p with
  | O => EmptyString
  | 2%nat => "//"
  | _ => "/"
  end.

(** [str(Path(p))]: the root and the components, joined by single slashes;
    [.] when nothing is left. *)
Definition Path (p : string) : string :=
  match path_root p +:+ join "/" (path_parts p) with
  | EmptyString => "."
  | s => s
  end.

(** [Path(p).suffixes], from the name. *)
Definition path_suffixes (nm : string) : list string :=
  if endswith_char "." nm then []
  else map (fun x => "." +:+ x) (tail (split_on "." (lstrip_char "." nm))).

(** [dir / nm] for a name without separator. *)
Definition path_join (dir nm : string) : string :=
  match nm with
  | EmptyString => dir
  | _ => dir +:+ "/" +:+ nm
  end.

(** [ZipInfo.is_dir()] *)
Definition is_dir (info : ZipInfo) : bool := endswith_char "/" (filename info).

(** ** File-system calls of [prepare_image_source] *)

(** [path.exists()]: an [OSError] of the [stat] that does not mean that
    nothing is there is raised again. *)
Definition path_exists (p : string) : IO bool :=
  fun w =>
    match stat_fault w p with
    | Some e => (Raise (OSErr e), w)
    | None => (Return (bool_decide (is_Some (fs w !! p))), w)
    end.

(** [path.is_file()], likewise. *)
Definition path_is_file (p : string) : IO bool :=
  fun w =>
    match stat_fault w p with
    | Some e => (Raise (OSErr e), w)
    | None =>
        (Return match fs w !! p with
                | Some (Regular _) => true
                | _ => false
                end, w)
    end.

(** [path.stat().st_size] *)
Definition stat_size (p : string) : IO Z :=
  fun w =>
    match stat_fault w p with
    | Some e => (Raise (OSErr e), w)
    | None =>
        match fs w !! p with
        | Some (Regular data) | Some (BlockDev data) =>
            (Return (Z.of_nat (length data)), w)
        | Some Directory => (Return 4096, w)
        | None => (Raise (OSErr (ENOENT p)), w)
        end
    end.

(** [open(path, "rb")], giving the bytes of the file as they are then. *)
Definition open_rb (p : string) : IO (list byte) :=
  do os_open p O_RDONLY then
  fun w =>
    match fs w !! p with
    | Some (Regular data) | Some (BlockDev data) => (Return data, w)
    | Some Directory => (Raise (OSErr (EISDIR p)), w)
    | None => (Raise (OSErr (ENOENT p)), w)
    end.

Definition EEXIST : OSError :=
  mkOSError OtherOSError "No usable temporary directory name found"
    "[Errno 17] No usable temporary directory name found".
Definition ENOTEMPTY (p : string) : OSError :=
  mkOSError OtherOSError "Directory not empty"
    ("[Errno 39] Directory not empty: '" +:+ p +:+ "'").
Definition ENOTDIR (p : string) : OSError :=
  mkOSError OtherOSError "Not a directory"
    ("[Errno 20] Not a directory: '" +:+ p +:+ "'").

(** Nothing lies below the directory. *)
Definition dir_empty (f : gmap string Node) (dir : string) : bool :=
  forallb (fun kv => negb (String.prefix (dir +:+ "/") (fst kv)))
          (map_to_list f).

(** The first candidate name that is not taken; a new directory has
    nothing below it. *)
Fixpoint fresh_name (f : gmap string Node) (prefix : string)
    (names : list string) : option (string * list string) :=
  match names with
  | [] => None
  | n :: rest =>
      let p := "/tmp/" +:+ prefix +:+ n in
      match f !! p with
      | None =>
          if dir_empty f p then Some (p, rest)
          else fresh_name f prefix rest
      | Some _ => fresh_name f prefix rest
      end
  end.

(** [tempfile.mkdtemp(prefix=prefix)] *)
Definition mkdtemp (prefix : string) : IO string :=
  fun w =>
    match fresh_name (fs w) prefix (tmp_names w) with
    | None => (Raise (OSErr EEXIST), w)
    | Some (p, rest) =>
        (Return p, set_tmp_names rest (set_fs (<[p := Directory]> (fs w)) w))
    end.

(** [open(target, "wb")] and [shutil.copyfileobj(source, dest)]: the target
    receives what the stream delivers; a broken stream leaves it
    incomplete.  The directory of the target is taken to be there. *)
Definition copy_to_file (archive target : string) (source : Stream)
  : IO unit :=
  do syscall (SysExtract archive target) then
  fun w =>
    let w' := set_fs (<[target := Regular (st_data source)]> (fs w)) w in
    match st_fault source with
    | Some e => (Raise e, w')
    | None => (Return tt, w')
    end.

(** [target.unlink()] *)
Definition unlink (p : string) : IO unit :=
  fun w =>
    match fs w !! p with
    | Some Directory => (Raise (OSErr (EISDIR p)), w)
    | Some _ => (Return tt, set_fs (delete p (fs w)) w)
    | None => (Raise (OSErr (ENOENT p)), w)
    end.

(** [dir.rmdir()] *)
Definition rmdir (p : string) : IO unit :=
  fun w =>
    match fs w !! p with
    | Some Directory =>
        if dir_empty (fs w) p then (Return tt, set_fs (delete p (fs w)) w)
        else (Raise (OSErr (ENOTEMPTY p)), w)
    | Some _ => (Raise (OSErr (ENOTDIR p)), w)
    | None => (Raise (OSErr (ENOENT p)), w)
    end.

(** ** imaging.py: the image source *)

(** [make_stream] of a plain image. *)
Definition make_stream_raw (p : string) : IO Stream :=
  let* data := open_rb p in
  ret (mkStream data None).

(** [make_stream] of a compressed image: [gzip.open(path, "rb")] and its
    like open the file and decode while reading. *)
Definition make_stream_codec (decode : Codecs -> list byte -> Stream)
    (p : string) : IO Stream :=
  let* data := open_rb p in
  fun w => (Return (decode (codecs w) data), w).

Definition ensure_extracted (p target_path : string) (entry : ZipInfo)
  : IO string :=
  let* present := path_exists target_path in
  if present then ret target_path
  else
    let* data := open_rb p in
    let* source := (fun w => (zip_open (codecs w) data entry, w)) in
    do copy_to_file p target_path source then
    ret target_path.

(** [make_stream] of a ZIP archive. *)
Definition make_stream_zip (p target_path : string) (entry : ZipInfo)
  : IO Stream :=
  let* extracted := ensure_extracted p target_path entry in
  let* data := open_rb extracted in
  ret (mkStream data None).

(** [cleanup] of a ZIP archive. *)
Definition zip_cleanup (target_path temp_dir : string) : IO unit :=
  try_except
    (let* present := path_exists target_path in
     do (if present then unlink target_path else ret tt) then
     rmdir temp_dir)
    pass_OSError.

(** [except Exception: pass] *)
Definition pass_Exception (e : exn) : option (IO unit) :=
  if is_Exception e then Some (ret tt) else None.

Fixpoint run_callbacks (cleanup_callbacks : list (IO unit)) : IO unit :=
  match cleanup_callbacks with
  | [] => ret tt
  | func :: rest =>
      do try_except func pass_Exception then
      run_callbacks rest
  end.

(** [run_cleanup]; the call itself is traced. *)
Definition run_cleanup (cleanup_callbacks : list (IO unit)) : IO unit :=
  do syscall SysCleanup then
  run_callbacks cleanup_callbacks.

Definition prepare_image_source (image_path : string) : IO ImageSource :=
  let p := Path image_path in
  let* present := path_exists p in
  if negb present
  then raise (FlashError ("Image file not found: " +:+ p))
  else
    let* regular := path_is_file p in
    if negb regular
    then raise (FlashError ("Image path is not a file: " +:+ p))
    else
      let suffixes := map lower (path_suffixes (path_name p)) in
      let* st_size := stat_size p in
      let plain :=
        mkImageSource (make_stream_raw p) (Some st_size) (path_name p)
                      (run_cleanup []) in
      match last suffixes with
      | None => ret plain
      | Some suffix =>
          if bool_decide (suffix ∈ [".gz"; ".gzip"])
          then ret (mkImageSource (make_stream_codec gzip_decode p) None
                      (path_name p) (run_cleanup []))
          else if bool_decide (suffix ∈ [".xz"; ".lzma"])
          then ret (mkImageSource (make_stream_codec lzma_decode p) None
                      (path_name p) (run_cleanup []))
          else if bool_decide (suffix ∈ [".bz2"; ".bzip2"])
          then ret (mkImageSource (make_stream_codec bz2_decode p) None
                      (path_name p) (run_cleanup []))
          else if bool_decide (suffix = ".zip")
          then
            let* data := open_rb p in
            let* infos := (fun w => (zip_infolist (codecs w) data, w)) in
            let entries := filter (fun info => is_dir info = false) infos in
            if bool_decide (length entries <> 1%nat)
            then raise (FlashError
                          "ZIP archives must contain exactly one image file")
            else
              match entries with
              | entry :: _ =>
                  let* temp_dir := mkdtemp "shark_etcher_zip_" in
                  let target_path :=
                    path_join temp_dir (path_name (filename entry)) in
                  ret (mkImageSource (make_stream_zip p target_path entry)
                         (Some (file_size entry))
                         (path_name p +:+ " -> " +:+ filename entry)
                         (run_cleanup [zip_cleanup target_path temp_dir]))
              | [] => raise (OtherException "list index out of range")
              end
          else ret plain
      end.

(** [a or b] for optional callbacks. *)
Definition or_else {A} (a b : option A) : option A :=
  match a with
  | Some _ => a
  | None => b
  end.

(** The [try] block of [flash_image]. *)
Definition write_then_verify (image_source : ImageSource)
    (device_path : string) (verify : bool) (chunk_size : Z)
    (progress_callback : option ProgressCallback)
    (verify_progress_callback : option ProgressCallback)
    (status_callback : option StatusCallback) (dry_run : bool) : IO Z :=
  let* written :=
    stream_image_to_device image_source device_path chunk_size
      progress_callback status_callback dry_run in
  do (if (verify && negb dry_run)%bool
      then verify_device_contents image_source device_path chunk_size
             (or_else verify_progress_callback progress_callback)
             status_callback
      else ret tt) then
  ret written.

Definition flash_image (image_path device_path : string) (verify : bool)
    (chunk_size : Z) (progress_callback : option ProgressCallback)
    (verify_progress_callback : option ProgressCallback)
    (status_callback : option StatusCallback) (dry_run : bool) : IO Z :=
  let* image_source := prepare_image_source image_path in
  try_finally
    (write_then_verify image_source device_path verify chunk_size
       progress_callback verify_progress_callback status_callback dry_run)
    (cleanup image_source).

(** ** devices.py *)

(** The order in which Python iterates over a set of strings is not fixed
    by the language: any enumeration of the distinct elements may occur. *)
Class SetOrder := {
  set_iter : list string -> list string;
  set_iter_NoDup : forall l, NoDup (set_iter l);
  set_iter_elem : forall l x, x ∈ set_iter l <-> x ∈ l
}.

(** One such order: first occurrences, left to right. *)
#[export] Instance first_seen_order : SetOrder := {|
  set_iter := remove_dups;
  set_iter_NoDup := NoDup_remove_dups;
  set_iter_elem := fun l x => elem_of_remove_dups l x
|}.

(** [sorted(l, key=len, reverse=True)]: a stable sort, longest first;
    strings of one length keep their order. *)
Fixpoint insert_by_len (x : string) (l : list string) : list string :=
  match l with
  | [] => [x]
  | y :: l' =>
      if Nat.leb (String.length y) (String.length x) then x :: y :: l'
      else y :: insert_by_len x l'
  end.

Fixpoint sorted_by_len_desc (l : list string) : list string :=
  match l with
  | [] => []
  | x :: l' => insert_by_len x (sorted_by_len_desc l')
  end.

(** [subprocess.run(cmd, check=True, capture_output=True, text=True)]: the
    captured output of the command, or the exception that the run raises. *)
Definition subprocess_run (cmd : list string) : IO string :=
  fun w => (proc_oracle w (proc_log w) cmd, add_proc cmd w).

(** [except (FileNotFoundError, subprocess.CalledProcessError)] *)
Definition not_run (e : exn) : bool :=
  (is_FileNotFoundError e || is_CalledProcessError e)%bool.

(** [shutil.which(tool)] as a truth value. *)
Definition shutil_which (tool : string) : IO bool :=
  fun w => (Return (which_oracle w (proc_log w) tool), w).

Definition _lookup_mount_source (target : string) : IO (option string) :=
  try_except_else
    (subprocess_run ["findmnt"; "-no"; "SOURCE"; "--"; target])
    (fun e => if not_run e then Some (ret None) else None)
    (fun completed =>
       let value := strip completed in
       ret (if truthy value then Some value else None)).

(** The [for cmd in candidates] loop of [_unmount_target]: [continue] after
    [FileNotFoundError] and after [CalledProcessError], [return True] when
    the command has completed; any other exception leaves the loop. *)
Fixpoint try_candidates (candidates : list (list string)) : IO bool :=
  match candidates with
  | [] => ret false
  | cmd :: rest =>
      try_except_else (subprocess_run cmd)
        (fun e =>
           if is_FileNotFoundError e then Some (try_candidates rest)
           else if is_CalledProcessError e then Some (try_candidates rest)
           else None)
        (fun _ => ret true)
  end.

Definition _unmount_target (target : string) : IO bool :=
  let candidates := [["umount"; target]] in
  let* source := _lookup_mount_source target in
  let* candidates :=
    match source with
    | Some src =>
        let* found := shutil_which "udisksctl" in
        ret (if found
             then candidates ++ [["udisksctl"; "unmount"; "-b"; src]]
             else candidates)
    | None => ret candidates
    end in
  let candidates := candidates ++ [["umount"; "-l"; target]] in
  try_candidates candidates.

(** The [for target in targets] loop of [unmount_device]. *)
Fixpoint unmount_loop (targets unmounted errors : list string)
  : IO (list string * list string) :=
  match targets with
  | [] => ret (unmounted, errors)
  | target :: rest =>
      let* ok := _unmount_target target in
      if ok then unmount_loop rest (unmounted ++ [target]) errors
      else unmount_loop rest unmounted (errors ++ [target])
  end.

Section Devices.
Context `{SetOrder}.

(** [sorted({mp for mp in device.mountpoints if mp}, key=len, reverse=True)] *)
Definition unmount_targets (device : BlockDevice) : list string :=
  sorted_by_len_desc
    (set_iter (filter (fun mp => truthy mp = true) (mountpoints device))).

Definition unmount_device (device : BlockDevice) : IO (list string) :=
  let targets := unmount_targets device in
  match targets with
  | [] => ret []
  | _ =>
      let* r := unmount_loop targets [] [] in
      let '(unmounted, errors) := r in
      match errors with
      | [] => ret unmounted
      | _ =>
          let details := join ", " errors in
          raise (UnmountError ("Failed to unmount: " +:+ details) unmounted)
      end
  end.

End Devices.

(** The dispatch of [list_block_devices] on [platform.system()], before the
    filter: what [_linux_devices] delivers on Linux, and the
    [DeviceEnumerationError] of every other platform. *)
Definition platform_devices (system : string)
    (_linux_devices : exn + list BlockDevice)
  : exn + list BlockDevice :=
  if bool_decide (system = "Linux") then _linux_devices
  else if bool_decide (system = "Darwin")
  then inl (DeviceEnumerationError "macOS support not implemented yet")
  else if bool_decide (system = "Windows")
  then inl (DeviceEnumerationError "Windows support not implemented yet")
  else inl (DeviceEnumerationError ("Unsupported platform: " +:+ system)).

(** What the enumeration of the platform comes to in a world: the devices,
    or the exception that it raises. *)
Definition enumeration (w : World) : exn + list BlockDevice :=
  platform_devices (platform_system w) (linux_devices w).

(** [list_block_devices]: the platform's enumeration, then the filter. *)
Definition list_block_devices (require_removable : bool)
  : IO (list BlockDevice) :=
  fun w =>
    match enumeration w with
    | inl e => (Raise e, w)
    | inr devices =>
        (Return (if require_removable
                 then filter (fun d => removable d = true) devices
                 else devices), w)
    end.

Definition find_device_by_path (device_path : string)
    (require_removable : bool) : IO (option BlockDevice) :=
  try_except
    (let* devices := list_block_devices require_removable in
     ret (find (fun device => bool_decide (path device = device_path))
               devices))
    (fun e =>
       match e with
       | DeviceEnumerationError _ => Some (ret None)
       | _ => None
       end).

(** ** main.py: the worker *)

(** The attributes of the parsed command line that the worker reads. *)
Record Args := mkArgs {
  arg_image : option string;
  arg_device : option string;
  arg_verify : bool;
  arg_dry_run : bool;
  arg_chunk_size : Z
}.

(** [bool(x)] for an optional string: [None] and [""] are false. *)
Definition opt_truthy (o : option string) : bool :=
  match o with
  | Some s => truthy s
  | None => false
  end.

Fixpoint emit_all (events : list FlashEvent) : IO unit :=
  match events with
  | [] => ret tt
  | e :: rest => do emit e then emit_all rest
  end.

Section Worker.
Context `{SetOrder}.

(** The part of [_run_worker] that looks the device up and unmounts it.
    [Some code] means that the worker returns [code] from there. *)
Definition worker_unmount (device : string) (dry_run : bool)
  : IO (option Z) :=
  let* device_info := find_device_by_path device false in
  match device_info with
  | Some info =>
      if (bool_decide (mountpoints info <> []) && negb dry_run)%bool
      then
        do emit (EvStatus ("Unmounting " +:+ device)) then
        try_except_else (unmount_device info)
          (fun e =>
             match e with
             | UnmountError _ _ =>
                 Some (do emit (EvError (exn_str e)) then ret (Some 10))
             | _ => None
             end)
          (fun unmounted =>
             do emit_all (map (fun mount => EvLog ("Unmounted " +:+ mount))
                              unmounted) then
             ret None)
      else ret None
  | None =>
      do emit (EvLog ("Warning: could not refresh device info for "
                        +:+ device)) then
      ret None
  end.

(** The handlers around [flash_image] in [_run_worker]. *)
Definition worker_handlers (e : exn) : option (IO Z) :=
  match e with
  | FlashError _ => Some (do emit (EvError (exn_str e)) then ret 2)
  | VerificationError _ => Some (do emit (EvError (exn_str e)) then ret 3)
  | KeyboardInterrupt =>
      Some (do emit (EvError "Operation cancelled") then ret 130)
  | _ =>
      if is_Exception e
      then Some (do emit (EvError ("Unexpected error: " +:+ exn_str e)) then
                 ret 99)
      else None
  end.

Definition _run_worker (args : Args) : IO Z :=
  if (negb (opt_truthy (arg_image args))
      || negb (opt_truthy (arg_device args)))%bool
  then
    do emit (EvError "Worker missing required arguments") then
    ret 64
  else
    let image := default EmptyString (arg_image args) in
    let device := default EmptyString (arg_device args) in
    let* returned := worker_unmount device (arg_dry_run args) in
    match returned with
    | Some code => ret code
    | None =>
        try_except_else
          (flash_image image device (arg_verify args) (arg_chunk_size args)
             (Some (fun current total => EvProgress PhaseWrite current total))
             (Some (fun current total => EvProgress PhaseVerify current total))
             (Some (fun message => EvStatus message))
             (arg_dry_run args))
          worker_handlers
          (fun written =>
             do emit (EvDone written (arg_dry_run args)) then
             ret 0)
    end.

End Worker.

(** ** Vocabulary of the statements *)

(** System calls that read the device at [p] and end at or before offset
    [bound]. *)
Definition reads_below (p : string) (bound : nat) (calls : list SysCall)
  : Prop :=
  Forall (fun call => exists off cnt,
            call = SysRead p off cnt /\ (off + cnt <= bound)%nat) calls.

(** [a] is at least as long as [c]: the order of the unmount targets. *)
Definition longer_first (a c : string) : Prop :=
  (String.length c <= String.length a)%nat.

(** System calls that write nothing to a device: opening for reading, and
    extracting an archive entry into the temporary directory. *)
Definition read_only_call (call : SysCall) : Prop :=
  match call with
  | SysOpen _ O_RDONLY | SysExtract _ _ => True
  | _ => False
  end.

(** The world after the commands [cmds] have been run. *)
Definition ran (w : World) (cmds : list (list string)) : World :=
  mkWorld (fs w) (open_fault w) (stat_fault w) (fsync_fault w)
          (alloc_fault w) (codecs w) (platform_system w) (linux_devices w)
          (proc_oracle w) (which_oracle w) (proc_log w ++ cmds) (tmp_names w)
          (stdout w) (trace w).

(** The targets of the plain [umount] commands in a log, in order: each
    target's first unmount attempt. *)
Definition attempted (cmds : list (list string)) : list string :=
  omap (fun cmd =>
          match cmd with
          | [tool; target] =>
              if bool_decide (tool = "umount") then Some target else None
          | _ => None
          end) cmds.

(** Unmounting as section 4.2 of the design words it: every target is
    attempted, whatever became of the targets before it, and all results
    are collected. *)
Fixpoint attempt_all (targets : list string) : IO (list (string * bool)) :=
  match targets with
  | [] => ret []
  | target :: rest =>
      let* ok := _unmount_target target in
      let* results := attempt_all rest in
      ret ((target, ok) :: results)
  end.

Definition succeeded (results : list (string * bool)) : list string :=
  map fst (filter (fun r => snd r = true) results).

Definition failed (results : list (string * bool)) : list string :=
  map fst (filter (fun r => snd r = false) results).

Definition is_cleanup (call : SysCall) : bool :=
  match call with
  | SysCleanup => true
  | _ => false
  end.

Definition is_extract (call : SysCall) : bool :=
  match call with
  | SysExtract _ _ => true
  | _ => false
  end.

(** Number of calls of the cleanup capability in a trace. *)
Definition cleanups (calls : list SysCall) : nat :=
  length (filter (fun call => is_cleanup call = true) calls).

(** Number of extractions in a trace. *)
Definition extractions (calls : list SysCall) : nat :=
  length (filter (fun call => is_extract call = true) calls).


(** How the worker ends, given what [flash_image] did: the exit code and
    the last record, by category. *)
Inductive flash_verdict (dry_run : bool)
  : outcome Z -> Z -> FlashEvent -> Prop :=
| verdict_success n :
    flash_verdict dry_run (Return n) 0 (EvDone n dry_run)
| verdict_write_failure msg :
    flash_verdict dry_run (Raise (FlashError msg)) 2 (EvError msg)
| verdict_verification_failure msg :
    flash_verdict dry_run (Raise (VerificationError msg)) 3 (EvError msg)
| verdict_cancelled :
    flash_verdict dry_run (Raise KeyboardInterrupt) 130
      (EvError "Operation cancelled")
| verdict_unexpected e :
    (forall msg, e <> FlashError msg) ->
    (forall msg, e <> VerificationError msg) ->
    e <> KeyboardInterrupt ->
    flash_verdict dry_run (Raise e) 99
      (EvError ("Unexpected error: " +:+ exn_str e)).

(** A frame: a relation between the world before and after a computation
    that looks at the output and the trace only, and that admits every
    system call but the cleanup call, and the output records in
    [ok_event]. *)
Class Frame := {
  frame_rel : World -> World -> Prop;
  ok_event : FlashEvent -> Prop;
  frame_trans : forall w1 w2 w3,
    frame_rel w1 w2 -> frame_rel w2 w3 -> frame_rel w1 w3;
  frame_other : forall w w',
    stdout w' = stdout w -> trace w' = trace w -> frame_rel w w';
  frame_call : forall w call,
    is_cleanup call = false -> frame_rel w (add_trace call w);
  frame_event : forall w e, ok_event e -> frame_rel w (add_stdout e w)
}.

(** The frame of the cleanup claim: no cleanup call is added. *)
Definition same_cleanups (w w' : World) : Prop :=
  cleanups (trace w') = cleanups (trace w).


(** The computation stays within the frame. *)
Definition keeps `{Frame} {A} (m : IO A) : Prop :=
  forall w, frame_rel w (m w).2.

(** The callback writes admitted records only. *)
Definition progress_ok `{Frame} (cb : option ProgressCallback) : Prop :=
  forall f current total, cb = Some f -> ok_event (f current total).

Definition status_ok `{Frame} (cb : option StatusCallback) : Prop :=
  forall f message, cb = Some f -> ok_event (f message).

(** The image sources that [prepare_image_source] makes. *)
Inductive prepared : ImageSource -> Prop :=
| prepared_raw p sz nm :
    prepared (mkImageSource (make_stream_raw p) sz nm (run_cleanup []))
| prepared_codec decode p sz nm :
    prepared (mkImageSource (make_stream_codec decode p) sz nm
                (run_cleanup []))
| prepared_zip p target entry temp_dir sz nm :
    prepared (mkImageSource (make_stream_zip p target entry) sz nm
                (run_cleanup [zip_cleanup target temp_dir])).

(** ** Sample worlds *)

Definition no_codecs : Codecs :=
  mkCodecs (fun data => mkStream data None) (fun data => mkStream data None)
           (fun data => mkStream data None)
           (fun _ => Raise (OtherException "File is not a zip file"))
           (fun _ _ => Raise (OtherException "File is not a zip file")).

(** [str(exc)] of a [CalledProcessError], but for the command that it
    names. *)
Definition exit_status_1 : string := "Command returned non-zero exit status 1.".

(** A world with the given files, where every tool exists and fails. *)
Definition world_of (files : gmap string Node) (c : Codecs) : World :=
  mkWorld files (fun _ _ => None) (fun _ => None) (fun _ => None)
          (fun _ => None) c "Linux" (inr [])
          (fun _ _ => Raise (CalledProcessError exit_status_1))
          (fun _ _ => false) []
          ["aaaa"; "bbbb"] [] [].

Definition b (n : nat) : byte := default x00 (Byte.of_nat n).

Definition sample_image : list byte := map b (seq 1 10).

(** The image source of a plain file [/img.bin]. *)
Definition sample_source : ImageSource :=
  mkImageSource (make_stream_raw "/img.bin") (Some 10) "img.bin"
                (run_cleanup []).

(** A world with the image [/img.bin] and a block device [/dev/sdb]. *)
Definition sample_world (device : list byte) : World :=
  world_of (<["/img.bin" := Regular sample_image]>
              (<["/dev/sdb" := BlockDev device]> ∅)) no_codecs.

(** The same world without the device. *)
Definition world_without_device : World :=
  world_of (<["/img.bin" := Regular sample_image]> ∅) no_codecs.

(** A device with three nested mountpoints. *)
Definition sample_device : BlockDevice :=
  mkBlockDevice "sdb" "/dev/sdb" 0 "" true None ""
                ["/mnt/usb/boot"; "/mnt"; "/mnt/usb"].

(** An archive [/a/image.ZIP] with a directory and one image of ten bytes. *)
Definition zip_codecs : Codecs :=
  mkCodecs (fun data => mkStream data None) (fun data => mkStream data None)
           (fun data => mkStream data None)
           (fun _ => Return [mkZipInfo "img/" 0; mkZipInfo "img/disk.img" 10])
           (fun _ _ => Return (mkStream sample_image None)).

Definition zip_world : World :=
  world_of (<["/a/image.ZIP" := Regular [b 80; b 75]]> ∅) zip_codecs.


(** ** Vocabulary of the further properties *)

(** The parts of the world that the functions of [imaging.py] leave alone:
    the faults, the memory, the decoders, the platform and the devices
    found, the oracles of the subprocesses and the commands run. *)
Definition same_env (w w' : World) : Prop :=
  open_fault w' = open_fault w /\ stat_fault w' = stat_fault w /\
  fsync_fault w' = fsync_fault w /\ alloc_fault w' = alloc_fault w /\
  codecs w' = codecs w /\ platform_system w' = platform_system w /\
  linux_devices w' = linux_devices w /\
  proc_oracle w' = proc_oracle w /\ which_oracle w' = which_oracle w /\
  proc_log w' = proc_log w.

(** There is memory for every buffer that is asked for. *)
Definition enough_memory (w : World) : Prop :=
  forall n, alloc_fault w n = None.

(** The byte counts passed to the progress callback while [n] bytes are
    copied in chunks of [chunk_size]: one count after every chunk. *)
Definition progress_marks (chunk_size : Z) (n : nat) : list Z :=
  map (fun i => Z.min (Z.of_nat (S i) * chunk_size) (Z.of_nat n))
      (seq 0 (Z.to_nat ((Z.of_nat n + chunk_size - 1) / chunk_size))).

(** The records that the callbacks write for these counts and for a status
    message. *)
Definition progress_events (cb : option ProgressCallback) (total : option Z)
    (marks : list Z) : list FlashEvent :=
  match cb with
  | Some f => map (fun current => f current total) marks
  | None => []
  end.

Definition status_events (cb : option StatusCallback) (message : string)
  : list FlashEvent :=
  match cb with
  | Some f => [f message]
  | None => []
  end.

(** Some chunk of an image of [n] bytes starts at or beyond the end of a
    device of [capacity] bytes. *)
Definition chunk_beyond (chunk_size : Z) (capacity n : nat) : bool :=
  chunk_size * ((Z.of_nat capacity + chunk_size - 1) / chunk_size)
    <? Z.of_nat n.

(** A write to the device at [p]. *)
Definition write_to (p : string) (call : SysCall) : Prop :=
  exists off chunk, call = SysWrite p off chunk.

(** A read-only access to the device at [p]. *)
Definition read_of (p : string) (call : SysCall) : Prop :=
  call = SysOpen p O_RDONLY \/ exists off cnt, call = SysRead p off cnt.

(** An image of ten bytes and a device that holds other bytes. *)
Definition other_device : list byte := replicate 10 (b 0).

(** No slash occurs in the string. *)
Fixpoint no_slash (s : string) : bool :=
  match s with
  | EmptyString => true
  | String c s' => if decide (c = "/"%char) then false else no_slash s'
  end.

(** The last suffix of the name of a path, in lower case: what
    [prepare_image_source] goes by. *)
Definition last_suffix (p : string) : option string :=
  last (map lower (path_suffixes (path_name p))).

(** The suffixes of the compressed images, whose size is not known before
    they have been read. *)
Definition compressed_suffixes : list string :=
  [".gz"; ".gzip"; ".xz"; ".lzma"; ".bz2"; ".bzip2"].

Definition is_compressed (p : string) : bool :=
  match last_suffix p with
  | Some s => bool_decide (s ∈ compressed_suffixes)
  | None => false
  end.

(** The stream that [make_stream] delivers for the bytes of a file with
    that suffix, for every kind of image but the ZIP archive. *)
Definition decoded (c : Codecs) (suffix : option string) (data : list byte)
  : Stream :=
  match suffix with
  | None => mkStream data None
  | Some s =>
      if bool_decide (s ∈ [".gz"; ".gzip"]) then gzip_decode c data
      else if bool_decide (s ∈ [".xz"; ".lzma"]) then lzma_decode c data
      else if bool_decide (s ∈ [".bz2"; ".bzip2"]) then bz2_decode c data
      else mkStream data None
  end.

(** A world with a directory [/images] and a device, and no image. *)
Definition world_without_image : World :=
  world_of (<["/images" := Directory]>
              (<["/dev/sdb" := BlockDev other_device]> ∅)) no_codecs.

(** A gzip decoder that delivers the ten bytes of the sample image. *)
Definition gzip_codecs : Codecs :=
  mkCodecs (fun _ => mkStream sample_image None)
           (fun data => mkStream data None) (fun data => mkStream data None)
           (fun _ => Raise (OtherException "File is not a zip file"))
           (fun _ _ => Raise (OtherException "File is not a zip file")).

(** A world with the compressed image [/a/disk.img.GZ] and a device of
    twelve bytes. *)
Definition gzip_world : World :=
  world_of (<["/a/disk.img.GZ" := Regular [b 31; b 139; b 8]]>
              (<["/dev/sdb" := BlockDev (replicate 12 (b 0))]> ∅))
           gzip_codecs.

(** The computation keeps the world within the relation [R]. *)
Definition through (R : World -> World -> Prop) {A} (m : IO A) : Prop :=
  forall w, R w (m w).2.

(** Every file, directory and device that exists in [w] is the same in
    [w']. *)
Definition keeps_files (w w' : World) : Prop :=
  forall q, is_Some (fs w !! q) -> fs w' !! q = fs w !! q.

(** The file systems of [w] and [w'] agree on every path outside
    [paths]. *)
Definition agree_off (paths : list string) (w w' : World) : Prop :=
  forall q, q ∉ paths -> fs w' !! q = fs w !! q.

(** The world of the archive [/a/image.ZIP] with a device of twelve
    bytes. *)
Definition zip_device_world : World :=
  world_of (<["/a/image.ZIP" := Regular [b 80; b 75]]>
              (<["/dev/sdb" := BlockDev (replicate 12 (b 0))]> ∅))
           zip_codecs.

(** A world in which the device [/dev/sdb] is found with its three
    mountpoints, and every command fails. *)
Definition mounted_world : World :=
  mkWorld (<["/img.bin" := Regular sample_image]>
             (<["/dev/sdb" := BlockDev other_device]> ∅))
          (fun _ _ => None) (fun _ => None) (fun _ => None) (fun _ => None)
          no_codecs "Linux" (inr [sample_device])
          (fun _ _ => Raise (CalledProcessError exit_status_1))
          (fun _ _ => false) []
          ["aaaa"; "bbbb"] [] [].

(** The command [cmd] completes when it is run after the commands [done]
    have been run in the world [w]. *)
Definition completes (w : World) (done : list (list string))
    (cmd : list string) : bool :=
  match proc_oracle w (proc_log w ++ done) cmd with
  | Return _ => true
  | Raise _ => false
  end.

(** The command [cmd], run after the commands [done], fails in one of the
    two ways that the code passes over: there is no such tool, or it exits
    with a status that is not zero. *)
Definition passed_over (w : World) (done : list (list string))
    (cmd : list string) : bool :=
  match proc_oracle w (proc_log w ++ done) cmd with
  | Return _ => false
  | Raise e => not_run e
  end.

(** Every command that may be run in the world completes or fails in one
    of these two ways: none raises anything else. *)
Definition all_handled (w : World) : Prop :=
  forall log cmd,
    match proc_oracle w log cmd with
    | Return _ => True
    | Raise e => not_run e = true
    end.

(** The run of the commands [cmds] ended with a command that raised [e],
    an exception that the code does not pass over. *)
Definition stopped_by (w : World) (cmds : list (list string)) (e : exn)
  : Prop :=
  exists done cmd,
    cmds = done ++ [cmd] /\
    proc_oracle w (proc_log w ++ done) cmd = Raise e /\
    not_run e = false.

(** The commands that unmount the target [t]. *)
Definition unmounts (t : string) (cmd : list string) : Prop :=
  cmd = ["umount"; t] \/ cmd = ["umount"; "-l"; t] \/
  exists src, cmd = ["udisksctl"; "unmount"; "-b"; src].

(** The commands that [_unmount_target] may try for a target, in their
    order, read from what the world will answer: the plain unmount, the
    unmount by [udisksctl] when [findmnt] names a source and the tool is
    installed, and the lazy unmount. *)
Definition unmount_candidates (w : World) (target : string)
  : list (list string) :=
  let lookup := ["findmnt"; "-no"; "SOURCE"; "--"; target] in
  [["umount"; target]]
    ++ match proc_oracle w (proc_log w) lookup with
       | Return output =>
           if (truthy (strip output)
               && which_oracle w (proc_log w ++ [lookup]) "udisksctl")%bool
           then [["udisksctl"; "unmount"; "-b"; strip output]]
           else []
       | Raise _ => []
       end
    ++ [["umount"; "-l"; target]].

(** A world in which [findmnt] names the source [/dev/sdb1], [udisksctl]
    is installed, the plain unmount fails and the unmount by [udisksctl]
    completes. *)
Definition udisks_world : World :=
  mkWorld ∅ (fun _ _ => None) (fun _ => None) (fun _ => None)
          (fun _ => None) no_codecs "Linux" (inr [])
          (fun _ cmd =>
             match cmd with
             | tool :: _ =>
                 if bool_decide (tool = "findmnt")
                 then Return ("/dev/sdb1"
                                +:+ String (Ascii.ascii_of_nat 10) "")
                 else if bool_decide (tool = "udisksctl") then Return ""
                 else Raise (CalledProcessError exit_status_1)
             | [] => Raise (OtherException "list index out of range")
             end)
          (fun _ _ => true) [] [] [] [].

Definition EACCES (p : string) : OSError :=
  mkOSError PermissionError "Permission denied"
    ("[Errno 13] Permission denied: '" +:+ p +:+ "'").

(** A world in which the device [/dev/sdb] is found with its three
    mountpoints, [findmnt] fails, and [umount] may not be executed:
    running it raises [PermissionError]. *)
Definition locked_world : World :=
  mkWorld (<["/img.bin" := Regular sample_image]>
             (<["/dev/sdb" := BlockDev other_device]> ∅))
          (fun _ _ => None) (fun _ => None) (fun _ => None) (fun _ => None)
          no_codecs "Linux" (inr [sample_device])
          (fun _ cmd =>
             match cmd with
             | tool :: _ =>
                 if bool_decide (tool = "umount")
                 then Raise (OSErr (EACCES "umount"))
                 else Raise (CalledProcessError exit_status_1)
             | [] => Raise (OtherException "list index out of range")
             end)
          (fun _ _ => false) [] ["aaaa"; "bbbb"] [] [].

(** ** devices.py: the enumeration *)

(** A world on macOS. *)
Definition darwin_world : World :=
  mkWorld (<["/img.bin" := Regular sample_image]> ∅)
          (fun _ _ => None) (fun _ => None) (fun _ => None) (fun _ => None)
          no_codecs "Darwin" (inr [sample_device])
          (fun _ _ => Raise (CalledProcessError exit_status_1))
          (fun _ _ => false) []
          ["aaaa"; "bbbb"] [] [].

(** A node of the tree that [lsblk --json] prints, as far as
    [_collect_mountpoints] reads it: the values of the keys [mountpoint],
    [mountpoints] and [children].  [None] is JSON [null] or a key that is
    missing; the strings and lists are as [lsblk] writes them. *)
#[local] Unset Elimination Schemes.
Inductive LsblkNode :=
| mkLsblkNode (node_mountpoint : option string)
              (node_mountpoints : option (list (option string)))
              (node_children : option (list LsblkNode)).
#[local] Set Elimination Schemes.

(** [x or []] *)
Definition or_nil {A} (x : option (list A)) : list A :=
  match x with
  | Some l => l
  | None => []
  end.

(** The items of the key [mountpoints] that are appended: [if item]. *)
Definition truthy_items (items : list (option string)) : list string :=
  omap (fun item =>
          match item with
          | Some m => if truthy m then Some m else None
          | None => None
          end) items.

Section Collect.
Context `{SetOrder}.

(** [_collect_mountpoints]: the result is a Python set, enumerated here in
    the order of the context. *)
Fixpoint _collect_mountpoints (node : LsblkNode) : list string :=
  match node with
  | mkLsblkNode mp list_mp children =>
      let own :=
        match mp with
        | Some m => if truthy m then [m] else []
        | None => []
        end in
      let listed := truthy_items (or_nil list_mp) in
      let below :=
        match children with
        | Some l =>
            (fix extend (l : list LsblkNode) : list string :=
               match l with
               | [] => []
               | child :: l' => _collect_mountpoints child ++ extend l'
               end) l
        | None => []
        end in
      set_iter (filter (fun m => truthy m = true) (own ++ listed ++ below))
  end.

End Collect.

(** The mountpoint [m] stands at the node or at a node below it. *)
Inductive mounted_at (m : string) : LsblkNode -> Prop :=
| mounted_here list_mp children :
    mounted_at m (mkLsblkNode (Some m) list_mp children)
| mounted_listed mp items children :
    Some m ∈ items ->
    mounted_at m (mkLsblkNode mp (Some items) children)
| mounted_below mp list_mp children child :
    child ∈ children -> mounted_at m child ->
    mounted_at m (mkLsblkNode mp list_mp (Some children)).

(** A disk with two partitions, one mounted twice. *)
Definition sample_node : LsblkNode :=
  mkLsblkNode None (Some [None]) (Some [
    mkLsblkNode (Some "/boot") (Some [Some "/boot"; Some "/mnt/boot"]) None;
    mkLsblkNode None None (Some [])]).

(** ** Sizes as text *)

(** [float(n)] for an int [n > 0], as the integer that the double stands
    for: [n] rounded to 53 significant bits, ties to even; [None] where
    Python raises [OverflowError]. *)
Definition float_of_int (n : Z) : option Z :=
  let bits := Z.log2 n + 1 in
  if bits <=? 53 then Some n
  else
    let shift := bits - 53 in
    let q := Z.shiftr n shift in
    let r := Z.land n (Z.ones shift) in
    let half := Z.shiftl 1 (shift - 1) in
    let q' := if ((half <? r) || ((r =? half) && Z.odd q))%bool
              then q + 1 else q in
    let m := Z.shiftl q' shift in
    if 2 ^ 1024 <=? m then None else Some m.

(** [f"{value:.1f}"] for the double [value = m / 1024 ^ k]: its decimal
    expansion rounded to one place, ties to even.  Dividing a double by
    [1024.0] is exact, so the value is this quotient. *)
Definition format_1f (m : Z) (k : nat) : string :=
  let den := 1024 ^ Z.of_nat k in
  let q := (10 * m) / den in
  let r := (10 * m) mod den in
  let tenths := if ((den <? 2 * r) || ((2 * r =? den) && Z.odd q))%bool
                then q + 1 else q in
  pretty (tenths / 10) +:+ "." +:+ pretty (tenths mod 10).

Definition units : list string := ["B"; "KiB"; "MiB"; "GiB"; "TiB"].

(** The loop [for unit in units] over the value [m / 1024 ^ k]: it leaves
    at the first unit for which the value is below 1024, and divides
    otherwise; [unit] is the loop variable. *)
Fixpoint scale (rest : list string) (m : Z) (k : nat) (unit : string)
  : nat * string :=
  match rest with
  | [] => (k, unit)
  | u :: rest' =>
      if m <? 1024 * 1024 ^ Z.of_nat k then (k, u)
      else scale rest' m (S k) u
  end.

(** The body that the three [_format_size] functions share, after their
    answer for a size that is not positive. *)
Definition format_positive (size_bytes : Z) : outcome string :=
  match float_of_int size_bytes with
  | None => Raise (OtherException "int too large to convert to float")
  | Some value =>
      let '(k, unit) := scale units value 0 "B" in
      Return (format_1f value k +:+ " " +:+ unit)
  end.

Module Devices.

(** [devices._format_size] *)
Definition _format_size (size_bytes : Z) : outcome string :=
  if size_bytes <=? 0 then Return "Unknown" else format_positive size_bytes.

End Devices.

Module Main.

(** [main._format_size] *)
Definition _format_size (value : Z) : outcome string :=
  if value <=? 0 then Return "0 B" else format_positive value.

End Main.

(** The text of a number with one decimal place, given in tenths. *)
Definition one_decimal (tenths : Z) : string :=
  pretty (tenths / 10) +:+ "." +:+ pretty (tenths mod 10).

(** * Proofs *)

(** ** The output channel *)

Lemma out_nil w : out w [] = w.
Proof. destruct w; unfold out; simpl. by rewrite app_nil_r. Qed.

Lemma out_out w a c : out (out w a) c = out w (a ++ c).
Proof. unfold out; simpl. by rewrite app_assoc. Qed.

Lemma emit_out e w : emit e w = (Return tt, out w [e]).
Proof. reflexivity. Qed.

Lemma call_progress_out cb current total w :
  exists evs, call_progress cb current total w = (Return tt, out w evs).
Proof.
  destruct cb as [f|]; simpl.
  - eexists. apply emit_out.
  - exists []. by rewrite out_nil.
Qed.

Lemma call_status_out cb message w :
  exists evs, call_status cb message w = (Return tt, out w evs).
Proof.
  destruct cb as [f|]; simpl.
  - eexists. apply emit_out.
  - exists []. by rewrite out_nil.
Qed.

(** ** Reading a stream *)

Lemma bind_ext {A B} (m : IO A) (k1 k2 : A -> IO B) w :
  (forall a w', m w = (Return a, w') -> k1 a w' = k2 a w') ->
  bind m k1 w = bind m k2 w.
Proof.
  intros Hk. unfold bind.
  destruct (m w) as [[a|e] w'] eqn:Hm; [by apply Hk|done].
Qed.

(** Reading changes nothing in the world. *)
Lemma stream_read_world n s w : (stream_read n s w).2 = w.
Proof.
  unfold stream_read.
  destruct (_ || _)%bool; [done|]. destruct (n <? -1); [done|].
  destruct (n =? 0); [done|]. destruct (alloc_fault w _); [done|].
  destruct (st_data s); [by destruct (st_fault s)|by destruct (n <? 0)].
Qed.

(** A read that delivers something shortens the stream by what it delivers
    and leaves its fault alone. *)
Lemma stream_read_chunk n s chunk s' w w' :
  stream_read n s w = (Return (chunk, s'), w') -> chunk <> [] ->
  st_data s = chunk ++ st_data s' /\ st_fault s' = st_fault s /\ w' = w.
Proof.
  unfold stream_read. intros Hr Hne.
  destruct (_ || _)%bool; [done|]. destruct (n <? -1); [done|].
  destruct (n =? 0); [by inversion Hr; subst|].
  destruct (alloc_fault w _); [done|].
  destruct (st_data s) as [|x d] eqn:Hd.
  - destruct (st_fault s); inversion Hr; by subst.
  - destruct (n <? 0); inversion Hr; subst; simpl.
    + by rewrite app_nil_r.
    + split; [|done]. symmetry. apply take_drop.
Qed.

(** The sizes for which a read goes to the stream. *)
Lemma stream_read_size n :
  0 < n < 2 ^ 63 ->
  ((n <? - 2 ^ 63) || (2 ^ 63 <=? n))%bool = false /\
  (n <? -1) = false /\ (n =? 0) = false /\ (n <? 0) = false.
Proof.
  intros Hn. assert (0 < 2 ^ 63) by lia.
  rewrite Bool.orb_false_iff. split_and!; lia.
Qed.

(** With a positive size and memory for it, a read of a stream that has
    bytes left delivers the next [n] of them. *)
Lemma stream_read_pos n d f w :
  0 < n < 2 ^ 63 -> alloc_fault w n = None -> d <> [] ->
  stream_read n (mkStream d f) w
  = (Return (take (Z.to_nat n) d, mkStream (drop (Z.to_nat n) d) f), w).
Proof.
  intros Hn Hm Hd. unfold stream_read.
  destruct (stream_read_size n Hn) as (-> & -> & -> & ->).
  rewrite Hm. by destruct d.
Qed.

Lemma stream_read_end n f w :
  0 < n < 2 ^ 63 -> alloc_fault w n = None ->
  stream_read n (mkStream [] f) w
  = (match f with
     | Some e => Raise e
     | None => Return ([], mkStream [] f)
     end, w).
Proof.
  intros Hn Hm. unfold stream_read.
  destruct (stream_read_size n Hn) as (-> & -> & -> & ->).
  rewrite Hm. by destruct f.
Qed.

(** A read with a positive size delivers nothing only at the end of a
    stream without a fault. *)
Lemma stream_read_nothing n s s' w w' :
  0 < n -> stream_read n s w = (Return ([], s'), w') ->
  st_data s = [] /\ st_fault s = None.
Proof.
  unfold stream_read. intros Hn.
  destruct (_ || _)%bool; [done|]. destruct (n <? -1); [done|].
  replace (n =? 0) with false by lia.
  destruct (alloc_fault w _); [done|].
  destruct (st_data s) as [|x d]; [by destruct (st_fault s)|].
  replace (n <? 0) with false by lia. intros [= Ht _ _].
  destruct (Z.to_nat n) eqn:Hk; [lia|done].
Qed.

(** A size from [2 ^ 63] on is refused before anything is read. *)
Lemma stream_read_overflow n s w :
  2 ^ 63 <= n ->
  stream_read n s w
  = (Raise (OtherException "cannot fit 'int' into an index-sized integer"),
     w).
Proof.
  intros Hn. unfold stream_read.
  replace (2 ^ 63 <=? n) with true by lia. by rewrite Bool.orb_true_r.
Qed.

(** What a read with a size that is not negative raises: the fault of the
    stream, or the [OverflowError] or [MemoryError] of the size. *)
Lemma stream_read_raise n s e w w' :
  0 <= n -> stream_read n s w = (Raise e, w') ->
  st_fault s = Some e \/ exists msg, e = OtherException msg.
Proof.
  intros Hn. unfold stream_read.
  destruct (_ || _)%bool; [intros [= <- _]; eauto|].
  replace (n <? -1) with false by lia.
  destruct (n =? 0); [done|].
  destruct (alloc_fault w _); [intros [= <- _]; eauto|].
  destruct (st_data s); [|by destruct (n <? 0)].
  destruct (st_fault s); [|done]. intros [= <- _]. by left.
Qed.

(** ** The write loop *)

Lemma dest_write_env dest chunk w :
  alloc_fault (dest_write dest chunk w).2 = alloc_fault w.
Proof.
  destruct dest as [buffer|p pos]; cbn [dest_write].
  - by destruct (alloc_fault w _).
  - destruct (fs w !! p) as [[|data|data]|]; try case_decide; done.
Qed.

(** The fuel given by [stream_image_to_device] is enough: more does not
    change the result. *)
Lemma write_loop_fuel fuel1 fuel2 cs sync cb total source dest n w :
  (length (st_data source) < fuel1)%nat ->
  (length (st_data source) < fuel2)%nat ->
  write_loop fuel1 cs sync cb total source dest n w
  = write_loop fuel2 cs sync cb total source dest n w.
Proof.
  revert fuel2 source dest n w.
  induction fuel1 as [|fuel1 IH]; intros fuel2 source dest n w H1 H2; [lia|].
  destruct fuel2 as [|fuel2]; [lia|]. cbn [write_loop].
  apply bind_ext. intros [chunk source'] w0 Hr.
  case_bool_decide as Hc; [done|].
  destruct (stream_read_chunk _ _ _ _ _ _ Hr Hc) as (Hd & _ & _).
  assert (length (st_data source') < length (st_data source))%nat as Hlt.
  { rewrite Hd, length_app. destruct chunk; [done|simpl; lia]. }
  apply bind_ext. intros dest' w1 _.
  apply bind_ext. intros [] w2 _.
  apply bind_ext. intros [] w3 _.
  apply IH; lia.
Qed.

(** In a dry run the loop only writes records to the output. *)
Lemma write_loop_dry_world fuel cs cb total source buffer n w :
  exists evs,
    (write_loop fuel cs false cb total source (BytesIO buffer) n w).2
    = out w evs.
Proof.
  revert source buffer n w.
  induction fuel as [|fuel IH]; intros source buffer n w.
  { exists []. by rewrite out_nil. }
  cbn [write_loop]. unfold bind at 1.
  pose proof (stream_read_world cs source w) as Hw.
  destruct (stream_read cs source w) as [[[chunk source']|e] w0];
    cbn [snd] in Hw; subst w0.
  2:{ exists []. by rewrite out_nil. }
  case_bool_decide; [exists []; by rewrite out_nil|].
  unfold bind at 1. cbn [dest_write].
  destruct (alloc_fault w _); [exists []; by rewrite out_nil|].
  unfold bind at 1, ret at 1. unfold bind at 1.
  destruct (call_progress_out cb (n + Z.of_nat (length chunk)) total w)
    as [evs1 ->].
  destruct (IH source' (buffer ++ chunk) (n + Z.of_nat (length chunk))
              (out w evs1)) as [evs2 Hl].
  exists (evs1 ++ evs2). by rewrite Hl, out_out.
Qed.

(** When the loop of a dry run returns, it has counted every byte of the
    stream, and the stream has ended without a fault. *)
Lemma write_loop_dry_returns fuel cs cb total s buffer n m w w' :
  0 < cs -> (length (st_data s) < fuel)%nat ->
  write_loop fuel cs false cb total s (BytesIO buffer) n w = (Return m, w') ->
  st_fault s = None /\ m = n + Z.of_nat (length (st_data s)).
Proof.
  intros Hcs. revert s buffer n w.
  induction fuel as [|fuel IH]; intros s buffer n w Hf; [lia|].
  cbn [write_loop]. unfold bind at 1.
  destruct (stream_read cs s w) as [[[chunk s']|e] w0] eqn:Hr; [|done].
  case_bool_decide as Hc.
  - subst chunk.
    destruct (stream_read_nothing _ _ _ _ _ Hcs Hr) as [Hd Hflt].
    intros [= <- _]. rewrite Hd. split; [done|]. simpl. lia.
  - destruct (stream_read_chunk _ _ _ _ _ _ Hr Hc) as (Hd & Hflt & ->).
    unfold bind at 1. cbn [dest_write].
    destruct (alloc_fault w _); [done|].
    unfold bind at 1, ret at 1. unfold bind at 1.
    destruct (call_progress_out cb (n + Z.of_nat (length chunk)) total w)
      as [evs ->].
    intros Hl. apply IH in Hl as [Hflt' ->].
    + split; [congruence|]. rewrite Hd, length_app. lia.
    + rewrite Hd, length_app in Hf. destruct chunk; [done|].
      simpl in *. lia.
Qed.

(** With a chunk size that a read accepts and memory for every buffer, the
    loop of a dry run counts every byte of the stream. *)
Lemma write_loop_dry fuel cs cb total d f buffer n w :
  0 < cs < 2 ^ 63 -> enough_memory w -> (length d < fuel)%nat ->
  exists evs,
    write_loop fuel cs false cb total (mkStream d f) (BytesIO buffer) n w
    = (match f with
       | None => Return (n + Z.of_nat (length d))
       | Some e => Raise e
       end, out w evs).
Proof.
  intros Hcs. revert d buffer n w.
  induction fuel as [|fuel IH]; intros d buffer n w Hm Hf; [lia|].
  destruct d as [|x d].
  - cbn [write_loop]. unfold bind at 1.
    rewrite stream_read_end by done.
    exists []. rewrite out_nil. destruct f; [done|].
    rewrite bool_decide_true by done. unfold ret. do 2 f_equal. simpl. lia.
  - cbn [write_loop]. unfold bind at 1.
    rewrite stream_read_pos by done.
    set (k := Z.to_nat cs). assert (0 < k)%nat as Hk by lia.
    rewrite bool_decide_false by (destruct k; [lia|done]).
    unfold bind at 1. cbn [dest_write]. rewrite Hm.
    unfold bind at 1, ret at 1. unfold bind at 1.
    destruct (call_progress_out cb (n + Z.of_nat (length (take k (x :: d))))
                total w) as [evs1 ->].
    destruct (IH (drop k (x :: d)) (buffer ++ take k (x :: d))
                (n + Z.of_nat (length (take k (x :: d)))) (out w evs1))
      as [evs2 ->].
    { exact Hm. }
    { rewrite length_drop. simpl in *. lia. }
    exists (evs1 ++ evs2). rewrite out_out. f_equal.
    destruct f; [done|]. f_equal.
    rewrite <- (take_drop k (x :: d)) at 3. rewrite length_app. lia.
Qed.

Lemma dest_write_raise dest chunk w e w' :
  dest_write dest chunk w = (Raise e, w') ->
  (exists o, e = OSErr o) \/ exists msg, e = OtherException msg.
Proof.
  destruct dest as [buffer|p pos]; cbn [dest_write].
  - destruct (alloc_fault w _); [|done]. intros [= <- _]. eauto.
  - destruct (fs w !! p) as [[|data|data]|]; try case_decide;
      inversion 1; eauto.
Qed.

Lemma dest_write_device p pos chunk w dest' w' :
  dest_write (DeviceFile p pos) chunk w = (Return dest', w') ->
  exists pos', dest' = DeviceFile p pos'.
Proof.
  simpl. destruct (fs w !! p) as [[|data|data]|]; try case_decide;
    inversion 1; eauto.
Qed.

(** A failing [os.fsync] does not stop the loop. *)
Lemma fsync_swallowed p pos w :
  try_except (dest_fsync (DeviceFile p pos)) pass_OSError w = (Return tt, w).
Proof.
  unfold try_except, dest_fsync, os_fsync.
  by destruct (fsync_fault w p).
Qed.

(** What the loop raises, in a dry run or on the device, when the chunk
    size is not negative: an [OSError] of a write, as it is, the fault of
    the stream, or an exception that is none of those which the code names
    (the [OverflowError] or [MemoryError] of a read). *)
Lemma write_loop_raise fuel cs sync cb total source dest n w e w' :
  0 <= cs ->
  write_loop fuel cs sync cb total source dest n w = (Raise e, w') ->
  (exists o, e = OSErr o) \/ st_fault source = Some e \/
  exists msg, e = OtherException msg.
Proof.
  intros Hcs. revert source dest n w.
  induction fuel as [|fuel IH]; intros source dest n w; cbn [write_loop];
    [done|].
  unfold bind at 1.
  destruct (stream_read cs source w) as [[[chunk source']|e0] w0] eqn:Hr.
  - case_bool_decide as Hc; [done|].
    destruct (stream_read_chunk _ _ _ _ _ _ Hr Hc) as (_ & Hf & ->).
    unfold bind at 1.
    destruct (dest_write dest chunk w) as [[dest'|e1] w1] eqn:Hw.
    + unfold bind at 1.
      assert (exists w2,
                (if sync then try_except (dest_fsync dest') pass_OSError
                 else ret tt) w1 = (Return tt, w2) \/
                exists msg,
                  (if sync then try_except (dest_fsync dest') pass_OSError
                   else ret tt) w1 = (Raise (OtherException msg), w2))
        as (w2 & [-> | (msg & ->)]).
      { destruct sync; [|by eexists; left].
        destruct dest' as [buffer|p pos].
        - eexists. right. by eexists.
        - rewrite fsync_swallowed. by eexists; left. }
      * unfold bind at 1.
        destruct (call_progress_out cb (n + Z.of_nat (length chunk)) total w2)
          as [evs ->].
        intros Hl. apply IH in Hl. by rewrite <- Hf.
      * intros [= <- _]. eauto.
    + intros [= <- _]. destruct (dest_write_raise _ _ _ _ _ Hw); eauto.
  - intros [= <- _].
    destruct (stream_read_raise _ _ _ _ _ Hcs Hr); eauto.
Qed.

(** ** The write operation *)

Lemma stream_image_to_device_guard image_source device_path chunk_size
    pcb scb dry_run w :
  chunk_size <= 0 ->
  stream_image_to_device image_source device_path chunk_size pcb scb dry_run w
  = (Raise (ValueError "chunk_size must be positive"), w).
Proof.
  intros Hc. unfold stream_image_to_device.
  by destruct (Z.leb_spec chunk_size 0); [|lia].
Qed.

(** The write operation up to the loop, in a dry run. *)
Lemma stream_image_to_device_dry_loop image_source device_path chunk_size
    pcb scb w s w1 :
  0 < chunk_size ->
  open_stream image_source (call_status scb "Starting write" w).2
  = (Return s, w1) ->
  stream_image_to_device image_source device_path chunk_size pcb scb true w
  = (let* bytes_written :=
       write_loop (S (length (st_data s))) chunk_size false pcb
         (image_size image_source) s (BytesIO []) 0 in
     do call_status scb "Write completed" then
     ret bytes_written) w1.
Proof.
  intros Hc Ho. unfold stream_image_to_device.
  destruct (Z.leb_spec chunk_size 0); [lia|].
  unfold bind at 1.
  destruct (call_status_out scb "Starting write" w) as [evs0 Hs].
  rewrite Hs in *. cbn [snd] in Ho.
  unfold bind at 1, try_except at 1. rewrite Ho.
  cbn [negb]. unfold bind at 1, ret at 1. reflexivity.
Qed.

Lemma stream_image_to_device_open_raise image_source device_path chunk_size
    pcb scb dry_run w e w1 :
  0 < chunk_size ->
  open_stream image_source (call_status scb "Starting write" w).2
  = (Raise e, w1) ->
  stream_image_to_device image_source device_path chunk_size pcb scb dry_run w
  = (Raise match is_OSError e with
           | Some exc => FlashError ("Unable to open image: " +:+ os_str exc)
           | None => e
           end, w1).
Proof.
  intros Hc Ho. unfold stream_image_to_device.
  destruct (Z.leb_spec chunk_size 0); [lia|].
  unfold bind at 1.
  destruct (call_status_out scb "Starting write" w) as [evs0 Hs].
  rewrite Hs in *. cbn [snd] in Ho.
  unfold bind at 1, try_except at 1. rewrite Ho.
  by destruct (is_OSError e).
Qed.

(** In a dry run the write operation adds only records to the output of
    the world in which the source was opened. *)
Lemma stream_image_to_device_dry_world image_source device_path chunk_size
    pcb scb w :
  0 < chunk_size ->
  let opened :=
    open_stream image_source (call_status scb "Starting write" w).2 in
  exists evs,
    (stream_image_to_device image_source device_path chunk_size pcb scb
       true w).2 = out opened.2 evs.
Proof.
  intros Hc opened. subst opened.
  destruct (open_stream image_source _) as [[s|e] w1] eqn:Ho; cbn [snd].
  - rewrite (stream_image_to_device_dry_loop _ _ _ _ _ _ _ _ Hc Ho).
    unfold bind at 1.
    destruct (write_loop_dry_world (S (length (st_data s))) chunk_size pcb
                (image_size image_source) s [] 0 w1) as [evs1 Hl].
    destruct (write_loop _ _ _ _ _ _ _ _ w1) as [[n|e] w2];
      cbn [snd] in Hl; subst w2; [|by exists evs1].
    unfold bind.
    destruct (call_status_out scb "Write completed" (out w1 evs1))
      as [evs2 ->].
    exists (evs1 ++ evs2). by rewrite out_out.
  - rewrite (stream_image_to_device_open_raise _ _ _ _ _ _ _ _ _ Hc Ho).
    exists []. by rewrite out_nil.
Qed.

(** The write operation in a dry run, once the source has been opened,
    with a chunk size that a read accepts and memory for every buffer. *)
Lemma stream_image_to_device_dry image_source device_path chunk_size
    pcb scb w :
  0 < chunk_size < 2 ^ 63 ->
  let opened :=
    open_stream image_source (call_status scb "Starting write" w).2 in
  enough_memory opened.2 ->
  exists evs,
    stream_image_to_device image_source device_path chunk_size pcb scb true w
    = (match opened.1 with
       | Return s =>
           match st_fault s with
           | None => Return (Z.of_nat (length (st_data s)))
           | Some e => Raise e
           end
       | Raise e =>
           match is_OSError e with
           | Some exc =>
               Raise (FlashError ("Unable to open image: " +:+ os_str exc))
           | None => Raise e
           end
       end,
       out opened.2 evs).
Proof.
  intros Hc opened Hm. subst opened.
  destruct (open_stream image_source _) as [[[d f]|e] w1] eqn:Ho;
    cbn [fst snd st_data st_fault] in *.
  - rewrite (stream_image_to_device_dry_loop _ _ _ _ _ _ _ _
               (proj1 Hc) Ho).
    unfold bind at 1. cbn [st_data].
    destruct (write_loop_dry (S (length d)) chunk_size pcb
                (image_size image_source) d f [] 0 w1) as [evs1 ->];
      [done|done|lia|].
    destruct f as [e|].
    + exists evs1. done.
    + unfold bind.
      destruct (call_status_out scb "Write completed" (out w1 evs1))
        as [evs2 ->].
      exists (evs1 ++ evs2). by rewrite out_out.
  - rewrite (stream_image_to_device_open_raise _ _ _ _ _ _ _ _ _
               (proj1 Hc) Ho).
    exists []. rewrite out_nil. by destruct (is_OSError e).
Qed.

(** A chunk size from [2 ^ 63] on: the first read refuses it, and the
    operation does not return. *)
Lemma stream_image_to_device_overflow image_source device_path chunk_size
    pcb scb dry_run w n :
  2 ^ 63 <= chunk_size ->
  (stream_image_to_device image_source device_path chunk_size pcb scb
     dry_run w).1 <> Return n.
Proof.
  intros Hc. assert (0 < 2 ^ 63) by lia.
  unfold stream_image_to_device.
  destruct (Z.leb_spec chunk_size 0); [lia|].
  unfold bind at 1.
  destruct (call_status_out scb "Starting write" w) as [evs0 ->].
  unfold bind at 1, try_except at 1.
  destruct (open_stream image_source _) as [[s|e] w1];
    [|by destruct (is_OSError e)].
  unfold bind at 1.
  match goal with
  | |- context [(if dry_run then ?a else ?c) w1] =>
      destruct ((if dry_run then a else c) w1) as [[dest|e] w2]; [|done]
  end.
  unfold bind at 1. cbn [write_loop]. unfold bind at 1.
  by rewrite stream_read_overflow.
Qed.

Lemma os_open_world p mode w : (os_open p mode w).2 = add_trace (SysOpen p mode) w.
Proof.
  unfold os_open, bind, syscall. simpl.
  destruct (open_fault w p mode); [done|].
  destruct (fs w !! p) as [[]|]; by destruct mode.
Qed.

Lemma os_open_rdwr_ok p w :
  (os_open p O_RDWR w).1 = Return tt ->
  os_fdopen p (add_trace (SysOpen p O_RDWR) w)
  = (Return tt, add_trace (SysOpen p O_RDWR) w).
Proof.
  unfold os_open, os_fdopen, bind, syscall. simpl.
  destruct (open_fault w p O_RDWR); [done|].
  by destruct (fs w !! p) as [[]|].
Qed.

(** The write operation on the device, up to the loop. *)
Lemma stream_image_to_device_real image_source device_path chunk_size
    pcb scb w s w1 :
  0 < chunk_size ->
  open_stream image_source (call_status scb "Starting write" w).2
  = (Return s, w1) ->
  stream_image_to_device image_source device_path chunk_size pcb scb false w
  = match (os_open device_path O_RDWR w1).1 with
    | Raise e =>
        (Raise match is_OSError e with
               | Some exc => FlashError (open_device_message device_path exc)
               | None => e
               end, add_trace (SysOpen device_path O_RDWR) w1)
    | Return _ =>
        (let* bytes_written :=
           write_loop (S (length (st_data s))) chunk_size true pcb
             (image_size image_source) s (DeviceFile device_path 0) 0 in
         do call_status scb "Write completed" then
         ret bytes_written) (add_trace (SysOpen device_path O_RDWR) w1)
    end.
Proof.
  intros Hc Ho. unfold stream_image_to_device.
  destruct (Z.leb_spec chunk_size 0); [lia|].
  unfold bind at 1.
  destruct (call_status_out scb "Starting write" w) as [evs0 Hs].
  rewrite Hs in *. cbn [snd] in Ho.
  unfold bind at 1, try_except at 1. rewrite Ho.
  cbn [negb]. unfold bind at 1. unfold bind at 1, try_except at 1.
  pose proof (os_open_world device_path O_RDWR w1) as Hw.
  pose proof (os_open_rdwr_ok device_path w1) as Hfd.
  destruct (os_open device_path O_RDWR w1) as [[[]|e] w2];
    cbn [fst snd] in *; subst w2.
  - unfold bind at 1. rewrite Hfd by done. reflexivity.
  - unfold open_device_handlers. by destruct (is_OSError e).
Qed.

(** ** Opening the stream of a prepared source *)

Lemma open_rb_world p w :
  (open_rb p w).2 = add_trace (SysOpen p O_RDONLY) w.
Proof.
  unfold open_rb, bind.
  pose proof (os_open_world p O_RDONLY w) as Hw.
  destruct (os_open p O_RDONLY w) as [[[]|e] w1]; cbn [snd] in *; subst w1;
    [|done].
  cbn [fs add_trace]. by destruct (fs w !! p) as [[]|].
Qed.

Lemma path_exists_world p w : (path_exists p w).2 = w.
Proof. unfold path_exists. by destruct (stat_fault w p). Qed.

Lemma path_is_file_world p w : (path_is_file p w).2 = w.
Proof. unfold path_is_file. by destruct (stat_fault w p). Qed.

Lemma stat_size_world p w : (stat_size p w).2 = w.
Proof.
  unfold stat_size. destruct (stat_fault w p); [done|].
  by destruct (fs w !! p) as [[]|].
Qed.

(** Opening the stream of a source made by [prepare_image_source] opens
    files for reading and, for a ZIP archive, extracts the entry; it makes
    no other system call. *)
Lemma open_stream_prepared_read_only src w :
  prepared src ->
  exists calls,
    trace (open_stream src w).2 = trace w ++ calls /\
    Forall read_only_call calls.
Proof.
  destruct 1; cbn [open_stream].
  - unfold make_stream_raw, bind.
    pose proof (open_rb_world p w) as Hw.
    destruct (open_rb p w) as [[data|e] w1]; cbn [snd] in *; subst w1;
      exists [SysOpen p O_RDONLY]; by repeat constructor.
  - unfold make_stream_codec, bind.
    pose proof (open_rb_world p w) as Hw.
    destruct (open_rb p w) as [[data|e] w1]; cbn [snd] in *; subst w1;
      exists [SysOpen p O_RDONLY]; by repeat constructor.
  - unfold make_stream_zip, ensure_extracted.
    unfold bind at 1 2.
    pose proof (path_exists_world target w) as Hpe.
    destruct (path_exists target w) as [[present|e] w0]; cbn [snd] in Hpe;
      subst w0.
    2:{ exists []. by rewrite app_nil_r. }
    destruct present.
    + unfold ret at 1. unfold bind.
      pose proof (open_rb_world target w) as Hw.
      destruct (open_rb target w) as [[data|e] w1]; cbn [snd] in *; subst w1;
        exists [SysOpen target O_RDONLY]; by repeat constructor.
    + unfold bind at 1.
      pose proof (open_rb_world p w) as Hw.
      destruct (open_rb p w) as [[data|e] w1]; cbn [snd] in *; subst w1.
      2:{ exists [SysOpen p O_RDONLY]. by repeat constructor. }
      unfold bind at 1. cbn [codecs add_trace].
      destruct (zip_open (codecs w) data entry) as [source|e].
      2:{ exists [SysOpen p O_RDONLY]. by repeat constructor. }
      unfold bind at 1, copy_to_file, bind at 1, syscall.
      destruct (st_fault source) as [e|].
      { exists [SysOpen p O_RDONLY; SysExtract p target].
        split; [|by repeat constructor].
        cbn. by rewrite <- app_assoc. }
      unfold ret at 1.
      set (w2 := set_fs _ _).
      pose proof (open_rb_world target w2) as Hw2.
      unfold bind.
      destruct (open_rb target w2) as [[data'|e] w3]; cbn [snd] in *; subst w3;
        exists [SysOpen p O_RDONLY; SysExtract p target;
                SysOpen target O_RDONLY];
        (split; [|by repeat constructor]);
        cbn; by rewrite <- !app_assoc.
Qed.

Lemma os_open_raise p mode w e :
  (os_open p mode w).1 = Raise e -> exists exc, e = OSErr exc.
Proof.
  unfold os_open, bind, syscall. simpl.
  destruct (open_fault w p mode); [inversion 1; eauto|].
  destruct (fs w !! p) as [[]|]; destruct mode; inversion 1; eauto.
Qed.

(** What the write operation on the device raises once the device is
    open. *)
Lemma stream_image_to_device_loop_raise image_source device_path chunk_size
    pcb scb w s w1 e :
  0 < chunk_size ->
  open_stream image_source (call_status scb "Starting write" w).2
  = (Return s, w1) ->
  (os_open device_path O_RDWR w1).1 = Return tt ->
  (stream_image_to_device image_source device_path chunk_size pcb scb
     false w).1 = Raise e ->
  (exists o, e = OSErr o) \/ st_fault s = Some e \/
  exists msg, e = OtherException msg.
Proof.
  intros Hc Ho Hd.
  rewrite (stream_image_to_device_real _ _ _ _ _ _ _ _ Hc Ho), Hd.
  unfold bind at 1.
  destruct (write_loop _ _ _ _ _ _ _ _ _) as [[n|e1] w2] eqn:Hl.
  - unfold bind.
    by destruct (call_status_out scb "Write completed" w2) as [evs ->].
  - cbn [fst]. inversion 1; subst.
    eapply write_loop_raise; [|exact Hl]. lia.
Qed.

(** The same in a dry run. *)
Lemma stream_image_to_device_dry_raise image_source device_path chunk_size
    pcb scb w s w1 e :
  0 < chunk_size ->
  open_stream image_source (call_status scb "Starting write" w).2
  = (Return s, w1) ->
  (stream_image_to_device image_source device_path chunk_size pcb scb
     true w).1 = Raise e ->
  (exists o, e = OSErr o) \/ st_fault s = Some e \/
  exists msg, e = OtherException msg.
Proof.
  intros Hc Ho.
  rewrite (stream_image_to_device_dry_loop _ _ _ _ _ _ _ _ Hc Ho).
  unfold bind at 1.
  destruct (write_loop _ _ _ _ _ _ _ _ _) as [[n|e1] w2] eqn:Hl.
  - unfold bind.
    by destruct (call_status_out scb "Write completed" w2) as [evs ->].
  - cbn [fst]. inversion 1; subst.
    eapply write_loop_raise; [|exact Hl]. lia.
Qed.

(** C1: in a dry run the write operation leaves the file system and the
    trace of system calls as the source's own [open_stream] left them: the
    write itself opens nothing, least of all the device, and changes no
    file.  For the sources that [prepare_image_source] makes, the system
    calls of the whole operation are then opens for reading and the
    extraction of a ZIP entry.  Whenever the operation returns, the source
    has opened, its stream has ended without a fault, and [bytes_written] is
    the length of the stream.  Where there is memory for the buffers, the
    operation returns exactly when the chunk size is positive and below
    [2 ^ 63] (a larger one is refused by the first read of the stream), the
    source opens and its stream ends without a fault. *)
Theorem dry_run_leaves_device_alone image_source device_path chunk_size
    pcb scb w :
  let opened :=
    open_stream image_source (call_status scb "Starting write" w).2 in
  let res :=
    stream_image_to_device image_source device_path chunk_size pcb scb
      true w in
  let base := if chunk_size <=? 0 then w else opened.2 in
  fs res.2 = fs base /\ trace res.2 = trace base /\
  (prepared image_source ->
   exists calls,
     trace res.2 = trace w ++ calls /\ Forall read_only_call calls) /\
  (forall n,
     res.1 = Return n ->
     exists s, opened.1 = Return s /\ st_fault s = None /\
               n = Z.of_nat (length (st_data s))) /\
  (enough_memory opened.2 ->
   forall n,
     res.1 = Return n <->
     0 < chunk_size < 2 ^ 63 /\
     exists s, opened.1 = Return s /\ st_fault s = None /\
               n = Z.of_nat (length (st_data s))).
Proof.
  intros opened res base. subst res base.
  destruct (Z.leb_spec chunk_size 0) as [Hc|Hc].
  - rewrite stream_image_to_device_guard by done.
    split_and!; [done..| | |].
    + intros _. exists []. by rewrite app_nil_r.
    + by intros n.
    + intros _ n; split; [done|lia].
  - destruct (stream_image_to_device_dry_world image_source device_path
                chunk_size pcb scb w Hc) as [evs Hw].
    fold opened in Hw. rewrite Hw. split_and!; [done..| | |].
    + intros Hsrc. cbn [snd trace out]. subst opened.
      destruct (call_status_out scb "Starting write" w) as [evs0 ->].
      cbn [snd].
      destruct (open_stream_prepared_read_only image_source (out w evs0) Hsrc)
        as (calls & Ht & Hcalls).
      exists calls. by rewrite Ht.
    + intros n. clear Hw. subst opened.
      destruct (open_stream image_source _) as [[s|e] w1] eqn:Ho;
        cbn [fst].
      * rewrite (stream_image_to_device_dry_loop _ _ _ _ _ _ _ _ Hc Ho).
        unfold bind at 1.
        destruct (write_loop _ _ _ _ _ _ _ _ w1) as [[m|e] w2] eqn:Hl;
          [|done].
        apply write_loop_dry_returns in Hl as [Hflt ->]; [|done|lia].
        unfold bind.
        destruct (call_status_out scb "Write completed" w2) as [evs' ->].
        intros [= <-]. exists s. split; [done|]. split; [done|lia].
      * by rewrite (stream_image_to_device_open_raise _ _ _ _ _ _ _ _ _
                      Hc Ho).
    + intros Hm n.
      destruct (Z.lt_ge_cases chunk_size (2 ^ 63)) as [Hlt|Hge].
      2:{ split; [|lia]. intros Hr.
          by apply stream_image_to_device_overflow in Hr. }
      destruct (stream_image_to_device_dry image_source device_path
                  chunk_size pcb scb w (conj Hc Hlt) Hm) as [evs' ->].
      fold opened. cbn [fst].
      destruct opened.1 as [s|e].
      * destruct (st_fault s) as [e|] eqn:Hf.
        -- split; [done|]. intros (_ & s' & [= <-] & ? & _). congruence.
        -- split.
           ++ intros [= <-]. split; [done|]. by exists s.
           ++ intros (_ & s' & [= <-] & _ & ->). done.
      * split; [by destruct (is_OSError e)|]. by intros (_ & s' & ? & _).
Qed.

Lemma dry_run_leaves_device_alone_witness :
  (stream_image_to_device sample_source "/dev/sdb" 4 None None true
     (sample_world [])).1 = Return 10.
Proof.
  destruct (dry_run_leaves_device_alone sample_source "/dev/sdb" 4 None None
              (sample_world [])) as (_ & _ & _ & _ & Hret).
  apply Hret.
  - intros n. reflexivity.
  - split; [vm_compute; split; reflexivity|].
    exists (mkStream sample_image None).
    split; [vm_compute; reflexivity|]. split; reflexivity.
Defined.

(** C10: with [chunk_size <= 0] the write operation raises [ValueError] and
    leaves the world as it was: no output, no system call, no file touched.
    With [chunk_size > 0] the guard does not raise: a [ValueError] can then
    only be one that the image source raised itself, when it was opened or
    while it was read. *)
Theorem nonpositive_chunk_size_rejected image_source device_path chunk_size
    pcb scb dry_run w :
  let opened :=
    open_stream image_source (call_status scb "Starting write" w).2 in
  let res :=
    stream_image_to_device image_source device_path chunk_size pcb scb
      dry_run w in
  (chunk_size <= 0 ->
   res = (Raise (ValueError "chunk_size must be positive"), w)) /\
  (0 < chunk_size ->
   forall m, res.1 = Raise (ValueError m) ->
     opened.1 = Raise (ValueError m) \/
     exists s, opened.1 = Return s /\ st_fault s = Some (ValueError m)).
Proof.
  intros opened res. subst res. split.
  - apply stream_image_to_device_guard.
  - intros Hc m. destruct opened as [[s|e] w1] eqn:Ho; cbn [fst].
    + intros Hr. right. exists s. split; [done|]. destruct dry_run.
      * by destruct (stream_image_to_device_dry_raise _ _ _ _ _ _ _ _ _
                       Hc Ho Hr) as [[o ?]|[?|[msg ?]]].
      * destruct (os_open device_path O_RDWR w1).1 as [[]|e] eqn:Hd.
        -- by destruct (stream_image_to_device_loop_raise _ _ _ _ _ _ _ _ _
                          Hc Ho Hd Hr) as [[o ?]|[?|[msg ?]]].
        -- rewrite (stream_image_to_device_real _ _ _ _ _ _ _ _ Hc Ho), Hd
             in Hr.
           by destruct (os_open_raise _ _ _ _ Hd) as [exc ->].
    + rewrite (stream_image_to_device_open_raise _ _ _ _ _ _ _ _ _ Hc Ho).
      cbn [fst]. destruct (is_OSError e); [done|]. intros [= ->]. by left.
Qed.

Lemma nonpositive_chunk_size_rejected_witness :
  stream_image_to_device sample_source "/dev/sdb" 0 None None false
    (sample_world [])
  = (Raise (ValueError "chunk_size must be positive"), sample_world []).
Proof.
  apply (nonpositive_chunk_size_rejected sample_source "/dev/sdb" 0 None None
           false (sample_world [])).
  lia.
Defined.

(** C3: the image has ten bytes, the device six.  The third write starts at
    the end of the device and fails with [ENOSPC]; the write operation
    raises that [OSError] itself, not a [FlashError]. *)
Theorem write_failure_is_not_FlashError :
  let res :=
    (stream_image_to_device sample_source "/dev/sdb" 4 None None false
       (sample_world (replicate 6 (b 0)))).1 in
  res = Raise (OSErr ENOSPC) /\ ~ exists msg, res = Raise (FlashError msg).
Proof.
  split; [vm_compute; reflexivity|].
  intros [msg Hm]. vm_compute in Hm. discriminate Hm.
Qed.

(** The failures to open, by contrast, are turned into [FlashError]s, each
    by a handler of its own: an [OSError] from opening the image, and
    missing permission, a missing device or any other [OSError] from
    [os.open] of the device. *)
Lemma open_failures_give_FlashError image_source device_path chunk_size
    pcb scb w :
  0 < chunk_size ->
  let opened :=
    open_stream image_source (call_status scb "Starting write" w).2 in
  let res dry_run :=
    (stream_image_to_device image_source device_path chunk_size pcb scb
       dry_run w).1 in
  (forall exc dry_run,
     opened.1 = Raise (OSErr exc) ->
     res dry_run
     = Raise (FlashError ("Unable to open image: " +:+ os_str exc))) /\
  (forall s exc,
     opened.1 = Return s ->
     (os_open device_path O_RDWR opened.2).1 = Raise (OSErr exc) ->
     res false
     = Raise (FlashError
                match os_class exc with
                | PermissionError =>
                    "Permission denied when opening " +:+ device_path
                      +:+ ". Try running as root."
                | FileNotFoundError => "Device not found: " +:+ device_path
                | OtherOSError =>
                    "Unable to open device " +:+ device_path +:+ ": "
                      +:+ strerror exc
                end)).
Proof.
  intros Hc opened res. subst res.
  destruct opened as [r w1] eqn:Ho. cbn [fst snd]. split.
  - intros exc dry_run ->.
    by rewrite (stream_image_to_device_open_raise _ _ _ _ _ _ _ _ _ Hc Ho).
  - intros s exc -> Hd.
    by rewrite (stream_image_to_device_real _ _ _ _ _ _ _ _ Hc Ho), Hd.
Qed.

(** [os.open] of a path that does not exist raises [FileNotFoundError],
    unless the system reports another error for it. *)
Lemma os_open_missing p mode w :
  open_fault w p mode = None -> fs w !! p = None ->
  (os_open p mode w).1 = Raise (OSErr (ENOENT p)).
Proof.
  intros Hf Hp. unfold os_open, bind, syscall. simpl.
  by rewrite Hf, Hp.
Qed.

(** [os.open] raises the error that the system reports. *)
Lemma os_open_fault p mode w exc :
  open_fault w p mode = Some exc ->
  (os_open p mode w).1 = Raise (OSErr exc).
Proof.
  intros Hf. unfold os_open, bind, syscall. simpl. by rewrite Hf.
Qed.

(** ** The verify loop *)

Lemma contents_add_trace c w p : contents (add_trace c w) p = contents w p.
Proof. reflexivity. Qed.

Lemma contents_out w evs p : contents (out w evs) p = contents w p.
Proof. reflexivity. Qed.

(** Up to [MAX_RW_COUNT] bytes, one call moves what is asked for. *)
Lemma rw_count_small n : Z.of_nat n <= MAX_RW_COUNT -> rw_count n = n.
Proof.
  intros Hn. unfold rw_count. rewrite Z.min_l by done. apply Nat2Z.id.
Qed.

Lemma rw_count_le n : (rw_count n <= n)%nat.
Proof. unfold rw_count. lia. Qed.

Lemma dev_read_world p pos n w :
  (dev_read p pos n w).2 = w \/
  (dev_read p pos n w).2 = add_trace (SysRead p pos n) w.
Proof.
  unfold dev_read. destruct (alloc_fault w _); [by left|].
  destruct (fs w !! p) as [[|data|data]|]; (by left) || by right.
Qed.

(** A read of the device that asks for no more than one call moves, with
    memory for the buffer, delivers the next [n] bytes, or fewer where the
    device ends. *)
Lemma dev_read_contents p pos n w dev :
  contents w p = Some dev ->
  alloc_fault w (Z.of_nat n) = None -> Z.of_nat n <= MAX_RW_COUNT ->
  dev_read p pos n w
  = (Return (take n (drop pos dev)), add_trace (SysRead p pos n) w).
Proof.
  unfold contents, dev_read. intros Hdev -> Hn.
  rewrite (rw_count_small n Hn).
  destruct (fs w !! p) as [[|data|data]|]; by simplify_eq.
Qed.

(** The fuel given by [verify_device_contents] is enough. *)
Lemma verify_loop_fuel fuel1 fuel2 cs p cb total source pos c w :
  (length (st_data source) < fuel1)%nat ->
  (length (st_data source) < fuel2)%nat ->
  verify_loop fuel1 cs p cb total source pos c w
  = verify_loop fuel2 cs p cb total source pos c w.
Proof.
  revert fuel2 source pos c w.
  induction fuel1 as [|fuel1 IH]; intros fuel2 source pos c w H1 H2; [lia|].
  destruct fuel2 as [|fuel2]; [lia|]. cbn [verify_loop].
  apply bind_ext. intros [chunk source'] w0 Hr.
  case_bool_decide as Hc; [done|].
  destruct (stream_read_chunk _ _ _ _ _ _ Hr Hc) as (Hd & _ & _).
  assert (length (st_data source') < length (st_data source))%nat as Hlt.
  { rewrite Hd, length_app. destruct chunk; [done|simpl; lia]. }
  apply bind_ext. intros device_chunk w1 _.
  case_bool_decide; [done|].
  apply bind_ext. intros [] w2 _.
  apply IH; lia.
Qed.

(** The loop stops at the first chunk that holds a differing byte, and
    reports the offset at which that chunk starts. *)
Lemma verify_loop_mismatch fuel cs p cb total rest f pos c dev j w :
  0 < cs <= MAX_RW_COUNT -> enough_memory w ->
  (length rest < fuel)%nat -> contents w p = Some dev ->
  (j < length rest)%nat ->
  take j (drop pos dev) = take j rest ->
  drop pos dev !! j <> rest !! j ->
  exists w',
    verify_loop fuel cs p cb total (mkStream rest f) pos c w
    = (Raise (VerificationError
                ("Verification failed at offset "
                   +:+ pretty (c + cs * (Z.of_nat j / cs)))), w').
Proof.
  intros Hcs. assert (0 < cs < 2 ^ 63) as Hcs' by (unfold MAX_RW_COUNT in *; lia).
  revert rest pos c j w.
  induction fuel as [|fuel IH];
    intros rest pos c j w Hm Hf Hdev Hj Hpre Hne; [lia|].
  cbn [verify_loop]. unfold bind at 1.
  rewrite stream_read_pos by (done || by destruct rest; simpl in *; try lia).
  set (k := Z.to_nat cs). assert (0 < k)%nat as Hk by lia.
  rewrite bool_decide_false
    by (destruct rest, k; simpl in *; done || lia).
  unfold bind at 1.
  assert (Z.of_nat (length (take k rest)) <= MAX_RW_COUNT) as Hsmall
    by (rewrite length_take; lia).
  rewrite (dev_read_contents _ _ _ _ _ Hdev (Hm _) Hsmall).
  destruct (decide (j < k)%nat) as [Hjk|Hjk].
  - rewrite bool_decide_true.
    + eexists. rewrite Z.div_small by lia.
      by rewrite Z.mul_0_r, Z.add_0_r.
    + intros Heq. apply Hne.
      assert (j < length (take k rest))%nat as Hjl
        by (rewrite length_take; lia).
      apply (f_equal (fun l => l !! j)) in Heq.
      rewrite !lookup_take_lt in Heq by lia. done.
  - assert (length (take k rest) = k) as Hlen by (rewrite length_take; lia).
    assert (take k (drop pos dev) = take k rest) as Heq.
    { apply (f_equal (take k)) in Hpre.
      by rewrite !take_take, Nat.min_l in Hpre by lia. }
    rewrite Hlen, Heq, ?Hlen, bool_decide_false by (intros ?; done).
    unfold bind at 1.
    destruct (call_progress_out cb (c + Z.of_nat k) total
                (add_trace (SysRead p pos k) w)) as [evs ->].
    destruct (IH (drop k rest) (pos + k)%nat (c + Z.of_nat k) (j - k)%nat
                (out (add_trace (SysRead p pos k) w) evs)) as [w' Hw'].
    + exact Hm.
    + rewrite length_drop. lia.
    + done.
    + rewrite length_drop. lia.
    + rewrite <- drop_drop.
      rewrite (take_drop_commute (drop pos dev)), (take_drop_commute rest).
      replace (k + (j - k))%nat with j by lia. by rewrite Hpre.
    + rewrite <- drop_drop, !lookup_drop. rewrite lookup_drop in Hne.
      by replace (k + (j - k))%nat with j by lia.
    + exists w'. rewrite Hw'.
      replace (Z.of_nat (j - k)) with (Z.of_nat j + (-1) * cs) by lia.
      rewrite Z.div_add by lia. replace (Z.of_nat k) with cs by lia.
      by replace (c + cs + cs * (Z.of_nat j / cs + -1))
        with (c + cs * (Z.of_nat j / cs)) by ring.
Qed.

Lemma take_length_take {A} k (l : list A) :
  take (length (take k l)) l = take k l.
Proof.
  rewrite length_take. destruct (decide (k <= length l)%nat).
  - by rewrite Nat.min_l.
  - rewrite Nat.min_r by lia. by rewrite firstn_all, take_ge by lia.
Qed.

(** When the device holds the rest of the image at [pos], the loop ends
    without raising, whatever follows on the device. *)
Lemma verify_loop_match fuel cs p cb total d pos c dev w :
  0 <= cs <= MAX_RW_COUNT -> enough_memory w ->
  (length d < fuel)%nat ->
  contents w p = Some dev ->
  take (length d) (drop pos dev) = d ->
  exists w',
    verify_loop fuel cs p cb total (mkStream d None) pos c w = (Return tt, w').
Proof.
  intros Hcs.
  destruct (decide (cs = 0)) as [->|Hnz].
  { intros _ Hf _ _. destruct fuel as [|fuel]; [lia|].
    cbn [verify_loop]. unfold bind at 1. cbn [stream_read].
    unfold stream_read. cbn. by eexists. }
  assert (0 < cs < 2 ^ 63) as Hcs' by (unfold MAX_RW_COUNT in *; lia).
  revert d pos c w.
  induction fuel as [|fuel IH]; intros d pos c w Hm Hf Hdev Hpre; [lia|].
  cbn [verify_loop]. unfold bind at 1.
  destruct d as [|x d].
  { rewrite stream_read_end by done.
    rewrite bool_decide_true by done. by eexists. }
  rewrite stream_read_pos by done.
  set (k := Z.to_nat cs). assert (0 < k)%nat as Hk by lia.
  set (chunk := take k (x :: d)).
  assert (chunk <> []) as Hc by (subst chunk; destruct k; [lia|done]).
  rewrite bool_decide_false by done.
  assert (length chunk <= k)%nat as Hlen
    by (subst chunk; rewrite length_take; lia).
  assert (take (length chunk) (drop pos dev) = chunk) as Heq.
  { apply (f_equal (take (length chunk))) in Hpre.
    rewrite take_take, Nat.min_l in Hpre
      by (subst chunk; rewrite length_take; lia).
    rewrite Hpre. subst chunk. apply take_length_take. }
  unfold bind at 1.
  rewrite (dev_read_contents _ _ _ _ _ Hdev (Hm _)) by lia.
  rewrite Heq. rewrite bool_decide_false by (intros ?; done).
  unfold bind at 1.
  destruct (call_progress_out cb (c + Z.of_nat (length chunk)) total
              (add_trace (SysRead p pos (length chunk)) w)) as [evs ->].
  apply IH.
  - exact Hm.
  - rewrite length_drop. simpl in *. lia.
  - done.
  - destruct (decide (k <= length (x :: d))%nat) as [Hle|Hgt].
    + assert (length chunk = k) as ->
        by (subst chunk; rewrite length_take; lia).
      rewrite length_drop, <- drop_drop, take_drop_commute.
      replace (k + (length (x :: d) - k))%nat with (length (x :: d)) by lia.
      by rewrite Hpre.
    + by rewrite (drop_ge (x :: d)) by lia.
Qed.

Lemma reads_below_nil p bound : reads_below p bound [].
Proof. by apply Forall_nil. Qed.

(** Whatever the chunk size and whatever the device holds, the loop
    changes no file and reads the device only: each read asks for the
    length of an image chunk at the offset that the chunks before it have
    reached, so that no read ends beyond the length of the image. *)
Lemma verify_loop_reads_below fuel cs p cb total source pos c w r w' :
  verify_loop fuel cs p cb total source pos c w = (r, w') ->
  exists reads,
    fs w' = fs w /\
    trace w' = trace w ++ reads /\
    reads_below p (pos + length (st_data source)) reads.
Proof.
  revert source pos c w.
  induction fuel as [|fuel IH]; intros source pos c w.
  { intros [= _ <-]. exists []. rewrite app_nil_r.
    split_and!; [done|done|apply reads_below_nil]. }
  cbn [verify_loop]. unfold bind at 1.
  pose proof (stream_read_world cs source w) as Hw.
  destruct (stream_read cs source w) as [[[chunk source']|e] w0] eqn:Hr;
    cbn [snd] in Hw; subst w0.
  2:{ intros [= _ <-]. exists []. rewrite app_nil_r.
      split_and!; [done|done|apply reads_below_nil]. }
  case_bool_decide as Hc.
  { intros [= _ <-]. exists []. rewrite app_nil_r.
    split_and!; [done|done|apply reads_below_nil]. }
  destruct (stream_read_chunk _ _ _ _ _ _ Hr Hc) as (Hd & _ & _).
  assert (reads_below p (pos + length (st_data source))
            [SysRead p pos (length chunk)]) as Hone.
  { constructor; [|by apply Forall_nil]. exists pos, (length chunk).
    split; [done|]. rewrite Hd, length_app. lia. }
  unfold bind at 1.
  destruct (dev_read p pos (length chunk) w) as [[device_chunk|e] w1] eqn:Hdr.
  2:{ intros [= _ <-].
      destruct (dev_read_world p pos (length chunk) w) as [Hw|Hw];
        rewrite Hdr in Hw; cbn [snd] in *; subst w1.
      - exists []. rewrite app_nil_r.
        split_and!; [done|done|apply reads_below_nil].
      - by exists [SysRead p pos (length chunk)]. }
  assert (w1 = add_trace (SysRead p pos (length chunk)) w) as ->.
  { revert Hdr. unfold dev_read. destruct (alloc_fault w _); [done|].
    destruct (fs w !! p) as [[|data|data]|]; by intros [= _ <-]. }
  case_bool_decide as Hne.
  { intros [= _ <-]. by exists [SysRead p pos (length chunk)]. }
  subst device_chunk.
  unfold bind at 1.
  destruct (call_progress_out cb (c + Z.of_nat (length chunk)) total
              (add_trace (SysRead p pos (length chunk)) w)) as [evs ->].
  intros Hl. apply IH in Hl as (reads & Hfs & Htr & Hrd).
  exists (SysRead p pos (length chunk) :: reads). split_and!.
  - by rewrite Hfs.
  - rewrite Htr. cbn [trace out add_trace]. by rewrite <- app_assoc.
  - constructor; [by inversion Hone|].
    eapply Forall_impl; [exact Hrd|]. cbn beta.
    intros call (off & cnt & -> & Hle). exists off, cnt.
    split; [done|]. rewrite Hd, length_app. lia.
Qed.

(** ** The verify operation *)

Lemma os_open_rdonly_ok p w dev :
  contents w p = Some dev -> open_fault w p O_RDONLY = None ->
  os_open p O_RDONLY w = (Return tt, add_trace (SysOpen p O_RDONLY) w).
Proof.
  unfold contents, os_open, bind, syscall. simpl. intros Hn ->.
  by destruct (fs w !! p) as [[]|].
Qed.

Lemma os_fdopen_ok p w dev :
  contents w p = Some dev -> os_fdopen p w = (Return tt, w).
Proof.
  unfold contents, os_fdopen.
  by destruct (fs w !! p) as [[]|].
Qed.

Lemma os_fdopen_world p w : (os_fdopen p w).2 = w.
Proof. unfold os_fdopen. by destruct (fs w !! p) as [[]|]. Qed.

(** The verify operation, up to the loop, when the image and the device
    open. *)
Lemma verify_device_contents_opened image_source device_path chunk_size
    pcb scb w s w1 dev :
  open_stream image_source (call_status scb "Starting verification" w).2
  = (Return s, w1) ->
  contents w1 device_path = Some dev ->
  open_fault w1 device_path O_RDONLY = None ->
  verify_device_contents image_source device_path chunk_size pcb scb w
  = (do verify_loop (S (length (st_data s))) chunk_size device_path pcb
          (image_size image_source) s 0%nat 0 then
     call_status scb "Verification completed")
      (add_trace (SysOpen device_path O_RDONLY) w1).
Proof.
  intros Ho Hdev Hflt. unfold verify_device_contents.
  unfold bind at 1.
  destruct (call_status_out scb "Starting verification" w) as [evs0 Hs].
  rewrite Hs in *. cbn [snd] in Ho.
  unfold bind at 1, try_except at 1. rewrite Ho.
  unfold bind at 1, try_except at 1.
  rewrite (os_open_rdonly_ok _ _ _ Hdev Hflt).
  unfold bind at 1. rewrite (os_fdopen_ok _ _ dev) by done.
  reflexivity.
Qed.

(** After the stream of the image has been opened, the verify operation
    changes no file, and its system calls are the opening of the device
    and reads of it that end at or before the length of the image. *)
Lemma verify_device_contents_reads_below image_source device_path chunk_size
    pcb scb w s w1 r w' :
  open_stream image_source (call_status scb "Starting verification" w).2
  = (Return s, w1) ->
  verify_device_contents image_source device_path chunk_size pcb scb w
  = (r, w') ->
  fs w' = fs w1 /\
  exists reads,
    trace w' = trace w1 ++ SysOpen device_path O_RDONLY :: reads /\
    reads_below device_path (length (st_data s)) reads.
Proof.
  intros Ho. unfold verify_device_contents.
  unfold bind at 1.
  destruct (call_status_out scb "Starting verification" w) as [evs0 Hs].
  rewrite Hs in *. cbn [snd] in Ho.
  unfold bind at 1, try_except at 1. rewrite Ho.
  unfold bind at 1, try_except at 1.
  pose proof (os_open_world device_path O_RDONLY w1) as Hw.
  destruct (os_open device_path O_RDONLY w1) as [[[]|e] w2];
    cbn [snd] in Hw; subst w2.
  2:{ unfold read_device_handlers. destruct (is_OSError e);
        intros [= _ <-]; (split; [done|]); exists [];
        (split; [done|apply reads_below_nil]). }
  unfold bind at 1.
  pose proof (os_fdopen_world device_path
                (add_trace (SysOpen device_path O_RDONLY) w1)) as Hw.
  destruct (os_fdopen device_path _) as [[[]|e] w2]; cbn [snd] in Hw;
    subst w2.
  2:{ intros [= _ <-]. split; [done|]. exists [].
      split; [done|apply reads_below_nil]. }
  unfold bind at 1.
  destruct (verify_loop _ _ _ _ _ _ _ _ _) as [[[]|e] w3] eqn:Hl;
    apply verify_loop_reads_below in Hl as (reads & Hfs & Htr & Hrd).
  - destruct (call_status_out scb "Verification completed" w3) as [evs ->].
    intros [= _ <-]. cbn [fs trace out]. split; [done|]. exists reads.
    split; [|done]. rewrite Htr. cbn [trace add_trace].
    by rewrite <- app_assoc.
  - intros [= _ <-]. split; [done|]. exists reads.
    split; [|done]. rewrite Htr. cbn [trace add_trace].
    by rewrite <- app_assoc.
Qed.

(** C2, as stated, fails: [verify_device_contents] does not refuse the
    chunk size 0.  The device differs from the image in its first byte, the
    first read of the image delivers nothing, and the operation returns
    without having compared anything. *)
Lemma verify_with_chunk_size_zero_finds_no_difference :
  let w := sample_world other_device in
  contents w "/dev/sdb" = Some other_device /\
  other_device !! 0%nat <> sample_image !! 0%nat /\
  (verify_device_contents sample_source "/dev/sdb" 0 None None w).1
  = Return tt.
Proof.
  split; [reflexivity|]. split; [vm_compute; intros [=]|].
  vm_compute. reflexivity.
Qed.

(** C2, amended: let the image stream deliver [img] and the device hold
    [dev], let the chunk size be at least 1 and at most [MAX_RW_COUNT],
    what one read of the device delivers, and let there be memory for the
    buffers.  When byte [k] is the first at which image and device differ
    (the device may also end there), verify raises [VerificationError]
    naming the offset at which the chunk that holds [k] starts:
    [chunk_size * (k / chunk_size)].  When the device holds exactly the
    bytes of the image, verify returns without raising, whether or not the
    last chunk is a full one. *)
Theorem verify_reports_chunk_of_first_difference image_source device_path
    chunk_size pcb scb w img f dev w1 :
  0 < chunk_size <= MAX_RW_COUNT ->
  open_stream image_source (call_status scb "Starting verification" w).2
  = (Return (mkStream img f), w1) ->
  enough_memory w1 ->
  contents w1 device_path = Some dev ->
  open_fault w1 device_path O_RDONLY = None ->
  let res :=
    (verify_device_contents image_source device_path chunk_size pcb scb w).1
  in
  (forall k : nat,
     (k < length img)%nat -> take k dev = take k img -> dev !! k <> img !! k ->
     res = Raise (VerificationError
                    ("Verification failed at offset "
                       +:+ pretty (chunk_size * (Z.of_nat k / chunk_size)))))
  /\ (dev = img -> f = None -> res = Return tt).
Proof.
  intros Hc Ho Hm Hdev Hflt res. subst res.
  rewrite (verify_device_contents_opened _ _ _ _ _ _ _ _ _ Ho Hdev Hflt).
  cbn [st_data]. split.
  - intros k Hk Hpre Hne. unfold bind at 1.
    destruct (verify_loop_mismatch (S (length img)) chunk_size device_path
                pcb (image_size image_source) img f 0 0 dev k
                (add_trace (SysOpen device_path O_RDONLY) w1))
      as [w' ->]; try done; lia.
  - intros -> ->. unfold bind at 1.
    destruct (verify_loop_match (S (length img)) chunk_size device_path pcb
                (image_size image_source) img 0 0 img
                (add_trace (SysOpen device_path O_RDONLY) w1))
      as (w' & ->); try done.
    + lia.
    + lia.
    + by rewrite drop_0, firstn_all.
    + by destruct (call_status_out scb "Verification completed" w')
        as [evs ->].
Qed.

Lemma verify_reports_chunk_of_first_difference_witness :
  (verify_device_contents sample_source "/dev/sdb" 4 None None
     (sample_world (take 6 sample_image ++ [b 0; b 0; b 9; b 10]))).1
  = Raise (VerificationError "Verification failed at offset 4").
Proof.
  assert (0 < 4 <= MAX_RW_COUNT) as Hc by (vm_compute; split; [done|discriminate]).
  pose (w := sample_world (take 6 sample_image ++ [b 0; b 0; b 9; b 10])).
  destruct (verify_reports_chunk_of_first_difference sample_source "/dev/sdb"
              4 None None w sample_image None
              (take 6 sample_image ++ [b 0; b 0; b 9; b 10])
              (add_trace (SysOpen "/img.bin" O_RDONLY) w) Hc)
    as [Hdiff _];
    [vm_compute; reflexivity|intros n; reflexivity|vm_compute; reflexivity..|].
  apply (Hdiff 6%nat); vm_compute; (lia || reflexivity || discriminate).
Defined.

(** C9, as stated, fails: the device holds exactly the image, and the
    chunk size is [2 ^ 63].  The first read of the image is refused with
    [OverflowError], and verify raises it without having read the
    device. *)
Lemma verify_with_huge_chunk_size_raises :
  let w := sample_world sample_image in
  let res :=
    verify_device_contents sample_source "/dev/sdb" (2 ^ 63) None None w in
  contents w "/dev/sdb" = Some sample_image /\
  res.1
  = Raise (OtherException "cannot fit 'int' into an index-sized integer") /\
  trace res.2
  = [SysOpen "/img.bin" O_RDONLY; SysOpen "/dev/sdb" O_RDONLY].
Proof. vm_compute. by split_and!. Qed.

(** C9, amended: once the stream of the image has been opened, verify
    changes no file, and it reads the device only as far as the image
    reaches: every read asks for the length of an image chunk, and none ends
    beyond offset [length img], whatever the chunk size is and whatever the
    device holds.  So when the first [length img] bytes of the device are
    the image, verify returns without raising, whatever the device holds
    after them; this for every chunk size up to [MAX_RW_COUNT], what one
    read of the device delivers, and with memory for the buffers. *)
Theorem verify_ignores_trailing_device_bytes image_source device_path
    chunk_size pcb scb w img f w1 :
  open_stream image_source (call_status scb "Starting verification" w).2
  = (Return (mkStream img f), w1) ->
  let res :=
    verify_device_contents image_source device_path chunk_size pcb scb w in
  fs res.2 = fs w1 /\
  (exists reads,
     trace res.2 = trace w1 ++ SysOpen device_path O_RDONLY :: reads /\
     reads_below device_path (length img) reads) /\
  (forall dev,
     0 <= chunk_size <= MAX_RW_COUNT -> enough_memory w1 -> f = None ->
     contents w1 device_path = Some dev ->
     open_fault w1 device_path O_RDONLY = None ->
     take (length img) dev = img ->
     res.1 = Return tt).
Proof.
  intros Ho res. subst res.
  destruct (verify_device_contents image_source device_path chunk_size pcb
              scb w) as [r w'] eqn:Hrun.
  destruct (verify_device_contents_reads_below _ _ _ _ _ _ _ _ _ _ Ho Hrun)
    as [Hfs Hreads].
  cbn [fst snd]. split; [exact Hfs|]. split; [exact Hreads|].
  intros dev Hc Hm -> Hdev Hflt Hpre. revert Hrun.
  rewrite (verify_device_contents_opened _ _ _ _ _ _ _ _ _ Ho Hdev Hflt).
  cbn [st_data]. unfold bind at 1.
  destruct (verify_loop_match (S (length img)) chunk_size device_path pcb
              (image_size image_source) img 0 0 dev
              (add_trace (SysOpen device_path O_RDONLY) w1))
    as (w2 & ->); try done.
  - lia.
  - destruct (call_status_out scb "Verification completed" w2)
      as [evs ->]. by intros [= <- _].
Qed.

Lemma verify_ignores_trailing_device_bytes_witness :
  (verify_device_contents sample_source "/dev/sdb" 4 None None
     (sample_world (sample_image ++ [b 77; b 78; b 79]))).1 = Return tt.
Proof.
  pose (w := sample_world (sample_image ++ [b 77; b 78; b 79])).
  destruct (verify_ignores_trailing_device_bytes sample_source "/dev/sdb"
              4 None None w sample_image None
              (add_trace (SysOpen "/img.bin" O_RDONLY) w))
    as (_ & _ & Hv); [vm_compute; reflexivity|].
  apply (Hv (sample_image ++ [b 77; b 78; b 79]));
    [vm_compute; split; discriminate|intros n; reflexivity|reflexivity
    |vm_compute; reflexivity..].
Defined.

(** ** Unmounting *)

Lemma ran_nil w : ran w [] = w.
Proof. destruct w; unfold ran; simpl. by rewrite app_nil_r. Qed.

Lemma ran_ran w a c : ran (ran w a) c = ran w (a ++ c).
Proof. unfold ran; simpl. by rewrite app_assoc. Qed.

Lemma subprocess_run_ran cmd w :
  subprocess_run cmd w = (proc_oracle w (proc_log w) cmd, ran w [cmd]).
Proof. reflexivity. Qed.

Lemma attempted_app a c : attempted (a ++ c) = attempted a ++ attempted c.
Proof. apply omap_app. Qed.

Lemma completes_ran w a c cmd :
  completes (ran w a) c cmd = completes w (a ++ c) cmd.
Proof.
  unfold completes. cbn [proc_oracle proc_log ran]. by rewrite app_assoc.
Qed.

Lemma stopped_by_ran w a c e :
  stopped_by (ran w a) c e -> stopped_by w (a ++ c) e.
Proof.
  intros (done & cmd & -> & Hr & He). exists (a ++ done), cmd.
  split; [by rewrite app_assoc|]. split; [|done].
  revert Hr. cbn [proc_oracle proc_log ran]. by rewrite app_assoc.
Qed.

(** Where every command is one that the code deals with, none stops a
    run. *)
Lemma all_handled_not_stopped w cmds e :
  all_handled w -> ~ stopped_by w cmds e.
Proof.
  intros Hall (done & cmd & _ & Hr & He).
  specialize (Hall (proc_log w ++ done) cmd). rewrite Hr in Hall. congruence.
Qed.

(** The loop over the candidates runs a beginning of them.  It gives up
    only when it has run them all, it succeeds with the command that it
    ran last, and it raises what the command that it ran last raised, when
    that is nothing that the code passes over. *)
Lemma try_candidates_ran candidates w :
  exists r cmds rest,
    try_candidates candidates w = (r, ran w cmds) /\
    candidates = cmds ++ rest /\
    (candidates <> [] -> cmds <> []) /\
    match r with
    | Return ok =>
        if ok
        then exists done cmd,
               cmds = done ++ [cmd] /\ completes w done cmd = true
        else rest = []
    | Raise e => stopped_by w cmds e
    end.
Proof.
  revert w. induction candidates as [|cmd rest IH]; intros w.
  - exists (Return false), [], []. by rewrite ran_nil.
  - cbn [try_candidates]. unfold try_except_else.
    rewrite subprocess_run_ran.
    destruct (proc_oracle w (proc_log w) cmd) as [output|e] eqn:Hr.
    + exists (Return true), [cmd], rest. split_and!; [done..|].
      exists [], cmd. split; [done|]. unfold completes.
      by rewrite app_nil_r, Hr.
    + assert (exists r cmds rest',
                try_candidates rest (ran w [cmd]) = (r, ran w cmds) /\
                cmd :: rest = cmds ++ rest' /\
                (cmd :: rest <> [] -> cmds <> []) /\
                match r with
                | Return ok =>
                    if ok
                    then exists done cmd',
                           cmds = done ++ [cmd'] /\
                           completes w done cmd' = true
                    else rest' = []
                | Raise e' => stopped_by w cmds e'
                end) as Hnext.
      { destruct (IH (ran w [cmd])) as (r & cmds & rest' & -> & -> & _ & Hres).
        exists r, (cmd :: cmds), rest'. rewrite ran_ran.
        split_and!; [done..|].
        destruct r as [[]|e'].
        - destruct Hres as (done & cmd' & -> & Hc).
          exists (cmd :: done), cmd'. split; [done|].
          by rewrite completes_ran in Hc.
        - done.
        - by apply stopped_by_ran in Hres. }
      destruct (is_FileNotFoundError e) eqn:Hnf; [exact Hnext|].
      destruct (is_CalledProcessError e) eqn:Hcp; [exact Hnext|].
      exists (Raise e), [cmd], rest. split_and!; [done..|].
      exists [], cmd. split; [done|]. rewrite app_nil_r.
      split; [done|]. unfold not_run. by rewrite Hnf, Hcp.
Qed.

Lemma _lookup_mount_source_ran target w :
  let lookup := ["findmnt"; "-no"; "SOURCE"; "--"; target] in
  exists r,
    _lookup_mount_source target w = (r, ran w [lookup]) /\
    match r with
    | Return _ => True
    | Raise e => stopped_by w [lookup] e
    end.
Proof.
  intros lookup. unfold _lookup_mount_source, try_except_else.
  rewrite subprocess_run_ran. fold lookup.
  destruct (proc_oracle w (proc_log w) lookup) as [output|e] eqn:Hr.
  - by eexists.
  - destruct (not_run e) eqn:He; [by eexists|].
    exists (Raise e). split; [done|]. exists [], lookup.
    by rewrite app_nil_r.
Qed.

(** One target: the mount source is looked up, the plain [umount] is run,
    and the fallbacks follow as long as nothing has succeeded.  The call
    reports failure only after the lazy unmount, the last fallback, has
    been run, and success only when a command that unmounts the target
    has completed; it raises what a command raised that the code does not
    pass over, having run nothing after that command. *)
Lemma _unmount_target_ran target w :
  let lookup := ["findmnt"; "-no"; "SOURCE"; "--"; target] in
  exists r cmds,
    _unmount_target target w = (r, ran w (lookup :: cmds)) /\
    attempted cmds `prefix_of` [target] /\
    match r with
    | Return ok =>
        attempted cmds = [target] /\
        if ok
        then exists done cmd,
               lookup :: cmds = done ++ [cmd] /\
               completes w done cmd = true /\ unmounts target cmd
        else ["umount"; "-l"; target] ∈ cmds
    | Raise e => stopped_by w (lookup :: cmds) e
    end.
Proof.
  intros lookup. unfold _unmount_target. unfold bind at 1.
  destruct (_lookup_mount_source_ran target w) as (r0 & -> & Hr0).
  fold lookup in Hr0 |- *.
  destruct r0 as [source|e].
  2:{ exists (Raise e), []. split; [done|]. split; [|done].
      apply prefix_nil. }
  set (w1 := ran w [lookup]).
  assert (exists extra,
    (let* candidates :=
       match source with
       | Some src =>
           let* found := shutil_which "udisksctl" in
           ret (if found
                then [["umount"; target]]
                       ++ [["udisksctl"; "unmount"; "-b"; src]]
                else [["umount"; target]])
       | None => ret [["umount"; target]]
       end in
     try_candidates (candidates ++ [["umount"; "-l"; target]])) w1
    = try_candidates (["umount"; target] :: extra
                        ++ [["umount"; "-l"; target]]) w1
    /\ attempted extra = []
    /\ Forall (unmounts target) extra) as (extra & -> & Hextra & Hun).
  { destruct source as [src|].
    - unfold bind, shutil_which, ret.
      destruct (which_oracle w1 (proc_log w1) "udisksctl").
      + exists [["udisksctl"; "unmount"; "-b"; src]].
        split_and!; [done..|].
        constructor; [|by apply Forall_nil]. right. right. by eexists.
      + exists []. split_and!; [done..|]. by apply Forall_nil.
    - exists []. split_and!; [done..|]. by apply Forall_nil. }
  assert (Forall (unmounts target)
            (["umount"; target] :: extra ++ [["umount"; "-l"; target]]))
    as Hall.
  { constructor; [by left|]. apply Forall_app. split; [done|].
    constructor; [|by apply Forall_nil]. right. by left. }
  destruct (try_candidates_ran
              (["umount"; target] :: extra ++ [["umount"; "-l"; target]]) w1)
    as (r & cmds & rest & -> & Hsplit & Hne & Hres).
  destruct cmds as [|c more]; [by destruct Hne|].
  pose proof Hsplit as Hcand.
  injection Hsplit as <- Hmore.
  assert (attempted more = []) as Hatt.
  { apply (f_equal attempted) in Hmore.
    rewrite !attempted_app, Hextra in Hmore. cbn in Hmore.
    symmetry in Hmore. by apply app_eq_nil in Hmore as [? _]. }
  exists r, (["umount"; target] :: more). subst w1. rewrite ran_ran.
  split; [done|].
  change (attempted (["umount"; target] :: more))
    with (target :: attempted more). rewrite Hatt.
  split; [done|].
  destruct r as [[]|e].
  - split; [done|]. destruct Hres as (done & cmd & Hd & Hc).
    exists (lookup :: done), cmd. split; [cbn; by rewrite Hd|].
    split; [by rewrite completes_ran in Hc|].
    rewrite Forall_forall in Hall. apply Hall. rewrite Hcand, Hd.
    apply elem_of_app. left. apply elem_of_app. right. by left.
  - split; [done|]. subst rest. rewrite app_nil_r in Hmore. subst more.
    apply elem_of_cons. right. apply elem_of_app. right. by left.
  - by apply (stopped_by_ran w [lookup]) in Hres.
Qed.

(** All targets: every target is attempted in its turn, the plain
    [umount] commands in the log are those of the targets, in order, and
    each target has its result; unless a command raises what the code
    does not pass over, which ends the run with that command. *)
Lemma attempt_all_ran targets w :
  exists r cmds,
    attempt_all targets w = (r, ran w cmds) /\
    attempted cmds `prefix_of` targets /\
    match r with
    | Return results =>
        map fst results = targets /\
        attempted cmds = targets /\
        (forall t, (t, false) ∈ results -> ["umount"; "-l"; t] ∈ cmds) /\
        (forall t, (t, true) ∈ results ->
           exists done cmd,
             (done ++ [cmd]) `prefix_of` cmds /\
             completes w done cmd = true /\ unmounts t cmd)
    | Raise e => stopped_by w cmds e
    end.
Proof.
  revert w. induction targets as [|target rest IH]; intros w.
  - exists (Return []), []. rewrite ran_nil. split; [done|]. split; [done|].
    split_and!; [done..| |]; by intros t ?%elem_of_nil.
  - cbn [attempt_all]. unfold bind at 1.
    destruct (_unmount_target_ran target w) as (r1 & mine & -> & Hpre & Hr1).
    set (lookup := ["findmnt"; "-no"; "SOURCE"; "--"; target]) in *.
    destruct r1 as [ok|e].
    2:{ exists (Raise e), (lookup :: mine). split; [done|]. split; [|done].
        change (attempted (lookup :: mine)) with (attempted mine).
        destruct Hpre as [k Hk]. exists (k ++ rest).
        by rewrite app_assoc, <- Hk. }
    destruct Hr1 as [Hatt Hok].
    unfold bind at 1.
    destruct (IH (ran w (lookup :: mine)))
      as (r & cmds & -> & Hpre' & Hr).
    exists (match r with
            | Return results => Return ((target, ok) :: results)
            | Raise e => Raise e
            end), ((lookup :: mine) ++ cmds).
    rewrite ran_ran. split; [by destruct r|].
    assert (attempted ((lookup :: mine) ++ cmds) = target :: attempted cmds)
      as Hatt'.
    { rewrite attempted_app.
      change (attempted (lookup :: mine)) with (attempted mine).
      by rewrite Hatt. }
    split.
    { rewrite Hatt'. destruct Hpre' as [k Hk]. exists k. by rewrite Hk. }
    destruct r as [results|e].
    + destruct Hr as (Hfst & Hatt2 & Hfail & Hsucc).
      split_and!.
      * by cbn; f_equal.
      * by rewrite Hatt', Hatt2.
      * intros t [[= -> <-]|Hin]%elem_of_cons; apply elem_of_app.
        -- left. by right.
        -- right. by apply Hfail.
      * intros t [[= -> <-]|Hin]%elem_of_cons.
        -- destruct Hok as (done & cmd & Hd & Hc & Hu).
           exists done, cmd. split; [|done].
           rewrite <- Hd. by apply prefix_app_r.
        -- destruct (Hsucc t Hin) as (done & cmd & Hp & Hc & Hu).
           exists ((lookup :: mine) ++ done), cmd. split_and!; [|  |done].
           ++ rewrite <- (assoc (++)). by apply prefix_app.
           ++ by rewrite completes_ran in Hc.
    + by apply stopped_by_ran in Hr.
Qed.

Lemma succeeded_cons t ok results :
  succeeded ((t, ok) :: results)
  = if ok then t :: succeeded results else succeeded results.
Proof. unfold succeeded. rewrite filter_cons. by destruct ok. Qed.

Lemma failed_cons t ok results :
  failed ((t, ok) :: results)
  = if ok then failed results else t :: failed results.
Proof. unfold failed. rewrite filter_cons. by destruct ok. Qed.

(** The loop of [unmount_device] is [attempt_all] with the results sorted
    into the two lists. *)
Lemma unmount_loop_attempt_all targets unmounted errors w :
  unmount_loop targets unmounted errors w
  = match attempt_all targets w with
    | (Return results, w') =>
        (Return (unmounted ++ succeeded results, errors ++ failed results), w')
    | (Raise e, w') => (Raise e, w')
    end.
Proof.
  revert unmounted errors w.
  induction targets as [|target rest IH]; intros unmounted errors w.
  - cbn. by rewrite !app_nil_r.
  - cbn [unmount_loop attempt_all]. unfold bind at 1 2.
    destruct (_unmount_target target w) as [[ok|e] w1]; [|done].
    unfold bind at 1.
    destruct ok; rewrite IH;
      destruct (attempt_all rest w1) as [[results|e] w2]; try done;
      cbn [ret]; rewrite succeeded_cons, failed_cons;
      by rewrite <- app_assoc.
Qed.

(** ** The order of the targets *)

Lemma insert_by_len_Permutation x l : insert_by_len x l ≡ₚ x :: l.
Proof.
  induction l as [|y l IH]; [done|]. cbn [insert_by_len].
  destruct (Nat.leb _ _); [done|]. rewrite IH. apply Permutation_swap.
Qed.

Lemma sorted_by_len_desc_Permutation l : sorted_by_len_desc l ≡ₚ l.
Proof.
  induction l as [|x l IH]; [done|]. cbn [sorted_by_len_desc].
  by rewrite insert_by_len_Permutation, IH.
Qed.

Lemma insert_by_len_sorted x l :
  StronglySorted longer_first l -> StronglySorted longer_first (insert_by_len x l).
Proof.
  induction 1 as [|y l Hl IH Hy]; cbn [insert_by_len].
  - by repeat constructor.
  - destruct (Nat.leb_spec (String.length y) (String.length x)) as [Hle|Hlt].
    + constructor; [by constructor|]. constructor; [done|].
      eapply Forall_impl; [exact Hy|]. unfold longer_first. intros; lia.
    + constructor; [done|].
      rewrite insert_by_len_Permutation. constructor; [|done].
      unfold longer_first. lia.
Qed.

Lemma sorted_by_len_desc_sorted l :
  StronglySorted longer_first (sorted_by_len_desc l).
Proof.
  induction l as [|x l IH]; [constructor|]. by apply insert_by_len_sorted.
Qed.

Lemma string_length_app (s t : string) :
  String.length (s +:+ t) = (String.length s + String.length t)%nat.
Proof. induction s as [|c s IH]; [done|]. simpl. by f_equal. Qed.

Lemma truthy_nonempty (s : string) : truthy s = true <-> s <> "".
Proof. by destruct s. Qed.

Section Unmount.
Context `{SetOrder}.

Lemma unmount_targets_elem device t :
  t ∈ unmount_targets device <-> t ∈ mountpoints device /\ t <> "".
Proof.
  unfold unmount_targets.
  rewrite sorted_by_len_desc_Permutation, set_iter_elem, list_elem_of_filter.
  rewrite truthy_nonempty. tauto.
Qed.

Lemma unmount_targets_NoDup device : NoDup (unmount_targets device).
Proof.
  unfold unmount_targets. rewrite sorted_by_len_desc_Permutation.
  apply set_iter_NoDup.
Qed.

(** [unmount_device] in terms of [attempt_all]. *)
Lemma unmount_device_attempt_all device w :
  unmount_device device w
  = match attempt_all (unmount_targets device) w with
    | (Return results, w') =>
        (match failed results with
         | [] => Return (succeeded results)
         | _ :: _ =>
             Raise (UnmountError
                      ("Failed to unmount: " +:+ join ", " (failed results))
                      (succeeded results))
         end, w')
    | (Raise e, w') => (Raise e, w')
    end.
Proof.
  unfold unmount_device.
  destruct (unmount_targets device) as [|t ts] eqn:Ht; [done|].
  unfold bind. rewrite unmount_loop_attempt_all.
  destruct (attempt_all (t :: ts) w) as [[results|e] w']; [|done].
  cbn [app]. by destruct (failed results).
Qed.

(** What [unmount_device] does to the world is to run commands, and the
    targets of its plain [umount] commands are a beginning of the list of
    the targets: all of them where every command is one that the code
    deals with. *)
Lemma unmount_device_ran device w :
  exists cmds,
    (unmount_device device w).2 = ran w cmds /\
    attempted cmds `prefix_of` unmount_targets device /\
    (all_handled w -> attempted cmds = unmount_targets device).
Proof.
  rewrite unmount_device_attempt_all.
  destruct (attempt_all_ran (unmount_targets device) w)
    as (r & cmds & -> & Hpre & Hr).
  exists cmds. destruct r as [results|e]; cbn [snd].
  - split; [by destruct (failed results)|]. split; [done|].
    intros _. by destruct Hr as (_ & ? & _).
  - split; [done|]. split; [done|].
    intros Hall. by destruct (all_handled_not_stopped w cmds e Hall).
Qed.

(** C5: the targets are the distinct non-empty mountpoints, sorted so that
    no target is longer than one before it.  The targets of the plain
    [umount] commands that [unmount_device] runs are a beginning of this
    list, in this order, and all of it where every command is one that the
    code deals with (another exception ends the operation at the command
    that raises it).  For the mountpoints [a], [a/b], [a/b/c], given in any
    order, the order is [a/b/c], [a/b], [a]. *)
Theorem unmount_longest_first device w :
  let targets := unmount_targets device in
  StronglySorted longer_first targets /\
  NoDup targets /\
  (forall t, t ∈ targets <-> t ∈ mountpoints device /\ t <> "") /\
  (exists cmds,
     (unmount_device device w).2 = ran w cmds /\
     attempted cmds `prefix_of` targets /\
     (all_handled w -> attempted cmds = targets)) /\
  (forall a b c : string,
     a <> "" ->
     mountpoints device
       ≡ₚ [a; a +:+ "/" +:+ b; a +:+ "/" +:+ b +:+ "/" +:+ c] ->
     targets = [a +:+ "/" +:+ b +:+ "/" +:+ c; a +:+ "/" +:+ b; a]).
Proof.
  intros targets. subst targets. split_and!.
  - apply sorted_by_len_desc_sorted.
  - apply unmount_targets_NoDup.
  - apply unmount_targets_elem.
  - apply unmount_device_ran.
  - intros a b c Ha Hmp.
    set (ab := a +:+ "/" +:+ b). set (abc := a +:+ "/" +:+ b +:+ "/" +:+ c).
    assert (String.length ab = String.length a + 1 + String.length b)%nat
      as Hab by (unfold ab; rewrite !string_length_app; cbn; lia).
    assert (String.length abc
            = String.length a + 1 + String.length b + 1 + String.length c)%nat
      as Habc by (unfold abc; rewrite !string_length_app; cbn; lia).
    assert (0 < String.length a)%nat as Hla by (destruct a; cbn; done || lia).
    assert (forall t, t ∈ unmount_targets device <-> t ∈ [abc; ab; a]) as Hel.
    { intros t. rewrite unmount_targets_elem, Hmp.
      rewrite !elem_of_cons, !elem_of_nil. fold ab abc. split.
      - intros [[->|[->|[->|[]]]] _]; tauto.
      - intros [->|[->|[->|[]]]]; (split; [tauto|]);
          intros Hs; apply (f_equal String.length) in Hs; cbn in Hs; lia. }
    apply (StronglySorted_unique_strong longer_first).
    + intros x1 x2 Hx1%Hel Hx2 H12 H21. unfold longer_first in *.
      rewrite !elem_of_cons, !elem_of_nil in Hx1, Hx2.
      destruct Hx1 as [->|[->|[->|[]]]], Hx2 as [->|[->|[->|[]]]];
        done || lia.
    + apply sorted_by_len_desc_sorted.
    + unfold longer_first. repeat constructor; lia.
    + apply NoDup_Permutation; [apply unmount_targets_NoDup| |done].
      repeat constructor; rewrite ?elem_of_cons, ?elem_of_nil;
        intros Hs; repeat destruct Hs as [Hs|Hs]; try done;
        apply (f_equal String.length) in Hs; lia.
Qed.

End Unmount.

Lemma all_handled_world_of files c : all_handled (world_of files c).
Proof. intros log cmd. reflexivity. Qed.

Lemma unmount_longest_first_witness :
  unmount_targets sample_device = ["/mnt/usb/boot"; "/mnt/usb"; "/mnt"] /\
  attempted (proc_log (unmount_device sample_device
                         (world_of ∅ no_codecs)).2)
  = ["/mnt/usb/boot"; "/mnt/usb"; "/mnt"].
Proof.
  destruct (unmount_longest_first sample_device (world_of ∅ no_codecs))
    as (_ & _ & _ & (cmds & Hw & _ & Hall) & Hex).
  assert (unmount_targets sample_device
          = ["/mnt/usb/boot"; "/mnt/usb"; "/mnt"]) as Ht.
  { apply (Hex "/mnt" "usb" "boot").
    - discriminate.
    - cbn. rewrite (Permutation_swap "/mnt"). apply perm_skip.
      apply Permutation_swap. }
  split; [exact Ht|]. rewrite Hw. cbn [proc_log ran app].
  rewrite <- Ht. apply Hall. apply all_handled_world_of.
Defined.

Lemma succeeded_all results :
  failed results = [] -> succeeded results = map fst results.
Proof.
  induction results as [|[t ok] results IH]; [done|].
  rewrite succeeded_cons, failed_cons. destruct ok; [|done].
  intros Hf. cbn. by rewrite IH.
Qed.

(** C4, as stated, fails: the device has three mountpoints, and [umount]
    may not be executed.  Running it for the first target raises
    [PermissionError], which [_unmount_target] does not catch: the
    operation ends with that exception, not with a list and not with an
    [UnmountError], and the other two targets have not been attempted. *)
Lemma unmount_stops_when_a_command_cannot_run :
  let res := unmount_device sample_device locked_world in
  unmount_targets sample_device = ["/mnt/usb/boot"; "/mnt/usb"; "/mnt"] /\
  res.1 = Raise (OSErr (EACCES "umount")) /\
  proc_log res.2
  = [["findmnt"; "-no"; "SOURCE"; "--"; "/mnt/usb/boot"];
     ["umount"; "/mnt/usb/boot"]] /\
  attempted (proc_log res.2) = ["/mnt/usb/boot"].
Proof. vm_compute. by split_and!. Qed.

(** C4, amended: [unmount_device] runs commands and nothing else, and the
    targets whose plain [umount] it has run are a beginning of the list of
    the targets.  When a command raises an exception that the code does
    not pass over (anything but [FileNotFoundError] and
    [CalledProcessError]), the operation ends with that exception at that
    command.  Otherwise, and so in every world where no command raises such
    an exception, it does what attempting every target does, one after the
    other and whatever the earlier results: each target has its plain
    [umount] run, a target counts as failed only after its lazy unmount,
    the last fallback, has been run, and as unmounted only when a command
    that unmounts it has completed.  Only then is the outcome decided: the
    list of the targets that were unmounted when none failed (then that is
    all of them), and otherwise an [UnmountError] that carries exactly the
    targets that were unmounted. *)
Theorem unmount_attempts_every_target `{SetOrder} device w :
  let targets := unmount_targets device in
  let res := unmount_device device w in
  exists cmds,
    res.2 = ran w cmds /\
    (attempt_all targets w).2 = ran w cmds /\
    attempted cmds `prefix_of` targets /\
    (forall e,
       (attempt_all targets w).1 = Raise e ->
       res.1 = Raise e /\ stopped_by w cmds e) /\
    (forall results,
       (attempt_all targets w).1 = Return results ->
       map fst results = targets /\
       attempted cmds = targets /\
       (forall t, (t, false) ∈ results -> ["umount"; "-l"; t] ∈ cmds) /\
       (forall t, (t, true) ∈ results ->
          exists done cmd,
            (done ++ [cmd]) `prefix_of` cmds /\
            completes w done cmd = true /\ unmounts t cmd) /\
       (failed results = [] -> succeeded results = targets) /\
       res.1
       = match failed results with
         | [] => Return (succeeded results)
         | _ :: _ =>
             Raise (UnmountError
                      ("Failed to unmount: " +:+ join ", " (failed results))
                      (succeeded results))
         end) /\
    (all_handled w ->
     exists results, (attempt_all targets w).1 = Return results).
Proof.
  intros targets res. subst res targets.
  rewrite unmount_device_attempt_all.
  destruct (attempt_all_ran (unmount_targets device) w)
    as (r & cmds & -> & Hpre & Hr).
  exists cmds. cbn [fst snd]. destruct r as [results|e].
  - split; [by destruct (failed results)|]. split; [done|]. split; [done|].
    split; [done|]. split.
    + intros results' [= <-].
      destruct Hr as (Hfst & Hatt & Hfail & Hsucc).
      split_and!; [done..| |by destruct (failed results)].
      intros Hf. by rewrite succeeded_all.
    + intros _. by exists results.
  - split; [done|]. split; [done|]. split; [done|]. split.
    + by intros e' [= <-].
    + split; [done|]. intros Hall.
      by destruct (all_handled_not_stopped w cmds e Hall).
Qed.

Lemma unmount_attempts_every_target_witness :
  (unmount_device sample_device (world_of ∅ no_codecs)).1
  = Raise (UnmountError "Failed to unmount: /mnt/usb/boot, /mnt/usb, /mnt" []).
Proof.
  destruct (unmount_attempts_every_target sample_device (world_of ∅ no_codecs))
    as (cmds & _ & _ & _ & _ & Hret & Hall).
  destruct (Hall (all_handled_world_of ∅ no_codecs)) as [results Hres].
  destruct (Hret results Hres) as (_ & _ & _ & _ & _ & ->).
  vm_compute in Hres. injection Hres as <-. reflexivity.
Defined.

(** ** Paths *)

Lemma split_on_no_slash x : no_slash x = true -> split_on "/" x = [x].
Proof.
  induction x as [|c x IH]; [done|]. cbn [no_slash split_on].
  destruct (decide (c = "/"%char)); [done|]. intros Hx. by rewrite IH.
Qed.

Lemma split_on_slash x t :
  no_slash x = true ->
  split_on "/" (x +:+ String "/" t) = x :: split_on "/" t.
Proof.
  induction x as [|c x IH]; [done|]. cbn [no_slash]. intros Hx.
  change (String c x +:+ String "/" t) with (String c (x +:+ String "/" t)).
  cbn [split_on]. destruct (decide (c = "/"%char)); [done|].
  by rewrite IH.
Qed.

Lemma split_on_no_slash_elem s : Forall (fun x => no_slash x = true) (split_on "/" s).
Proof.
  induction s as [|c s IH]; [by repeat constructor|]. cbn [split_on].
  destruct (decide (c = "/"%char)); [by constructor|].
  destruct (split_on "/" s) as [|h t]; [by repeat constructor; cbn; case_decide|].
  inversion IH; subst. constructor; [|done]. cbn. by case_decide.
Qed.

Lemma split_on_join l :
  Forall (fun x => no_slash x = true) l -> l <> [] ->
  split_on "/" (join "/" l) = l.
Proof.
  induction l as [|x l IH]; [done|]. intros Hall _.
  inversion Hall as [|? ? Hx Hl]; subst.
  destruct l as [|y l]; [by apply split_on_no_slash|].
  change (join "/" (x :: y :: l)) with (x +:+ String "/" (join "/" (y :: l))).
  rewrite split_on_slash by done. f_equal. by apply IH.
Qed.

Lemma filter_all {A} (P : A -> Prop) `{!forall x, Decision (P x)} l :
  Forall P l -> filter P l = l.
Proof.
  induction 1 as [|x l Hx Hl IH]; [done|].
  by rewrite filter_cons_True, IH.
Qed.

Lemma path_parts_ok p :
  Forall (fun c => c <> EmptyString /\ c <> ".") (path_parts p) /\
  Forall (fun x => no_slash x = true) (path_parts p).
Proof.
  unfold path_parts. split.
  - apply Forall_forall. by intros x [? _]%list_elem_of_filter.
  - apply Forall_forall. intros x [_ Hx]%list_elem_of_filter.
    pose proof (split_on_no_slash_elem p) as Hall.
    rewrite Forall_forall in Hall. by apply Hall.
Qed.

(** The normalised path has the components of the path. *)
Lemma path_parts_Path p : path_parts (Path p) = path_parts p.
Proof.
  destruct (path_parts_ok p) as [Hok Hns].
  assert (forall l,
            l = path_parts p ->
            filter (fun c => c <> EmptyString /\ c <> ".")
                   (split_on "/" (join "/" l))
            = l) as Hjoin.
  { intros l ->. destruct (path_parts p) as [|x l] eqn:Hp; [done|].
    rewrite split_on_join by done. by apply filter_all. }
  unfold Path, path_root.
  destruct (leading_slashes p) as [|[|[|n]]].
  - change (EmptyString +:+ join "/" (path_parts p))
      with (join "/" (path_parts p)).
    destruct (join "/" (path_parts p)) as [|c s] eqn:Hj.
    + destruct (path_parts p) as [|x l]; [done|].
      inversion Hok as [|? ? [Hx _] _]; subst.
      destruct l; cbn in Hj; [done|]. by destruct x.
    + rewrite <- Hj. unfold path_parts at 1. by apply Hjoin.
  - change ("/" +:+ join "/" (path_parts p))
      with (String "/" (join "/" (path_parts p))).
    unfold path_parts at 1. cbn [split_on]. rewrite decide_True by done.
    rewrite filter_cons_False by (intros [? _]; done). by apply Hjoin.
  - change ("//" +:+ join "/" (path_parts p))
      with (String "/" (String "/" (join "/" (path_parts p)))).
    unfold path_parts at 1. cbn [split_on]. rewrite !decide_True by done.
    rewrite !filter_cons_False by (intros [? _]; done). by apply Hjoin.
  - change ("/" +:+ join "/" (path_parts p))
      with (String "/" (join "/" (path_parts p))).
    unfold path_parts at 1. cbn [split_on]. rewrite decide_True by done.
    rewrite filter_cons_False by (intros [? _]; done). by apply Hjoin.
Qed.

Lemma path_name_Path p : path_name (Path p) = path_name p.
Proof. unfold path_name. by rewrite path_parts_Path. Qed.

Lemma last_suffix_Path p : last_suffix (Path p) = last_suffix p.
Proof. unfold last_suffix. by rewrite path_name_Path. Qed.

(** The checks at the start of [prepare_image_source], for a path at
    which a regular file is found. *)
Ltac prepare_checked Hstat Hreg :=
  unfold prepare_image_source;
  unfold bind at 1, path_exists at 1; rewrite Hstat, Hreg;
  rewrite bool_decide_true by done; cbn [negb];
  unfold bind at 1, path_is_file at 1; rewrite Hstat, Hreg; cbn [negb];
  unfold bind at 1, stat_size at 1; rewrite Hstat, Hreg;
  rewrite ?path_name_Path.

(** ** ZIP archives *)

Lemma prefix_app (s t : string) : String.prefix s (s +:+ t) = true.
Proof.
  induction s as [|c s IH]; [by destruct t|]. simpl.
  by destruct (ascii_dec c c).
Qed.

Lemma dir_empty_below f dir k :
  dir_empty f dir = true -> String.prefix (dir +:+ "/") k = true ->
  f !! k = None.
Proof.
  unfold dir_empty. rewrite forallb_forall. intros Hall Hpre.
  destruct (f !! k) as [node|] eqn:Hk; [|done].
  specialize (Hall (k, node)). cbn in Hall. rewrite Hpre in Hall.
  discriminate Hall. apply list_elem_of_In. by apply elem_of_map_to_list.
Qed.

Lemma fresh_name_fresh f prefix names p rest :
  fresh_name f prefix names = Some (p, rest) ->
  f !! p = None /\ dir_empty f p = true.
Proof.
  induction names as [|n names IH]; [done|]. cbn [fresh_name].
  set (q := "/tmp/" +:+ prefix +:+ n).
  destruct (f !! q) eqn:Hp; [exact IH|].
  destruct (dir_empty f q) eqn:He; [|exact IH]. by intros [= <- <-].
Qed.

(** A file directly below a new temporary directory does not exist, and is
    not the directory. *)
Lemma fresh_target f prefix names dir rest nm :
  fresh_name f prefix names = Some (dir, rest) -> nm <> "" ->
  f !! path_join dir nm = None /\ path_join dir nm <> dir.
Proof.
  intros [Hd He]%fresh_name_fresh Hnm.
  assert (path_join dir nm = dir +:+ "/" +:+ nm) as -> by by destruct nm.
  split.
  - eapply dir_empty_below; [done|].
    change (dir +:+ "/" +:+ nm) with (dir +:+ ("/" +:+ nm)).
    assert (dir +:+ "/" +:+ nm = (dir +:+ "/") +:+ nm) as ->.
    { clear. induction dir as [|c dir IH]; [done|].
      change (String c (dir +:+ "/" +:+ nm) = String c ((dir +:+ "/") +:+ nm)).
      by f_equal. }
    apply prefix_app.
  - intros Heq. apply (f_equal String.length) in Heq.
    rewrite !string_length_app in Heq. cbn in Heq. lia.
Qed.

Lemma open_rb_ok p w data :
  contents w p = Some data -> open_fault w p O_RDONLY = None ->
  open_rb p w = (Return data, add_trace (SysOpen p O_RDONLY) w).
Proof.
  intros Hc Hf. unfold open_rb, bind.
  rewrite (os_open_rdonly_ok _ _ _ Hc Hf).
  unfold contents in Hc. cbn [fs add_trace].
  by destruct (fs w !! p) as [[]|]; simplify_eq.
Qed.

(** Once the target exists, opening the stream does not extract. *)
Lemma make_stream_zip_reuses p target entry w :
  stat_fault w target = None -> is_Some (fs w !! target) ->
  make_stream_zip p target entry w
  = (let* data := open_rb target in ret (mkStream data None)) w.
Proof.
  intros Hst Hex. unfold make_stream_zip, ensure_extracted.
  unfold bind at 1 2. unfold path_exists. rewrite Hst.
  by rewrite bool_decide_true.
Qed.

Lemma extractions_snoc calls call :
  extractions (calls ++ [call])
  = (extractions calls + if is_extract call then 1 else 0)%nat.
Proof.
  unfold extractions. rewrite filter_app, length_app. f_equal.
  rewrite filter_cons, filter_nil.
  destruct (is_extract call); by case_decide.
Qed.

Lemma cleanups_snoc calls call :
  cleanups (calls ++ [call])
  = (cleanups calls + if is_cleanup call then 1 else 0)%nat.
Proof.
  unfold cleanups. rewrite filter_app, length_app. f_equal.
  rewrite filter_cons, filter_nil.
  destruct (is_cleanup call); by case_decide.
Qed.


Lemma open_rb_fault p w exc :
  open_fault w p O_RDONLY = Some exc ->
  open_rb p w = (Raise (OSErr exc), add_trace (SysOpen p O_RDONLY) w).
Proof.
  intros Hf. unfold open_rb, bind, os_open, bind, syscall. cbn.
  by rewrite Hf.
Qed.

(** [prepare_image_source] on a regular file whose last suffix is [.zip]:
    what [zipfile] raises when it cannot open or read the file leaves the
    function as it is. *)
Lemma prepare_image_source_zip image_path w data :
  let p := Path image_path in
  stat_fault w p = None ->
  fs w !! p = Some (Regular data) ->
  last_suffix image_path = Some ".zip" ->
  prepare_image_source image_path w
  = let w1 := add_trace (SysOpen p O_RDONLY) w in
    match open_fault w p O_RDONLY with
    | Some exc => (Raise (OSErr exc), w1)
    | None =>
        match zip_infolist (codecs w) data with
        | Raise e => (Raise e, w1)
        | Return infos =>
            let entries := filter (fun info => is_dir info = false) infos in
            if bool_decide (length entries <> 1%nat)
            then (Raise (FlashError
                           "ZIP archives must contain exactly one image file"),
                  w1)
            else
              match entries with
              | entry :: _ =>
                  match fresh_name (fs w) "shark_etcher_zip_" (tmp_names w)
                  with
                  | None => (Raise (OSErr EEXIST), w1)
                  | Some (temp_dir, rest) =>
                      let target_path :=
                        path_join temp_dir (path_name (filename entry)) in
                      (Return (mkImageSource
                                 (make_stream_zip p target_path entry)
                                 (Some (file_size entry))
                                 (path_name image_path +:+ " -> "
                                    +:+ filename entry)
                                 (run_cleanup
                                    [zip_cleanup target_path temp_dir])),
                       set_tmp_names rest
                         (set_fs (<[temp_dir := Directory]> (fs w)) w1))
                  end
              | [] => (Raise (OtherException "list index out of range"), w1)
              end
        end
    end.
Proof.
  intros p Hst Hreg Hsuf. subst p.
  assert (contents w (Path image_path) = Some data) as Hc
    by (unfold contents; by rewrite Hreg).
  prepare_checked Hst Hreg.
  fold (last_suffix image_path). rewrite Hsuf.
  change (bool_decide (".zip" ∈ [".gz"; ".gzip"])) with false.
  change (bool_decide (".zip" ∈ [".xz"; ".lzma"])) with false.
  change (bool_decide (".zip" ∈ [".bz2"; ".bzip2"])) with false.
  change (bool_decide (".zip" = ".zip")) with true. cbv iota.
  unfold bind at 1.
  destruct (open_fault w (Path image_path) O_RDONLY) as [exc|] eqn:Hflt.
  { by rewrite (open_rb_fault _ _ _ Hflt). }
  rewrite (open_rb_ok _ _ _ Hc Hflt).
  unfold bind at 1. cbn [codecs add_trace].
  destruct (zip_infolist (codecs w) data) as [infos|e]; [|done]. cbv zeta.
  case_bool_decide; [done|].
  destruct (filter _ infos) as [|entry entries]; [done|].
  unfold bind, mkdtemp. cbn [fs tmp_names add_trace].
  by destruct (fresh_name _ _ _) as [[temp_dir rest]|].
Qed.

(** The first open of the stream of a ZIP source extracts the entry and
    opens the extracted file. *)
Lemma make_stream_zip_first p target entry w data payload :
  contents w p = Some data -> open_fault w p O_RDONLY = None ->
  stat_fault w target = None ->
  fs w !! target = None -> open_fault w target O_RDONLY = None ->
  zip_open (codecs w) data entry = Return (mkStream payload None) ->
  exists w',
    make_stream_zip p target entry w = (Return (mkStream payload None), w') /\
    trace w'
    = trace w ++ [SysOpen p O_RDONLY; SysExtract p target;
                  SysOpen target O_RDONLY] /\
    fs w' = <[target := Regular payload]> (fs w) /\
    same_env w w' /\ stdout w' = stdout w /\ tmp_names w' = tmp_names w.
Proof.
  intros Hc Hflt Hst Hnone Hflt' Hzip.
  unfold make_stream_zip, ensure_extracted.
  unfold bind at 1 2. unfold path_exists at 1. rewrite Hst, Hnone.
  rewrite bool_decide_false by (by intros [? ?]).
  unfold bind at 1. rewrite (open_rb_ok _ _ _ Hc Hflt).
  unfold bind at 1. cbn [codecs add_trace]. rewrite Hzip.
  unfold bind at 1, copy_to_file, bind at 1, syscall. cbn [st_fault st_data].
  unfold ret at 1.
  set (w2 := set_fs _ _).
  assert (contents w2 target = Some payload) as Hc2.
  { unfold contents, w2. cbn [fs set_fs]. by rewrite lookup_insert_eq. }
  unfold bind at 1. rewrite (open_rb_ok _ _ _ Hc2 Hflt').
  eexists. split; [reflexivity|]. unfold w2. cbn.
  split_and!; [|done..]. by rewrite <- !app_assoc.
Qed.




(** ** Frames *)


Section Frames.
Context `{Frame}.

Lemma frame_refl w : frame_rel w w.
Proof. by apply frame_other. Qed.

Lemma keeps_ret {A} (a : A) : keeps (ret a).
Proof. intros w. apply frame_refl. Qed.

Lemma keeps_raise {A} e : keeps (@raise A e).
Proof. intros w. apply frame_refl. Qed.

Lemma keeps_bind {A B} (m : IO A) (k : A -> IO B) :
  keeps m -> (forall a, keeps (k a)) -> keeps (bind m k).
Proof.
  intros Hm Hk w. unfold bind. specialize (Hm w).
  destruct (m w) as [[a|e] w1]; [|done].
  eapply frame_trans; [exact Hm|apply Hk].
Qed.

Lemma keeps_try_except {A} (m : IO A) h :
  keeps m -> (forall e k, h e = Some k -> keeps k) -> keeps (try_except m h).
Proof.
  intros Hm Hh w. unfold try_except. specialize (Hm w).
  destruct (m w) as [[a|e] w1]; [done|].
  destruct (h e) as [k|] eqn:He; [|done].
  eapply frame_trans; [exact Hm|by eapply Hh].
Qed.

Lemma keeps_try_except_else {A B} (m : IO A) h (k : A -> IO B) :
  keeps m -> (forall e k', h e = Some k' -> keeps k') ->
  (forall a, keeps (k a)) -> keeps (try_except_else m h k).
Proof.
  intros Hm Hh Hk w. unfold try_except_else. specialize (Hm w).
  destruct (m w) as [[a|e] w1].
  - eapply frame_trans; [exact Hm|apply Hk].
  - destruct (h e) as [k'|] eqn:He; [|done].
    eapply frame_trans; [exact Hm|by eapply Hh].
Qed.

Lemma keeps_try_finally {A} (m : IO A) f :
  keeps m -> keeps f -> keeps (try_finally m f).
Proof.
  intros Hm Hf w. unfold try_finally. specialize (Hm w).
  destruct (m w) as [r w1]. specialize (Hf w1).
  destruct (f w1) as [[[]|e] w2]; by eapply frame_trans.
Qed.

(** A computation that leaves the output and the trace alone. *)
Lemma keeps_quiet {A} (m : IO A) :
  (forall w, stdout (m w).2 = stdout w /\ trace (m w).2 = trace w) ->
  keeps m.
Proof. intros Hq w. by apply frame_other; apply Hq. Qed.

Lemma keeps_syscall call : is_cleanup call = false -> keeps (syscall call).
Proof. intros Hc w. by apply frame_call. Qed.

Lemma keeps_emit e : ok_event e -> keeps (emit e).
Proof. intros He w. by apply frame_event. Qed.

Lemma keeps_call_progress cb current total :
  progress_ok cb -> keeps (call_progress cb current total).
Proof.
  intros Hcb. destruct cb as [f|]; [|apply keeps_ret].
  apply keeps_emit. by eapply Hcb.
Qed.

Lemma keeps_call_status cb message :
  status_ok cb -> keeps (call_status cb message).
Proof.
  intros Hcb. destruct cb as [f|]; [|apply keeps_ret].
  apply keeps_emit. by eapply Hcb.
Qed.

Lemma keeps_os_open p mode : keeps (os_open p mode).
Proof.
  intros w. rewrite os_open_world. by apply frame_call.
Qed.

Lemma keeps_os_fdopen p : keeps (os_fdopen p).
Proof.
  apply keeps_quiet. intros w. unfold os_fdopen.
  by destruct (fs w !! p) as [[]|].
Qed.

Lemma keeps_os_fsync p : keeps (os_fsync p).
Proof.
  apply keeps_quiet. intros w. unfold os_fsync.
  by destruct (fsync_fault w p).
Qed.

Lemma keeps_stream_read n s : keeps (stream_read n s).
Proof. apply keeps_quiet. intros w. by rewrite stream_read_world. Qed.

Lemma keeps_dest_write dest chunk : keeps (dest_write dest chunk).
Proof.
  intros w. destruct dest as [buffer|p pos]; cbn [dest_write].
  { destruct (alloc_fault w _); apply frame_refl. }
  destruct (fs w !! p) as [[|data|data]|]; try apply frame_refl.
  - eapply frame_trans; [|by apply frame_call].
    by apply frame_other.
  - case_decide; [apply frame_refl|].
    eapply frame_trans; [|by apply frame_call].
    by apply frame_other.
Qed.

Lemma keeps_dev_read p pos n : keeps (dev_read p pos n).
Proof.
  intros w. unfold dev_read.
  destruct (alloc_fault w _); [apply frame_refl|].
  destruct (fs w !! p) as [[|data|data]|];
    (apply frame_refl || by apply frame_call).
Qed.

Lemma keeps_dest_fsync dest :
  keeps (try_except (dest_fsync dest) pass_OSError).
Proof.
  apply keeps_try_except.
  - destruct dest; [apply keeps_raise|apply keeps_os_fsync].
  - intros e k. unfold pass_OSError.
    destruct (is_OSError e); [|done]. intros [= <-]. apply keeps_ret.
Qed.

Lemma keeps_write_loop fuel cs sync cb total source dest n :
  progress_ok cb ->
  keeps (write_loop fuel cs sync cb total source dest n).
Proof.
  intros Hcb. revert source dest n.
  induction fuel as [|fuel IH]; intros source dest n; cbn [write_loop].
  { apply keeps_ret. }
  apply keeps_bind; [apply keeps_stream_read|]. intros [chunk source'].
  case_bool_decide; [apply keeps_ret|].
  apply keeps_bind; [apply keeps_dest_write|]. intros dest'.
  apply keeps_bind.
  { destruct sync; [apply keeps_dest_fsync|apply keeps_ret]. }
  intros _. apply keeps_bind; [by apply keeps_call_progress|].
  intros _. apply IH.
Qed.

Lemma keeps_verify_loop fuel cs p cb total source pos c :
  progress_ok cb ->
  keeps (verify_loop fuel cs p cb total source pos c).
Proof.
  intros Hcb. revert source pos c.
  induction fuel as [|fuel IH]; intros source pos c; cbn [verify_loop].
  { apply keeps_ret. }
  apply keeps_bind; [apply keeps_stream_read|]. intros [chunk source'].
  case_bool_decide; [apply keeps_ret|].
  apply keeps_bind; [apply keeps_dev_read|]. intros device_chunk.
  case_bool_decide; [apply keeps_raise|].
  apply keeps_bind; [by apply keeps_call_progress|].
  intros _. apply IH.
Qed.

Lemma keeps_open_handlers {A} (wrap : OSError -> exn) e (k : IO A) :
  match is_OSError e with
  | Some exc => Some (raise (wrap exc))
  | None => None
  end = Some k -> keeps k.
Proof.
  destruct (is_OSError e); [|done]. intros [= <-]. apply keeps_raise.
Qed.

Lemma keeps_stream_image_to_device image_source device_path chunk_size
    pcb scb dry_run :
  keeps (open_stream image_source) -> progress_ok pcb -> status_ok scb ->
  keeps (stream_image_to_device image_source device_path chunk_size pcb scb
           dry_run).
Proof.
  intros Ho Hp Hs. unfold stream_image_to_device.
  destruct (chunk_size <=? 0); [apply keeps_raise|].
  apply keeps_bind; [by apply keeps_call_status|]. intros _.
  apply keeps_bind.
  { apply keeps_try_except; [done|]. intros e k.
    apply (keeps_open_handlers
             (fun exc => FlashError ("Unable to open image: " +:+ os_str exc))). }
  intros source. apply keeps_bind.
  { destruct dry_run; [apply keeps_ret|].
    apply keeps_bind.
    - apply keeps_try_except; [apply keeps_os_open|]. intros e k.
      apply (keeps_open_handlers
               (fun exc => FlashError (open_device_message device_path exc))).
    - intros _. apply keeps_bind; [apply keeps_os_fdopen|].
      intros _. apply keeps_ret. }
  intros destination. apply keeps_bind; [by apply keeps_write_loop|].
  intros n. apply keeps_bind; [by apply keeps_call_status|].
  intros _. apply keeps_ret.
Qed.

Lemma keeps_verify_device_contents image_source device_path chunk_size
    pcb scb :
  keeps (open_stream image_source) -> progress_ok pcb -> status_ok scb ->
  keeps (verify_device_contents image_source device_path chunk_size pcb scb).
Proof.
  intros Ho Hp Hs. unfold verify_device_contents.
  apply keeps_bind; [by apply keeps_call_status|]. intros _.
  apply keeps_bind.
  { apply keeps_try_except; [done|]. intros e k.
    apply (keeps_open_handlers
             (fun exc => VerificationError
                           ("Unable to reopen image: " +:+ os_str exc))). }
  intros source. apply keeps_bind.
  { apply keeps_try_except; [apply keeps_os_open|]. intros e k.
    apply (keeps_open_handlers
             (fun exc => VerificationError
                           (read_device_message device_path exc))). }
  intros _. apply keeps_bind; [apply keeps_os_fdopen|].
  intros _. apply keeps_bind; [by apply keeps_verify_loop|].
  intros _. by apply keeps_call_status.
Qed.

Lemma progress_ok_or_else cb1 cb2 :
  progress_ok cb1 -> progress_ok cb2 -> progress_ok (or_else cb1 cb2).
Proof. intros H1 H2. by destruct cb1. Qed.

Lemma keeps_write_then_verify image_source device_path verify chunk_size
    pcb vcb scb dry_run :
  keeps (open_stream image_source) ->
  progress_ok pcb -> progress_ok vcb -> status_ok scb ->
  keeps (write_then_verify image_source device_path verify chunk_size
           pcb vcb scb dry_run).
Proof.
  intros Ho Hp Hv Hs. unfold write_then_verify.
  apply keeps_bind; [by apply keeps_stream_image_to_device|]. intros n.
  apply keeps_bind; [|intros _; apply keeps_ret].
  destruct (verify && negb dry_run)%bool; [|apply keeps_ret].
  apply keeps_verify_device_contents; [done| |done].
  by apply progress_ok_or_else.
Qed.

End Frames.

Section SourceFrames.
Context `{Frame}.

Lemma keeps_path_exists p : keeps (path_exists p).
Proof. apply keeps_quiet. intros w. by rewrite path_exists_world. Qed.

Lemma keeps_path_is_file p : keeps (path_is_file p).
Proof. apply keeps_quiet. intros w. by rewrite path_is_file_world. Qed.

Lemma keeps_stat_size p : keeps (stat_size p).
Proof. apply keeps_quiet. intros w. by rewrite stat_size_world. Qed.

Lemma keeps_open_rb p : keeps (open_rb p).
Proof.
  apply keeps_bind; [apply keeps_os_open|]. intros _.
  apply keeps_quiet. intros w. by destruct (fs w !! p) as [[]|].
Qed.

Lemma keeps_codec {A} (f : World -> outcome A) :
  keeps (fun w => (f w, w)).
Proof. by apply keeps_quiet. Qed.

Lemma keeps_copy_to_file archive target source :
  keeps (copy_to_file archive target source).
Proof.
  apply keeps_bind; [by apply keeps_syscall|]. intros _.
  apply keeps_quiet. intros w. by destruct (st_fault source).
Qed.

Lemma keeps_mkdtemp prefix : keeps (mkdtemp prefix).
Proof.
  apply keeps_quiet. intros w. unfold mkdtemp.
  by destruct (fresh_name _ _ _) as [[p rest]|].
Qed.

Lemma keeps_make_stream_raw p : keeps (make_stream_raw p).
Proof.
  apply keeps_bind; [apply keeps_open_rb|]. intros data. apply keeps_ret.
Qed.

Lemma keeps_make_stream_codec decode p : keeps (make_stream_codec decode p).
Proof.
  apply keeps_bind; [apply keeps_open_rb|]. intros data.
  apply (keeps_codec (fun w => Return (decode (codecs w) data))).
Qed.

Lemma keeps_make_stream_zip p target entry :
  keeps (make_stream_zip p target entry).
Proof.
  apply keeps_bind.
  - apply keeps_bind; [apply keeps_path_exists|]. intros present.
    destruct present; [apply keeps_ret|].
    apply keeps_bind; [apply keeps_open_rb|]. intros data.
    apply keeps_bind.
    { apply (keeps_codec (fun w => zip_open (codecs w) data entry)). }
    intros source. apply keeps_bind; [apply keeps_copy_to_file|].
    intros _. apply keeps_ret.
  - intros extracted. apply keeps_bind; [apply keeps_open_rb|].
    intros data. apply keeps_ret.
Qed.

(** Opening the stream of a prepared source stays within every frame. *)
Lemma keeps_open_stream_prepared src :
  prepared src -> keeps (open_stream src).
Proof.
  destruct 1; cbn [open_stream].
  - apply keeps_make_stream_raw.
  - apply keeps_make_stream_codec.
  - apply keeps_make_stream_zip.
Qed.

Lemma keeps_prepare_image_source p : keeps (prepare_image_source p).
Proof.
  unfold prepare_image_source.
  apply keeps_bind; [apply keeps_path_exists|]. intros present.
  destruct (negb present); [apply keeps_raise|].
  apply keeps_bind; [apply keeps_path_is_file|]. intros regular.
  destruct (negb regular); [apply keeps_raise|].
  apply keeps_bind; [apply keeps_stat_size|]. intros st_size.
  destruct (last _) as [suffix|]; [|apply keeps_ret].
  repeat (case_bool_decide; [apply keeps_ret|]).
  case_bool_decide; [|apply keeps_ret].
  apply keeps_bind; [apply keeps_open_rb|]. intros data.
  apply keeps_bind.
  { apply (keeps_codec (fun w => zip_infolist (codecs w) data)). }
  intros infos. case_bool_decide; [apply keeps_raise|].
  destruct (filter _ infos) as [|entry entries]; [apply keeps_raise|].
  apply keeps_bind; [apply keeps_mkdtemp|]. intros temp_dir.
  apply keeps_ret.
Qed.

End SourceFrames.

(** What [prepare_image_source] returns is one of the three kinds of
    source. *)
Lemma prepare_image_source_prepared p w src w1 :
  prepare_image_source p w = (Return src, w1) -> prepared src.
Proof.
  unfold prepare_image_source.
  unfold bind at 1.
  destruct (path_exists (Path p) w) as [[present|e] w']; [|done].
  destruct (negb _); [done|].
  unfold bind at 1.
  destruct (path_is_file (Path p) w') as [[regular|e] w'']; [|done].
  destruct (negb _); [done|].
  unfold bind at 1.
  destruct (stat_size (Path p) w'') as [[st_size|e] w0]; [|done].
  destruct (last _) as [suffix|]; [|intros [= <- _]; constructor].
  repeat (case_bool_decide; [intros [= <- _]; constructor|]).
  case_bool_decide; [|intros [= <- _]; constructor].
  unfold bind at 1.
  destruct (open_rb (Path p) w0) as [[data|e] w2]; [|done].
  unfold bind at 1.
  destruct (zip_infolist (codecs w2) data) as [infos|e]; [|done].
  case_bool_decide; [done|].
  destruct (filter _ infos) as [|entry entries]; [done|].
  unfold bind.
  destruct (mkdtemp "shark_etcher_zip_" w2) as [[temp_dir|e] w3]; [|done].
  intros [= <- _]. constructor.
Qed.

(** ** Cleanup *)

(** The cleanup of a ZIP source never raises: an [OSError] of [unlink] or
    [rmdir] is passed over. *)
Lemma zip_cleanup_returns target temp_dir w :
  exists w',
    zip_cleanup target temp_dir w = (Return tt, w') /\
    stdout w' = stdout w /\ trace w' = trace w.
Proof.
  unfold zip_cleanup, try_except, bind, path_exists, unlink, rmdir, ret.
  destruct (stat_fault w target) as [e|];
    [cbn [pass_OSError is_OSError]; eexists; by split_and!|].
  case_bool_decide.
  - destruct (fs w !! target) as [[|data|data]|]; cbn [pass_OSError is_OSError];
      try (eexists; by split_and!).
    all: cbn [fs set_fs];
      destruct (delete target (fs w) !! temp_dir) as [[|d|d]|];
      try destruct (dir_empty _ _);
      cbn [pass_OSError is_OSError]; eexists; by split_and!.
  - destruct (fs w !! temp_dir) as [[|d|d]|];
      try destruct (dir_empty _ _);
      cbn [pass_OSError is_OSError]; eexists; by split_and!.
Qed.

(** [run_cleanup] passes over every exception of a callback that is an
    [Exception]. *)
Lemma run_callbacks_swallows cbs w :
  Forall (fun cb : IO unit =>
            forall w0 e, (cb w0).1 = Raise e -> is_Exception e = true) cbs ->
  (run_callbacks cbs w).1 = Return tt.
Proof.
  intros Hall. revert w.
  induction Hall as [|cb cbs Hcb _ IH]; intros w; [done|].
  cbn [run_callbacks]. unfold bind, try_except.
  specialize (Hcb w). destruct (cb w) as [[[]|e] w1]; [apply IH|].
  unfold pass_Exception. rewrite (Hcb e) by done. apply IH.
Qed.

(** The cleanup of a prepared source is one cleanup call; it returns, and
    leaves the output alone. *)
Lemma cleanup_prepared src w :
  prepared src ->
  exists w',
    cleanup src w = (Return tt, w') /\
    stdout w' = stdout w /\ trace w' = trace w ++ [SysCleanup].
Proof.
  destruct 1; cbn [cleanup]; unfold run_cleanup, bind, syscall;
    cbn [run_callbacks].
  1,2: eexists; by split_and!.
  unfold bind, try_except.
  destruct (zip_cleanup_returns target temp_dir (add_trace SysCleanup w))
    as (w' & -> & Hs & Ht).
  eexists. by split_and!.
Qed.

(** ** The flash operation *)

Lemma same_cleanups_call w call :
  is_cleanup call = false -> same_cleanups w (add_trace call w).
Proof.
  intros Hc. unfold same_cleanups. cbn [trace add_trace].
  rewrite cleanups_snoc, Hc. lia.
Qed.

Definition cleanup_frame : Frame :=
  Build_Frame same_cleanups (fun _ => True)
    (fun w1 w2 w3 H12 H23 => eq_trans H23 H12)
    (fun w w' _ Ht => f_equal cleanups Ht)
    same_cleanups_call
    (fun w e _ => eq_refl).





(** C8: when the image source has been made, [flash_image] runs the write
    (and the verification) and then the cleanup of the source, once,
    whatever the outcome of the write and the verification was: a result,
    a [FlashError], a [VerificationError] or anything else.  The cleanup
    returns, and the outcome of [flash_image] is the outcome of the write
    and the verification.  When no source could be made there is nothing to
    clean up.  [run_cleanup] passes over whatever [Exception] a cleanup
    callback raises. *)
Theorem cleanup_runs_exactly_once image_path device_path verify chunk_size
    pcb vcb scb dry_run w :
  (forall src w1,
     prepare_image_source image_path w = (Return src, w1) ->
     let body :=
       write_then_verify src device_path verify chunk_size pcb vcb scb
         dry_run w1 in
     exists w3,
       cleanup src body.2 = (Return tt, w3) /\
       flash_image image_path device_path verify chunk_size pcb vcb scb
         dry_run w = (body.1, w3) /\
       trace w3 = trace body.2 ++ [SysCleanup] /\
       cleanups (trace body.2) = cleanups (trace w) /\
       cleanups (trace w3) = S (cleanups (trace w))) /\
  (forall e w1,
     prepare_image_source image_path w = (Raise e, w1) ->
     flash_image image_path device_path verify chunk_size pcb vcb scb
       dry_run w = (Raise e, w1) /\
     cleanups (trace w1) = cleanups (trace w)) /\
  (forall cbs w0,
     Forall (fun cb : IO unit =>
               forall w' e, (cb w').1 = Raise e -> is_Exception e = true)
            cbs ->
     (run_cleanup cbs w0).1 = Return tt).
Proof.
  pose proof (@keeps_prepare_image_source cleanup_frame image_path w) as Hprep.
  split_and!.
  - intros src w1 Hp body. subst body.
    rewrite Hp in Hprep. cbn [snd] in Hprep.
    pose proof (prepare_image_source_prepared _ _ _ _ Hp) as Hsrc.
    pose proof (@keeps_write_then_verify cleanup_frame src device_path verify
                  chunk_size pcb vcb scb dry_run
                  (keeps_open_stream_prepared src Hsrc)
                  (fun _ _ _ _ => I) (fun _ _ _ _ => I) (fun _ _ _ => I) w1)
      as Hbody.
    cbn [frame_rel cleanup_frame] in Hprep, Hbody.
    unfold same_cleanups in Hprep, Hbody.
    unfold flash_image, bind. rewrite Hp. unfold try_finally.
    destruct (write_then_verify _ _ _ _ _ _ _ _ w1) as [r w2].
    cbn [fst snd] in *.
    destruct (cleanup_prepared src w2 Hsrc) as (w3 & Hc & _ & Ht).
    exists w3. rewrite Hc. split_and!; [done..|congruence|].
    rewrite Ht, cleanups_snoc. cbn. lia.
  - intros e w1 Hp. rewrite Hp in Hprep.
    unfold flash_image, bind. by rewrite Hp.
  - intros cbs w0 Hall. unfold run_cleanup, bind, syscall.
    by apply run_callbacks_swallows.
Qed.

Lemma cleanup_runs_exactly_once_witness :
  (flash_image "/img.bin" "/dev/sdb" true 4 None None None false
     (sample_world (replicate 6 (b 0)))).1 = Raise (OSErr ENOSPC).
Proof.
  destruct (cleanup_runs_exactly_once "/img.bin" "/dev/sdb" true 4 None None
              None false (sample_world (replicate 6 (b 0)))) as [Hrun _].
  destruct (Hrun (mkImageSource (make_stream_raw "/img.bin") (Some 10)
                    "img.bin" (run_cleanup []))
                 (sample_world (replicate 6 (b 0))))
    as (w3 & _ & -> & _); [vm_compute; reflexivity|].
  vm_compute. reflexivity.
Defined.

(** ** The worker *)



(** The lookup of the device changes nothing.  It answers [None] when the
    enumeration raises [DeviceEnumerationError], and raises whatever else
    the enumeration raises. *)
Lemma find_device_by_path_world device_path require_removable w :
  (find_device_by_path device_path require_removable w).2 = w.
Proof.
  unfold find_device_by_path, try_except, bind, list_block_devices.
  destruct (enumeration w) as [e|devices]; [|done]. by destruct e.
Qed.

Section WorkerProofs.
Context `{SetOrder}.

(** [unmount_device] runs commands and writes nothing. *)
Lemma unmount_device_outcome device w :
  exists cmds, (unmount_device device w).2 = ran w cmds.
Proof.
  destruct (unmount_device_ran device w) as (cmds & Hw & _). by exists cmds.
Qed.

Lemma worker_unmount_eq device dry_run w :
  worker_unmount device dry_run w
  = match find_device_by_path device false w with
    | (Return (Some info), w0) =>
        (if (bool_decide (mountpoints info <> []) && negb dry_run)%bool
         then
           do emit (EvStatus ("Unmounting " +:+ device)) then
           try_except_else (unmount_device info)
             (fun e =>
                match e with
                | UnmountError _ _ =>
                    Some (do emit (EvError (exn_str e)) then ret (Some 10))
                | _ => None
                end)
             (fun unmounted =>
                do emit_all (map (fun mount => EvLog ("Unmounted " +:+ mount))
                                 unmounted) then
                ret None)
         else ret None) w0
    | (Return None, w0) =>
        (do emit (EvLog ("Warning: could not refresh device info for "
                           +:+ device)) then
         ret None) w0
    | (Raise e, w0) => (Raise e, w0)
    end.
Proof.
  unfold worker_unmount, bind at 1.
  by destruct (find_device_by_path device false w) as [[[info|]|e] w0].
Qed.




End WorkerProofs.


(** The handlers of the worker: one [error] record and the code of the
    category. *)
Lemma worker_handlers_spec dry_run e :
  exists code msg,
    worker_handlers e = Some (do emit (EvError msg) then ret code) /\
    code ∈ [2; 3; 130; 99] /\
    flash_verdict dry_run (Raise e) code (EvError msg).
Proof.
  destruct e; cbn [worker_handlers is_Exception exn_str];
    eexists _, _; (split; [reflexivity|]);
    (split; [set_solver|]); by constructor.
Qed.


Section WorkerClaim.
Context `{SetOrder}.


End WorkerClaim.


(** * Further properties *)

(** ** The environment *)

Lemma same_env_refl w : same_env w w.
Proof. by repeat split. Qed.

Lemma same_env_trans w1 w2 w3 :
  same_env w1 w2 -> same_env w2 w3 -> same_env w1 w3.
Proof.
  unfold same_env. intros (?&?&?&?&?&?&?&?&?&?) (?&?&?&?&?&?&?&?&?&?).
  repeat split; congruence.
Qed.

Lemma same_env_open_fault w w' :
  same_env w w' -> open_fault w' = open_fault w.
Proof. by intros (? & _). Qed.

Lemma same_env_stat_fault w w' :
  same_env w w' -> stat_fault w' = stat_fault w.
Proof. by intros (_ & ? & _). Qed.

Lemma same_env_codecs w w' : same_env w w' -> codecs w' = codecs w.
Proof. by intros (_ & _ & _ & _ & ? & _). Qed.

Lemma same_env_proc_log w w' : same_env w w' -> proc_log w' = proc_log w.
Proof. by intros (_ & _ & _ & _ & _ & _ & _ & _ & _ & ?). Qed.

Lemma same_env_memory w w' :
  same_env w w' -> enough_memory w -> enough_memory w'.
Proof. intros (_ & _ & _ & Ha & _) Hm n. rewrite Ha. apply Hm. Qed.

Lemma same_env_out w evs : same_env w (out w evs).
Proof. by repeat split. Qed.

Lemma same_env_add_trace w call : same_env w (add_trace call w).
Proof. by repeat split. Qed.

Lemma same_env_set_fs w f : same_env w (set_fs f w).
Proof. by repeat split. Qed.

(** ** Chunks and progress counts *)

Lemma ceil_div_bounds (a c : Z) :
  0 < c -> 0 <= a ->
  let q := (a + c - 1) / c in
  c * q < a + c /\ a <= c * q /\ 0 <= q.
Proof.
  intros Hc Ha q.
  pose proof (Z.mul_div_le (a + c - 1) c Hc).
  pose proof (Z.mul_succ_div_gt (a + c - 1) c Hc).
  assert (0 <= q) by (apply Z.div_pos; lia).
  fold q in H, H0. lia.
Qed.

Lemma ceil_div_step (a c : Z) :
  0 < c -> (a - c + c - 1) / c = (a + c - 1) / c - 1.
Proof.
  intros Hc. replace (a - c + c - 1) with ((a + c - 1) + (-1) * c) by lia.
  rewrite Z.div_add by lia. lia.
Qed.

Lemma ceil_div_zero (c : Z) : 0 < c -> (0 + c - 1) / c = 0.
Proof. intros. apply Z.div_small. lia. Qed.

Lemma ceil_div_one (a c : Z) : 0 < c -> 0 < a <= c -> (a + c - 1) / c = 1.
Proof.
  intros Hc Ha. symmetry. apply (Z.div_unique _ _ 1 (a - 1)); lia.
Qed.

Lemma progress_marks_nil cs : 0 < cs -> progress_marks cs 0 = [].
Proof.
  intros. unfold progress_marks. change (Z.of_nat 0) with 0.
  by rewrite ceil_div_zero.
Qed.

Lemma progress_marks_last cs n :
  0 < cs -> (0 < n <= Z.to_nat cs)%nat -> progress_marks cs n = [Z.of_nat n].
Proof.
  intros Hc Hn. unfold progress_marks.
  rewrite ceil_div_one by lia. simpl. f_equal. lia.
Qed.

Lemma progress_marks_step cs n :
  0 < cs -> (Z.to_nat cs < n)%nat ->
  progress_marks cs n
  = cs :: map (Z.add cs) (progress_marks cs (n - Z.to_nat cs)).
Proof.
  intros Hc Hn. unfold progress_marks.
  replace (Z.of_nat (n - Z.to_nat cs)) with (Z.of_nat n - cs) by lia.
  rewrite ceil_div_step by lia.
  destruct (ceil_div_bounds (Z.of_nat n) cs Hc ltac:(lia)) as (H1 & H2 & H3).
  set (q := (Z.of_nat n + cs - 1) / cs) in *.
  assert (2 <= q) by nia.
  replace (Z.to_nat q) with (S (Z.to_nat (q - 1))) by lia.
  rewrite <- cons_seq, <- fmap_S_seq. cbn [map]. f_equal; [lia|].
  rewrite <- !list_fmap_compose. apply list_fmap_ext.
  intros i x _. simpl. lia.
Qed.

Lemma chunk_beyond_nil cs capacity : 0 < cs -> chunk_beyond cs capacity 0 = false.
Proof.
  intros Hc. unfold chunk_beyond.
  destruct (ceil_div_bounds (Z.of_nat capacity) cs Hc ltac:(lia)) as (_&_&?).
  apply Z.ltb_ge. change (Z.of_nat 0) with 0. nia.
Qed.

Lemma chunk_beyond_full cs n : 0 < cs -> (0 < n)%nat -> chunk_beyond cs 0 n = true.
Proof.
  intros Hc Hn. unfold chunk_beyond. change (Z.of_nat 0) with 0.
  rewrite ceil_div_zero by done. apply Z.ltb_lt. lia.
Qed.

Lemma chunk_beyond_step cs gap n :
  0 < cs -> (0 < gap)%nat -> (0 < n)%nat ->
  chunk_beyond cs gap n
  = chunk_beyond cs (gap - Nat.min (Z.to_nat cs) n) (n - Z.to_nat cs).
Proof.
  intros Hc Hg Hn. unfold chunk_beyond.
  destruct (ceil_div_bounds (Z.of_nat gap) cs Hc ltac:(lia)) as (H1 & H2 & H3).
  destruct (ceil_div_bounds
              (Z.of_nat (gap - Nat.min (Z.to_nat cs) n)) cs Hc ltac:(lia))
    as (H4 & H5 & H6).
  set (q := (Z.of_nat gap + cs - 1) / cs) in *.
  set (q' := (Z.of_nat (gap - Nat.min (Z.to_nat cs) n) + cs - 1) / cs) in *.
  destruct (decide (n <= Z.to_nat cs)%nat) as [Hle|Hgt].
  - replace (n - Z.to_nat cs)%nat with 0%nat by lia. change (Z.of_nat 0) with 0.
    assert (1 <= q) by nia. assert (cs <= cs * q) by nia.
    transitivity false; [apply Z.ltb_ge; lia|symmetry; apply Z.ltb_ge; nia].
  - destruct (decide (Z.to_nat cs <= gap)%nat) as [Hfit|Hshort].
    + assert (q' = q - 1) as ->.
      { subst q q'. replace (Z.of_nat (gap - Nat.min (Z.to_nat cs) n))
          with (Z.of_nat gap - cs) by lia.
        apply ceil_div_step. done. }
      replace (Z.of_nat (n - Z.to_nat cs)) with (Z.of_nat n - cs) by lia.
      destruct (Z.ltb_spec (cs * q) (Z.of_nat n));
        symmetry; [apply Z.ltb_lt|apply Z.ltb_ge]; lia.
    + assert (q = 1) as ->.
      { subst q. apply ceil_div_one; lia. }
      assert (q' = 0) as ->.
      { subst q'. replace (gap - Nat.min (Z.to_nat cs) n)%nat with 0%nat by lia.
        by apply ceil_div_zero. }
      transitivity true; [apply Z.ltb_lt; lia|symmetry; apply Z.ltb_lt; lia].
Qed.

Lemma chunk_beyond_fits cs capacity n :
  0 < cs -> (n <= capacity)%nat -> chunk_beyond cs capacity n = false.
Proof.
  intros Hc Hn. unfold chunk_beyond.
  destruct (ceil_div_bounds (Z.of_nat capacity) cs Hc ltac:(lia)) as (_&?&_).
  apply Z.ltb_ge. lia.
Qed.

(** ** The write loop on a block device *)

Lemma overwrite_app (A B chunk : list byte) :
  overwrite (length A) chunk (A ++ B)
  = A ++ take (length B) chunk ++ drop (length chunk) B.
Proof.
  unfold overwrite. rewrite take_app_length, length_app.
  replace (length A + length B - length A)%nat with (length B) by lia.
  by rewrite drop_app_add.
Qed.

Lemma overwrite_file_app (A B chunk : list byte) :
  overwrite_file (length A) chunk (A ++ B)
  = A ++ chunk ++ drop (length chunk) B.
Proof.
  unfold overwrite_file. by rewrite take_app_length, drop_app_add.
Qed.

Lemma take_drop_split (B chunk rest : list byte) :
  take (length B) chunk ++ take (length (drop (length chunk) B)) rest
    ++ drop (length rest) (drop (length chunk) B)
  = take (length B) (chunk ++ rest) ++ drop (length (chunk ++ rest)) B.
Proof.
  rewrite length_drop, drop_drop, length_app.
  destruct (decide (length chunk <= length B)%nat) as [Hle|Hgt].
  - rewrite (take_ge chunk) by done.
    rewrite take_app_ge by done. by rewrite <- (assoc (++)).
  - rewrite (take_app_le chunk) by lia.
    replace (length B - length chunk)%nat with 0%nat by lia.
    rewrite take_0, !drop_ge by lia. done.
Qed.

Lemma progress_events_nil cb total : progress_events cb total [] = [].
Proof. by destruct cb. Qed.

Lemma progress_events_cons cb total m marks :
  progress_events cb total (m :: marks)
  = progress_events cb total [m] ++ progress_events cb total marks.
Proof. by destruct cb. Qed.

Lemma call_progress_events cb current total w :
  call_progress cb current total w
  = (Return tt, out w (progress_events cb total [current])).
Proof.
  destruct cb; simpl; [apply emit_out|]. by rewrite out_nil.
Qed.

Lemma call_status_events cb message w :
  call_status cb message w = (Return tt, out w (status_events cb message)).
Proof.
  destruct cb; simpl; [apply emit_out|]. by rewrite out_nil.
Qed.

(** What the loop leaves on a block device, whether the image fits or
    not: the bytes that fit, from the position of the file object on. *)
Lemma write_loop_block fuel cs cb total rest p A B n w :
  0 < cs <= MAX_RW_COUNT -> enough_memory w -> (length rest < fuel)%nat ->
  fs w !! p = Some (BlockDev (A ++ B)) ->
  exists w',
    write_loop fuel cs true cb total (mkStream rest None)
      (DeviceFile p (length A)) n w
    = (if chunk_beyond cs (length B) (length rest)
       then Raise (OSErr ENOSPC)
       else Return (n + Z.of_nat (length rest)), w') /\
    fs w'
    = <[p := BlockDev (A ++ take (length B) rest ++ drop (length rest) B)]>
        (fs w) /\
    same_env w w' /\ tmp_names w' = tmp_names w /\
    (chunk_beyond cs (length B) (length rest) = false ->
     stdout w'
     = stdout w ++ progress_events cb total
                     (map (Z.add n) (progress_marks cs (length rest)))) /\
    exists calls, trace w' = trace w ++ calls /\ Forall (write_to p) calls.
Proof.
  intros Hcs.
  assert (0 < cs < 2 ^ 63) as Hcs' by (unfold MAX_RW_COUNT in *; lia).
  assert (0 < cs) as Hpos by lia.
  revert rest A B n w.
  induction fuel as [|fuel IH]; intros rest A B n w Hmem Hf Hp; [lia|].
  destruct rest as [|x d].
  - exists w. cbn [write_loop]. unfold bind at 1.
    rewrite stream_read_end by done.
    rewrite bool_decide_true by done.
    rewrite chunk_beyond_nil by done. cbn [length].
    split; [unfold ret; do 2 f_equal; lia|].
    split.
    { rewrite take_nil, drop_0. cbn [app]. by rewrite insert_id. }
    split; [apply same_env_refl|]. split; [done|].
    split.
    { intros _. rewrite progress_marks_nil by done. cbn [map].
      by rewrite progress_events_nil, app_nil_r. }
    exists []. by rewrite app_nil_r.
  - cbn [write_loop]. unfold bind at 1.
    rewrite stream_read_pos by done.
    set (k := Z.to_nat cs). assert (0 < k)%nat as Hk by lia.
    set (rest := x :: d) in *.
    assert (0 < length rest)%nat as Hn by (subst rest; simpl; lia).
    set (chunk := take k rest).
    assert (length chunk = Nat.min k (length rest)) as Hlc
      by (subst chunk; apply length_take).
    rewrite bool_decide_false
      by (subst chunk rest; destruct k; [lia|done]).
    assert (take (rw_count (length chunk)) chunk = chunk) as Hsent
      by (rewrite rw_count_small by lia; apply take_ge; lia).
    unfold bind at 1. unfold dest_write. cbv zeta. rewrite Hsent, Hp.
    destruct (decide (length (A ++ B) <= length A)%nat) as [Hfull|Hroom].
    + assert (B = []) as ->.
      { rewrite length_app in Hfull. destruct B; [done|simpl in Hfull; lia]. }
      exists w. rewrite chunk_beyond_full by done.
      split; [done|]. split.
      { cbn [length]. rewrite take_0, drop_nil. cbn [app].
        rewrite app_nil_r in Hp |- *. by rewrite insert_id. }
      split; [apply same_env_refl|]. split; [done|].
      split; [done|]. exists []. by rewrite app_nil_r.
    + rewrite length_app in Hroom.
      assert (0 < length B)%nat as Hgap by lia.
      rewrite overwrite_app.
      replace (length A + Nat.min (length chunk)
                 (length (A ++ B) - length A))%nat
        with (length (A ++ take (length B) chunk))
        by (rewrite !length_app, length_take; lia).
      set (w1 := add_trace _ _).
      unfold bind at 1. rewrite fsync_swallowed.
      unfold bind at 1. rewrite call_progress_events.
      set (w2 := out w1 _).
      destruct (IH (drop k rest) (A ++ take (length B) chunk)
                  (drop (length chunk) B) (n + Z.of_nat (length chunk)) w2)
        as (w' & Hrun & Hfs & Henv & Htmp & Hout & calls & Htr & Hcalls).
      { intros m. exact (Hmem m). }
      { rewrite length_drop. lia. }
      { subst w2 w1. cbn [fs out add_trace set_fs].
        rewrite lookup_insert_eq. by rewrite <- !(assoc (++)). }
      exists w'. rewrite Hrun, !length_drop.
      rewrite (chunk_beyond_step cs (length B) (length rest)) by done.
      rewrite Hlc. fold k.
      split.
      { match goal with
        | |- context [chunk_beyond ?a ?g ?m] => destruct (chunk_beyond a g m)
        end; [done|]. do 2 f_equal. lia. }
      split.
      { rewrite Hfs. subst w2 w1. cbn [fs out add_trace set_fs].
        rewrite insert_insert_eq. do 2 f_equal.
        rewrite <- !(assoc (++)). f_equal.
        rewrite take_drop_split. subst chunk. by rewrite take_drop. }
      split.
      { eapply same_env_trans; [|exact Henv]. by repeat split. }
      split; [by rewrite Htmp|].
      split.
      { intros Hb. rewrite !length_drop, Hlc in Hout. fold k in Hout.
        rewrite Hout by done. subst w2 w1.
        cbn [stdout out add_trace set_fs]. rewrite <- (assoc (++)). f_equal.
        destruct (decide (length rest <= k)%nat) as [Hle|Hgt].
        * replace (length rest - k)%nat with 0%nat by lia.
          rewrite progress_marks_nil, (progress_marks_last cs (length rest))
            by (done || lia).
          cbn [map]. rewrite progress_events_nil, app_nil_r.
          do 2 f_equal. lia.
        * rewrite (progress_marks_step cs (length rest)) by (done || lia).
          fold k. cbn [map].
          rewrite (progress_events_cons _ _ (n + cs)).
          f_equal; [do 2 f_equal; lia|]. f_equal.
          rewrite <- list_fmap_compose. apply list_fmap_ext.
          intros i y _. unfold compose. subst k. lia. }
      exists (SysWrite p (length A) chunk :: calls). split.
      { rewrite Htr. subst w2 w1. cbn [trace out add_trace set_fs].
        by rewrite <- (assoc (++)). }
      constructor; [by exists (length A), chunk|done].
Qed.

(** ** Writing to a block device *)

Lemma os_open_ok p mode w node :
  fs w !! p = Some node -> node <> Directory ->
  open_fault w p mode = None ->
  os_open p mode w = (Return tt, add_trace (SysOpen p mode) w).
Proof.
  intros Hp Hn Hf. unfold os_open, bind, syscall. simpl.
  rewrite Hp, Hf. by destruct node, mode.
Qed.

Lemma map_add_0 (l : list Z) : map (Z.add 0) l = l.
Proof. induction l as [|x l IH]; [done|]. simpl. by rewrite IH. Qed.

(** The write operation on a block device, whatever the length of the
    image. *)
Lemma stream_image_to_device_block image_source device_path chunk_size
    pcb scb w img w1 old :
  0 < chunk_size <= MAX_RW_COUNT ->
  open_stream image_source (call_status scb "Starting write" w).2
  = (Return (mkStream img None), w1) ->
  enough_memory w1 ->
  fs w1 !! device_path = Some (BlockDev old) ->
  open_fault w1 device_path O_RDWR = None ->
  exists w',
    stream_image_to_device image_source device_path chunk_size pcb scb false w
    = (if chunk_beyond chunk_size (length old) (length img)
       then Raise (OSErr ENOSPC)
       else Return (Z.of_nat (length img)), w') /\
    fs w'
    = <[device_path := BlockDev (take (length old) img
                                   ++ drop (length img) old)]> (fs w1) /\
    same_env w1 w' /\ tmp_names w' = tmp_names w1 /\
    (chunk_beyond chunk_size (length old) (length img) = false ->
     stdout w'
     = stdout w1
         ++ progress_events pcb (image_size image_source)
              (progress_marks chunk_size (length img))
         ++ status_events scb "Write completed") /\
    exists calls,
      trace w' = trace w1 ++ SysOpen device_path O_RDWR :: calls /\
      Forall (write_to device_path) calls.
Proof.
  intros Hcs Ho Hmem Hp Hf. assert (0 < chunk_size) as Hpos by lia.
  rewrite (stream_image_to_device_real _ _ _ _ _ _ _ _ Hpos Ho).
  rewrite (os_open_ok _ _ _ _ Hp) by done. cbn [fst].
  set (w2 := add_trace (SysOpen device_path O_RDWR) w1).
  destruct (write_loop_block (S (length img)) chunk_size pcb
              (image_size image_source) img device_path [] old 0 w2 Hcs)
    as (w3 & Hrun & Hfs & Henv & Htmp & Hout & calls & Htr & Hcalls);
    [exact Hmem|lia|done|].
  cbn [length app st_data] in *. unfold bind at 1. rewrite Hrun.
  destruct (chunk_beyond chunk_size (length old) (length img)).
  - exists w3. split; [done|]. split; [done|].
    split; [eapply same_env_trans; [apply same_env_add_trace|exact Henv]|].
    split; [done|]. split; [done|].
    exists calls. split; [|done]. rewrite Htr. subst w2. simpl.
    by rewrite <- (assoc (++)).
  - unfold bind. rewrite call_status_events.
    exists (out w3 (status_events scb "Write completed")).
    split; [unfold ret; do 2 f_equal; lia|].
    split; [done|].
    split.
    { eapply same_env_trans; [apply same_env_add_trace|].
      eapply same_env_trans; [exact Henv|apply same_env_out]. }
    split; [done|]. split.
    { intros _. cbn [stdout out]. rewrite Hout by done.
      by rewrite map_add_0, <- (assoc (++)). }
    exists calls. split; [|done]. cbn [trace out]. rewrite Htr. subst w2.
    simpl. by rewrite <- (assoc (++)).
Qed.

(** X1: [stream_image_to_device], not in a dry run, on a block device that
    is large enough, with a chunk size of at least 1 and at most
    [MAX_RW_COUNT], what one write call moves, and with memory for every
    chunk: the call returns the length of the image; afterwards the device
    begins with the bytes of the image, and what lay behind them is as
    before, whether [os.fsync] fails or not.  Nothing else in the file
    system changes, the only system calls are the opening of the device and
    writes to it, and the output holds one progress record per chunk and
    then the closing status. *)
Theorem write_stores_image image_source device_path chunk_size
    pcb scb w img w1 old :
  0 < chunk_size <= MAX_RW_COUNT ->
  open_stream image_source (call_status scb "Starting write" w).2
  = (Return (mkStream img None), w1) ->
  enough_memory w1 ->
  fs w1 !! device_path = Some (BlockDev old) ->
  open_fault w1 device_path O_RDWR = None ->
  (length img <= length old)%nat ->
  exists w',
    stream_image_to_device image_source device_path chunk_size pcb scb false w
    = (Return (Z.of_nat (length img)), w') /\
    fs w' = <[device_path := BlockDev (img ++ drop (length img) old)]> (fs w1) /\
    stdout w'
    = stdout w1
        ++ progress_events pcb (image_size image_source)
             (progress_marks chunk_size (length img))
        ++ status_events scb "Write completed" /\
    exists calls,
      trace w' = trace w1 ++ SysOpen device_path O_RDWR :: calls /\
      Forall (write_to device_path) calls.
Proof.
  intros Hcs Ho Hmem Hp Hf Hlen.
  destruct (stream_image_to_device_block _ _ _ pcb scb _ _ _ _ Hcs Ho Hmem
              Hp Hf)
    as (w' & Hrun & Hfs & _ & _ & Hout & Hcalls).
  rewrite chunk_beyond_fits in Hrun, Hout by (done || lia).
  exists w'. split; [done|]. split; [|by split; [apply Hout|]].
  by rewrite Hfs, take_ge.
Qed.

Lemma write_stores_image_witness :
  exists w',
    stream_image_to_device sample_source "/dev/sdb" 4 None None false
      (sample_world (replicate 12 (b 0)))
    = (Return 10, w') /\
    contents w' "/dev/sdb" = Some (sample_image ++ [b 0; b 0]).
Proof.
  assert (0 < 4 <= MAX_RW_COUNT) as Hc
    by (vm_compute; split; [done|discriminate]).
  set (w := sample_world (replicate 12 (b 0))).
  assert (open_stream sample_source (call_status None "Starting write" w).2
          = (Return (mkStream sample_image None),
             add_trace (SysOpen "/img.bin" O_RDONLY) w)) as Ho
    by (vm_compute; reflexivity).
  assert (fs (add_trace (SysOpen "/img.bin" O_RDONLY) w) !! "/dev/sdb"
          = Some (BlockDev (replicate 12 (b 0)))) as Hp
    by (vm_compute; reflexivity).
  destruct (write_stores_image sample_source "/dev/sdb" 4 None None w
              sample_image _ (replicate 12 (b 0)) Hc Ho
              ltac:(intros n; reflexivity) Hp
              ltac:(reflexivity) ltac:(simpl; lia))
    as (w' & Hrun & Hfs & _).
  exists w'. split; [exact Hrun|].
  unfold contents. rewrite Hfs, lookup_insert_eq. reflexivity.
Defined.

(** X2: A block device that is shorter than the image, a chunk size of at
    least 1 and at most [MAX_RW_COUNT], and memory for every chunk: the
    device ends up holding the first bytes of the image, as many as it has
    room for.  The call raises [OSError] (no space left) when some chunk
    starts at or beyond the end of the device; when only the last chunk
    reaches over the end, the bytes that do not fit are dropped and the call
    still returns the full length of the image. *)
Theorem write_to_short_device image_source device_path chunk_size
    pcb scb w img w1 old :
  0 < chunk_size <= MAX_RW_COUNT ->
  open_stream image_source (call_status scb "Starting write" w).2
  = (Return (mkStream img None), w1) ->
  enough_memory w1 ->
  fs w1 !! device_path = Some (BlockDev old) ->
  open_fault w1 device_path O_RDWR = None ->
  (length old < length img)%nat ->
  exists w',
    stream_image_to_device image_source device_path chunk_size pcb scb false w
    = (if chunk_beyond chunk_size (length old) (length img)
       then Raise (OSErr ENOSPC)
       else Return (Z.of_nat (length img)), w') /\
    contents w' device_path = Some (take (length old) img).
Proof.
  intros Hcs Ho Hmem Hp Hf Hlen.
  destruct (stream_image_to_device_block _ _ _ pcb scb _ _ _ _ Hcs Ho Hmem
              Hp Hf)
    as (w' & Hrun & Hfs & _).
  exists w'. split; [done|].
  unfold contents. rewrite Hfs, lookup_insert_eq.
  by rewrite drop_ge, app_nil_r by lia.
Qed.

Lemma write_to_short_device_witness :
  exists w',
    stream_image_to_device sample_source "/dev/sdb" 4 None None false
      (sample_world (replicate 9 (b 0)))
    = (Return 10, w') /\
    contents w' "/dev/sdb" = Some (take 9 sample_image).
Proof.
  assert (0 < 4 <= MAX_RW_COUNT) as Hc
    by (vm_compute; split; [done|discriminate]).
  set (w := sample_world (replicate 9 (b 0))).
  assert (open_stream sample_source (call_status None "Starting write" w).2
          = (Return (mkStream sample_image None),
             add_trace (SysOpen "/img.bin" O_RDONLY) w)) as Ho
    by (vm_compute; reflexivity).
  assert (fs (add_trace (SysOpen "/img.bin" O_RDONLY) w) !! "/dev/sdb"
          = Some (BlockDev (replicate 9 (b 0)))) as Hp
    by (vm_compute; reflexivity).
  destruct (write_to_short_device sample_source "/dev/sdb" 4 None None w
              sample_image _ (replicate 9 (b 0)) Hc Ho
              ltac:(intros n; reflexivity) Hp
              ltac:(reflexivity) ltac:(simpl; lia))
    as (w' & Hrun & Hcont).
  exists w'. split; [exact Hrun|exact Hcont].
Defined.

(** ** Writing to a regular file *)

Lemma write_loop_regular fuel cs cb total rest p A B n w :
  0 < cs <= MAX_RW_COUNT -> enough_memory w -> (length rest < fuel)%nat ->
  fs w !! p = Some (Regular (A ++ B)) ->
  exists w',
    write_loop fuel cs true cb total (mkStream rest None)
      (DeviceFile p (length A)) n w
    = (Return (n + Z.of_nat (length rest)), w') /\
    fs w' = <[p := Regular (A ++ rest ++ drop (length rest) B)]> (fs w) /\
    same_env w w' /\ tmp_names w' = tmp_names w /\
    stdout w'
    = stdout w ++ progress_events cb total
                    (map (Z.add n) (progress_marks cs (length rest))) /\
    exists calls, trace w' = trace w ++ calls /\ Forall (write_to p) calls.
Proof.
  intros Hcs.
  assert (0 < cs < 2 ^ 63) as Hcs' by (unfold MAX_RW_COUNT in *; lia).
  assert (0 < cs) as Hpos by lia.
  revert rest A B n w.
  induction fuel as [|fuel IH]; intros rest A B n w Hmem Hf Hp; [lia|].
  destruct rest as [|x d].
  - exists w. cbn [write_loop]. unfold bind at 1.
    rewrite stream_read_end by done.
    rewrite bool_decide_true by done. cbn [length].
    split; [unfold ret; do 2 f_equal; lia|].
    split; [rewrite drop_0; cbn [app]; by rewrite insert_id|].
    split; [apply same_env_refl|]. split; [done|].
    split.
    { rewrite progress_marks_nil by done. cbn [map].
      by rewrite progress_events_nil, app_nil_r. }
    exists []. by rewrite app_nil_r.
  - cbn [write_loop]. unfold bind at 1.
    rewrite stream_read_pos by done.
    set (k := Z.to_nat cs). assert (0 < k)%nat as Hk by lia.
    set (rest := x :: d) in *.
    assert (0 < length rest)%nat as Hn by (subst rest; simpl; lia).
    set (chunk := take k rest).
    assert (length chunk = Nat.min k (length rest)) as Hlc
      by (subst chunk; apply length_take).
    rewrite bool_decide_false
      by (subst chunk rest; destruct k; [lia|done]).
    assert (take (rw_count (length chunk)) chunk = chunk) as Hsent
      by (rewrite rw_count_small by lia; apply take_ge; lia).
    unfold bind at 1. unfold dest_write. cbv zeta. rewrite Hsent, Hp.
    rewrite overwrite_file_app.
    replace (length A + length chunk)%nat with (length (A ++ chunk))
      by (by rewrite length_app).
    set (w1 := add_trace _ _).
    unfold bind at 1. rewrite fsync_swallowed.
    unfold bind at 1. rewrite call_progress_events.
    set (w2 := out w1 _).
    destruct (IH (drop k rest) (A ++ chunk) (drop (length chunk) B)
                (n + Z.of_nat (length chunk)) w2)
      as (w' & Hrun & Hfs & Henv & Htmp & Hout & calls & Htr & Hcalls).
    { intros m. exact (Hmem m). }
    { rewrite length_drop. lia. }
    { subst w2 w1. cbn [fs out add_trace set_fs].
      rewrite lookup_insert_eq. by rewrite <- !(assoc (++)). }
    exists w'. rewrite Hrun, !length_drop.
    split; [do 2 f_equal; lia|].
    split.
    { rewrite Hfs. subst w2 w1. cbn [fs out add_trace set_fs].
      rewrite insert_insert_eq. do 2 f_equal.
      rewrite <- !(assoc (++)). f_equal.
      rewrite (assoc (++) chunk). subst chunk. rewrite take_drop.
      f_equal. rewrite length_drop, drop_drop, length_take. f_equal. lia. }
    split.
    { eapply same_env_trans; [|exact Henv]. by repeat split. }
    split; [by rewrite Htmp|].
    split.
    { rewrite length_drop in Hout. rewrite Hout. subst w2 w1.
      cbn [stdout out add_trace set_fs]. rewrite <- (assoc (++)). f_equal.
      destruct (decide (length rest <= k)%nat) as [Hle|Hgt].
      * replace (length rest - k)%nat with 0%nat by lia.
        rewrite progress_marks_nil, (progress_marks_last cs (length rest))
          by (done || lia).
        cbn [map]. rewrite progress_events_nil, app_nil_r.
        do 2 f_equal. lia.
      * rewrite (progress_marks_step cs (length rest)) by (done || lia).
        fold k. cbn [map].
        rewrite (progress_events_cons _ _ (n + cs)).
        f_equal; [do 2 f_equal; lia|]. f_equal.
        rewrite <- list_fmap_compose. apply list_fmap_ext.
        intros i y _. unfold compose. subst k. lia. }
    exists (SysWrite p (length A) chunk :: calls). split.
    { rewrite Htr. subst w2 w1. cbn [trace out add_trace set_fs].
      by rewrite <- (assoc (++)). }
    constructor; [by exists (length A), chunk|done].
Qed.

(** X3: The destination may be a regular file instead of a block device:
    with a chunk size of at least 1 and at most [MAX_RW_COUNT] and memory
    for every chunk, the file receives the image from its start, grows where
    the image is longer, and keeps what it held beyond the length of the
    image. *)
Theorem write_to_regular_file image_source device_path chunk_size
    pcb scb w img w1 old :
  0 < chunk_size <= MAX_RW_COUNT ->
  open_stream image_source (call_status scb "Starting write" w).2
  = (Return (mkStream img None), w1) ->
  enough_memory w1 ->
  fs w1 !! device_path = Some (Regular old) ->
  open_fault w1 device_path O_RDWR = None ->
  exists w',
    stream_image_to_device image_source device_path chunk_size pcb scb false w
    = (Return (Z.of_nat (length img)), w') /\
    fs w' = <[device_path := Regular (img ++ drop (length img) old)]> (fs w1).
Proof.
  intros Hcs Ho Hmem Hp Hf. assert (0 < chunk_size) as Hpos by lia.
  rewrite (stream_image_to_device_real _ _ _ _ _ _ _ _ Hpos Ho).
  rewrite (os_open_ok _ _ _ _ Hp) by done. cbn [fst].
  set (w2 := add_trace (SysOpen device_path O_RDWR) w1).
  destruct (write_loop_regular (S (length img)) chunk_size pcb
              (image_size image_source) img device_path [] old 0 w2 Hcs)
    as (w3 & Hrun & Hfs & _); [exact Hmem|lia|done|].
  cbn [length app st_data] in *. unfold bind at 1. rewrite Hrun.
  unfold bind. rewrite call_status_events.
  exists (out w3 (status_events scb "Write completed")).
  split; [unfold ret; do 2 f_equal; lia|done].
Qed.

Lemma write_to_regular_file_witness :
  exists w',
    stream_image_to_device sample_source "/out.img" 4 None None false
      (world_of (<["/img.bin" := Regular sample_image]>
                   (<["/out.img" := Regular [b 7]]> ∅)) no_codecs)
    = (Return 10, w') /\
    contents w' "/out.img" = Some sample_image.
Proof.
  assert (0 < 4 <= MAX_RW_COUNT) as Hc
    by (vm_compute; split; [done|discriminate]).
  set (w := world_of _ _).
  assert (open_stream sample_source (call_status None "Starting write" w).2
          = (Return (mkStream sample_image None),
             add_trace (SysOpen "/img.bin" O_RDONLY) w)) as Ho
    by (vm_compute; reflexivity).
  assert (fs (add_trace (SysOpen "/img.bin" O_RDONLY) w) !! "/out.img"
          = Some (Regular [b 7])) as Hp
    by (vm_compute; reflexivity).
  destruct (write_to_regular_file sample_source "/out.img" 4 None None w
              sample_image _ [b 7] Hc Ho ltac:(intros n; reflexivity) Hp
              ltac:(reflexivity))
    as (w' & Hrun & Hfs).
  exists w'. split; [exact Hrun|].
  unfold contents. rewrite Hfs, lookup_insert_eq. reflexivity.
Defined.

(** ** Verification reads only *)

Lemma verify_loop_reads_run fuel cs p cb total source pos c w r w' :
  verify_loop fuel cs p cb total source pos c w = (r, w') ->
  fs w' = fs w /\ same_env w w' /\
  exists calls, trace w' = trace w ++ calls /\ Forall (read_of p) calls.
Proof.
  assert (forall w0 : World,
            fs w0 = fs w0 /\ same_env w0 w0 /\
            exists calls, trace w0 = trace w0 ++ calls /\
                          Forall (read_of p) calls) as Hstay.
  { intros w0. split; [done|]. split; [apply same_env_refl|].
    exists []. by rewrite app_nil_r. }
  revert source pos c w.
  induction fuel as [|fuel IH]; intros source pos c w.
  { intros [= _ <-]. apply Hstay. }
  cbn [verify_loop]. unfold bind at 1.
  pose proof (stream_read_world cs source w) as Hw.
  destruct (stream_read cs source w) as [[[chunk source']|e] w0] eqn:Hr;
    cbn [snd] in Hw; subst w0.
  2:{ intros [= _ <-]. apply Hstay. }
  case_bool_decide as Hc.
  { intros [= _ <-]. apply Hstay. }
  assert (read_of p (SysRead p pos (length chunk))) as Hread
    by (right; by eexists _, _).
  assert (fs (add_trace (SysRead p pos (length chunk)) w) = fs w /\
          same_env w (add_trace (SysRead p pos (length chunk)) w) /\
          exists calls,
            trace (add_trace (SysRead p pos (length chunk)) w)
            = trace w ++ calls /\ Forall (read_of p) calls) as Hone.
  { split; [done|]. split; [apply same_env_add_trace|].
    exists [SysRead p pos (length chunk)]. split; [done|]. by constructor. }
  unfold bind at 1.
  destruct (dev_read p pos (length chunk) w) as [[device_chunk|e] w1] eqn:Hdr.
  2:{ intros [= _ <-].
      destruct (dev_read_world p pos (length chunk) w) as [Hw|Hw];
        rewrite Hdr in Hw; cbn [snd] in *; subst w1;
        [apply Hstay|exact Hone]. }
  assert (w1 = add_trace (SysRead p pos (length chunk)) w) as ->.
  { revert Hdr. unfold dev_read. destruct (alloc_fault w _); [done|].
    destruct (fs w !! p) as [[|data|data]|]; by intros [= _ <-]. }
  case_bool_decide as Hne.
  { intros [= _ <-]. exact Hone. }
  unfold bind at 1.
  destruct (call_progress_out cb (c + Z.of_nat (length chunk)) total
              (add_trace (SysRead p pos (length chunk)) w)) as [evs ->].
  intros Hl. apply IH in Hl as (Hfs & Henv & calls & Htr & Hcalls).
  split; [by rewrite Hfs|].
  split.
  { eapply same_env_trans; [|exact Henv].
    eapply same_env_trans; [apply same_env_add_trace|apply same_env_out]. }
  exists (SysRead p pos (length chunk) :: calls).
  split; [rewrite Htr; cbn [trace out add_trace]; by rewrite <- app_assoc|].
  by constructor.
Qed.

(** The verification, whatever its outcome, only reads. *)
Lemma verify_device_contents_reads image_source device_path chunk_size
    pcb scb w :
  let opened :=
    open_stream image_source (call_status scb "Starting verification" w).2 in
  let res :=
    verify_device_contents image_source device_path chunk_size pcb scb w in
  fs res.2 = fs opened.2 /\
  exists calls,
    trace res.2 = trace opened.2 ++ calls /\
    Forall (read_of device_path) calls.
Proof.
  intros opened res. subst opened res.
  destruct (open_stream image_source
              (call_status scb "Starting verification" w).2)
    as [[s|e] w1] eqn:Ho; cbn [snd].
  - destruct (verify_device_contents _ _ _ _ _ w) as [r w'] eqn:Hrun.
    destruct (verify_device_contents_reads_below _ _ _ _ _ _ _ _ _ _ Ho Hrun)
      as (Hfs & reads & Htr & Hrd).
    cbn [snd]. split; [done|].
    exists (SysOpen device_path O_RDONLY :: reads). split; [done|].
    constructor; [by left|].
    eapply Forall_impl; [exact Hrd|].
    intros call (off & cnt & -> & _). right. by eexists _, _.
  - destruct (verify_device_contents _ _ _ _ _ w) as [r w'] eqn:Hrun.
    unfold verify_device_contents in Hrun. unfold bind at 1 in Hrun.
    destruct (call_status_out scb "Starting verification" w) as [evs0 Hs].
    rewrite Hs in *. cbn [snd] in Ho.
    unfold bind at 1, try_except at 1 in Hrun. rewrite Ho in Hrun.
    assert (w' = w1) as ->
      by (destruct (is_OSError e); by injection Hrun as _ <-).
    split; [done|]. exists []. by rewrite app_nil_r.
Qed.

(** X4: [verify_device_contents] changes no file: after the stream of the
    image has been opened, the file system stays as it is, and the only
    system calls are the read-only opening of the device and reads of it. *)
Theorem verify_only_reads_the_device image_source device_path chunk_size
    pcb scb w :
  let opened :=
    open_stream image_source (call_status scb "Starting verification" w).2 in
  let res :=
    verify_device_contents image_source device_path chunk_size pcb scb w in
  fs res.2 = fs opened.2 /\
  exists calls,
    trace res.2 = trace opened.2 ++ calls /\
    Forall (read_of device_path) calls.
Proof. apply verify_device_contents_reads. Qed.

(** X5: The failures of [verify_device_contents] to open: an [OSError]
    from opening the image, and a permission error, a missing device or
    another [OSError] from opening the device, each become a
    [VerificationError] with a message of its own.  A device path at
    which there is nothing gives the message of the missing device,
    unless the system refuses the path for another reason. *)
Theorem verify_open_failures_are_VerificationErrors image_source device_path
    chunk_size pcb scb w :
  let opened :=
    open_stream image_source (call_status scb "Starting verification" w).2 in
  let res :=
    (verify_device_contents image_source device_path chunk_size pcb scb w).1
  in
  (forall exc,
     opened.1 = Raise (OSErr exc) ->
     res = Raise (VerificationError
                    ("Unable to reopen image: " +:+ os_str exc))) /\
  (forall s exc,
     opened.1 = Return s ->
     (os_open device_path O_RDONLY opened.2).1 = Raise (OSErr exc) ->
     res
     = Raise (VerificationError
                match os_class exc with
                | PermissionError =>
                    "Permission denied when reading " +:+ device_path
                      +:+ ". Try running as root."
                | FileNotFoundError => "Device not found: " +:+ device_path
                | OtherOSError =>
                    "Unable to read " +:+ device_path +:+ ": "
                      +:+ strerror exc
                end)) /\
  (forall s,
     opened.1 = Return s -> fs opened.2 !! device_path = None ->
     open_fault opened.2 device_path O_RDONLY = None ->
     res = Raise (VerificationError ("Device not found: " +:+ device_path))).
Proof.
  intros opened res.
  set (rest := fun s : Stream =>
         do try_except (os_open device_path O_RDONLY)
              (read_device_handlers device_path) then
         do os_fdopen device_path then
         do verify_loop (S (length (st_data s))) chunk_size device_path
              pcb (image_size image_source) s 0%nat 0 then
         call_status scb "Verification completed").
  assert (res = match opened with
                | (Return s, w1) => (rest s w1).1
                | (Raise e, _) =>
                    Raise match is_OSError e with
                          | Some exc =>
                              VerificationError
                                ("Unable to reopen image: " +:+ os_str exc)
                          | None => e
                          end
                end) as Hres.
  { subst res opened. unfold verify_device_contents. unfold bind at 1.
    rewrite call_status_events. cbn [snd].
    unfold bind at 1, try_except at 1.
    destruct (open_stream image_source _) as [[s|e] w1]; [done|].
    by destruct (is_OSError e). }
  clearbody res opened. subst res.
  destruct opened as [[s|e] w1]; cbn [fst snd].
  - split; [done|].
    assert (forall exc,
      (os_open device_path O_RDONLY w1).1 = Raise (OSErr exc) ->
      (rest s w1).1
      = Raise (VerificationError (read_device_message device_path exc)))
      as Hopen.
    { intros exc Hexc. subst rest. cbn beta.
      unfold bind at 1, try_except at 1.
      destruct (os_open device_path O_RDONLY w1) as [[[]|e] w2];
        cbn [fst] in Hexc; [done|]. by injection Hexc as ->. }
    split.
    + intros s' exc _ Hexc. by rewrite (Hopen exc Hexc).
    + intros s' _ Hnone Hflt.
      by rewrite (Hopen (ENOENT device_path)
                    (os_open_missing _ _ _ Hflt Hnone)).
  - split; [by intros exc [= ->]|]. split; [done|done].
Qed.

Lemma verify_open_failures_are_VerificationErrors_witness :
  (verify_device_contents sample_source "/dev/sdb" 4 None None
     world_without_device).1
  = Raise (VerificationError "Device not found: /dev/sdb").
Proof.
  apply (proj2 (proj2 (verify_open_failures_are_VerificationErrors
                         sample_source "/dev/sdb" 4 None None
                         world_without_device))
           (mkStream sample_image None));
    vm_compute; reflexivity.
Defined.

(** X6: [verify_device_contents] does not refuse the chunk size 0: the
    first read of the image then delivers nothing, and the operation
    returns without having read the device, whatever the device holds. *)
Theorem verify_with_chunk_size_zero_checks_nothing image_source device_path
    pcb scb w s w1 dev :
  open_stream image_source (call_status scb "Starting verification" w).2
  = (Return s, w1) ->
  contents w1 device_path = Some dev ->
  open_fault w1 device_path O_RDONLY = None ->
  exists w',
    verify_device_contents image_source device_path 0 pcb scb w
    = (Return tt, w') /\
    trace w' = trace w1 ++ [SysOpen device_path O_RDONLY].
Proof.
  intros Ho Hdev Hflt.
  rewrite (verify_device_contents_opened _ _ _ _ _ _ _ _ _ Ho Hdev Hflt).
  cbn [verify_loop]. unfold bind at 1 2.
  change (stream_read 0 s (add_trace (SysOpen device_path O_RDONLY) w1))
    with (Return ([] : list byte, s),
          add_trace (SysOpen device_path O_RDONLY) w1).
  cbv iota beta. rewrite bool_decide_true by done. unfold ret at 1.
  rewrite call_status_events. by eexists.
Qed.

Lemma verify_with_chunk_size_zero_checks_nothing_witness :
  (verify_device_contents sample_source "/dev/sdb" 0 None None
     (sample_world other_device)).1 = Return tt /\
  contents (sample_world other_device) "/dev/sdb" <> Some sample_image.
Proof.
  pose (w := sample_world other_device).
  destruct (verify_with_chunk_size_zero_checks_nothing sample_source
              "/dev/sdb" None None w (mkStream sample_image None)
              (add_trace (SysOpen "/img.bin" O_RDONLY) w) other_device)
    as (w' & Hv & _); [vm_compute; reflexivity..|].
  fold w. rewrite Hv. split; [reflexivity|].
  vm_compute. intros [=].
Defined.

(** ** The kinds of image *)

(** The source of an image that is no ZIP archive: it is prepared without
    touching anything, and its stream decodes the bytes of the file as they
    are when it is opened. *)
Lemma prepare_image_source_stream p w data :
  stat_fault w (Path p) = None ->
  fs w !! Path p = Some (Regular data) ->
  last_suffix p <> Some ".zip" ->
  exists src,
    prepare_image_source p w = (Return src, w) /\
    cleanup src = run_cleanup [] /\
    image_size src
    = (if is_compressed p then None else Some (Z.of_nat (length data))) /\
    forall w',
      open_stream src w'
      = (let* d := open_rb (Path p) in
         fun w0 => (Return (decoded (codecs w0) (last_suffix p) d), w0)) w'.
Proof.
  intros Hstat Hreg Hzip. prepare_checked Hstat Hreg.
  unfold decoded, is_compressed. fold (last_suffix p).
  destruct (last_suffix p) as [s|] eqn:Hs.
  2:{ eexists. split; [done|]. split; [done|]. split; done. }
  unfold compressed_suffixes.
  case_bool_decide as H1.
  { eexists. split; [done|]. split; [done|]. split; [|done].
    rewrite bool_decide_true; [done|].
    revert H1. rewrite ?elem_of_cons, ?elem_of_nil. tauto. }
  case_bool_decide as H2.
  { eexists. split; [done|]. split; [done|]. split; [|done].
    rewrite bool_decide_true; [done|].
    revert H2. rewrite ?elem_of_cons, ?elem_of_nil. tauto. }
  case_bool_decide as H3.
  { eexists. split; [done|]. split; [done|]. split; [|done].
    rewrite bool_decide_true; [done|].
    revert H3. rewrite ?elem_of_cons, ?elem_of_nil. tauto. }
  rewrite bool_decide_false by congruence.
  eexists. split; [done|]. split; [done|]. split; [|done].
  rewrite bool_decide_false; [done|].
  revert H1 H2 H3. rewrite ?elem_of_cons, ?elem_of_nil. tauto.
Qed.

(** X7: The image path is normalised as [Path] does.  When the [stat] of
    the normalised path does not fail and the path is missing or is no
    regular file, [flash_image] raises [FlashError] before anything has
    happened: no status is reported, nothing is opened, and the cleanup is
    not called.  When the [stat] fails with an [OSError] that does not mean
    that nothing is there, that [OSError] leaves [flash_image] as it is. *)
Theorem flash_image_rejects_what_is_no_file image_path device_path verify
    chunk_size pcb vcb scb dry_run w :
  (stat_fault w (Path image_path) = None ->
   (forall data, fs w !! Path image_path <> Some (Regular data)) ->
   exists msg,
     flash_image image_path device_path verify chunk_size pcb vcb scb
       dry_run w
     = (Raise (FlashError msg), w)) /\
  (forall e,
     stat_fault w (Path image_path) = Some e ->
     flash_image image_path device_path verify chunk_size pcb vcb scb
       dry_run w
     = (Raise (OSErr e), w)).
Proof.
  split.
  - intros Hstat Hno. unfold flash_image, bind at 1, prepare_image_source.
    unfold bind at 1, path_exists at 1. rewrite Hstat.
    destruct (fs w !! Path image_path) as [node|] eqn:Hp.
    + rewrite bool_decide_true by done. cbn [negb].
      unfold bind at 1, path_is_file at 1. rewrite Hstat, Hp.
      destruct node as [|data|data]; [by eexists|by destruct (Hno data)|
                                      by eexists].
    + rewrite bool_decide_false by (by intros [? [=]]). by eexists.
  - intros e Hstat. unfold flash_image, bind at 1, prepare_image_source.
    unfold bind at 1, path_exists at 1. by rewrite Hstat.
Qed.

Lemma flash_image_rejects_what_is_no_file_witness :
  exists msg,
    flash_image "/images/" "/dev/sdb" true 4 None None None false
      world_without_image
    = (Raise (FlashError msg), world_without_image).
Proof.
  apply (proj1 (flash_image_rejects_what_is_no_file "/images/" "/dev/sdb"
                  true 4 None None None false world_without_image)).
  - reflexivity.
  - intros data. vm_compute. intros [=].
Defined.

(** X8: The size that a prepared source reports, which is the total of
    the progress records: it is unknown exactly when the last suffix of the
    file name, in lower case, is one of [.gz], [.gzip], [.xz], [.lzma],
    [.bz2] and [.bzip2]; for an image that is neither compressed nor a ZIP
    archive it is the length of the file. *)
Theorem image_size_unknown_iff_compressed p w src w1 :
  prepare_image_source p w = (Return src, w1) ->
  (image_size src = None <-> is_compressed p = true) /\
  (forall data,
     fs w !! Path p = Some (Regular data) ->
     last_suffix p <> Some ".zip" -> is_compressed p = false ->
     image_size src = Some (Z.of_nat (length data))).
Proof.
  intros Hprep.
  assert (stat_fault w (Path p) = None /\
          exists data, fs w !! Path p = Some (Regular data))
    as (Hstat & data & Hreg).
  { revert Hprep. unfold prepare_image_source.
    unfold bind at 1, path_exists at 1.
    destruct (stat_fault w (Path p)) eqn:Hst; [done|].
    destruct (negb _); [done|].
    unfold bind at 1, path_is_file at 1. rewrite Hst.
    destruct (fs w !! Path p) as [[|data|data]|]; try done.
    intros _. split; [done|by exists data]. }
  destruct (decide (last_suffix p = Some ".zip")) as [Hzip|Hzip].
  - split; [|done].
    assert (image_size src <> None) as Hsome.
    { revert Hprep. rewrite (prepare_image_source_zip p w data) by done.
      cbv zeta.
      destruct (open_fault w (Path p) O_RDONLY); [done|].
      destruct (zip_infolist (codecs w) data) as [infos|e]; [|done].
      case_bool_decide; [done|].
      destruct (filter _ infos) as [|entry entries]; [done|].
      destruct (fresh_name _ _ _) as [[temp_dir rest]|]; [|done].
      by intros [= <- _]. }
    split; [done|]. unfold is_compressed. rewrite Hzip.
    by vm_compute.
  - destruct (prepare_image_source_stream p w data Hstat Hreg Hzip)
      as (src' & Hprep' & _ & Hsize & _).
    rewrite Hprep in Hprep'. injection Hprep' as <- _.
    rewrite Hsize. split.
    + by destruct (is_compressed p).
    + intros data' Hreg' _ ->. congruence.
Qed.

Lemma image_size_unknown_iff_compressed_witness :
  exists src w1,
    prepare_image_source "/a/disk.img.GZ" gzip_world = (Return src, w1) /\
    image_size src = None.
Proof.
  destruct (prepare_image_source "/a/disk.img.GZ" gzip_world)
    as [[src|e] w1] eqn:Hprep; [|vm_compute in Hprep; discriminate].
  exists src, w1. split; [reflexivity|].
  apply (image_size_unknown_iff_compressed _ _ _ _ Hprep).
  vm_compute. reflexivity.
Defined.

(** ** Writing and verifying *)

Lemma verify_device_contents_match image_source device_path chunk_size
    pcb scb w img w1 dev :
  0 <= chunk_size <= MAX_RW_COUNT ->
  open_stream image_source (call_status scb "Starting verification" w).2
  = (Return (mkStream img None), w1) ->
  enough_memory w1 ->
  contents w1 device_path = Some dev ->
  open_fault w1 device_path O_RDONLY = None ->
  take (length img) dev = img ->
  exists w',
    verify_device_contents image_source device_path chunk_size pcb scb w
    = (Return tt, w') /\
    fs w' = fs w1 /\ same_env w1 w'.
Proof.
  intros Hcs Ho Hmem Hdev Hflt Hpre.
  rewrite (verify_device_contents_opened _ _ _ _ _ _ _ _ _ Ho Hdev Hflt).
  cbn [st_data]. unfold bind at 1.
  set (w2 := add_trace (SysOpen device_path O_RDONLY) w1).
  destruct (verify_loop_match (S (length img)) chunk_size device_path pcb
              (image_size image_source) img 0 0 dev w2 Hcs)
    as (w' & Hrun); [exact Hmem|lia|done|done|].
  destruct (verify_loop_reads_run _ _ _ _ _ _ _ _ _ _ _ Hrun)
    as (Hfs & Henv & _).
  rewrite Hrun. rewrite call_status_events. eexists. split; [done|].
  split; [done|].
  eapply same_env_trans; [apply same_env_add_trace|].
  eapply same_env_trans; [exact Henv|apply same_env_out].
Qed.

(** The stream of an image that is no ZIP archive, opened in a world where
    the file is readable. *)
Lemma open_decoded p suffix w data (m : IO Stream) :
  (forall w',
     m w' = (let* d := open_rb p in
             fun w0 => (Return (decoded (codecs w0) suffix d), w0)) w') ->
  fs w !! p = Some (Regular data) ->
  open_fault w p O_RDONLY = None ->
  m w = (Return (decoded (codecs w) suffix data),
         add_trace (SysOpen p O_RDONLY) w).
Proof.
  intros -> Hreg Hflt. unfold bind.
  rewrite (open_rb_ok p w data); [done| |done].
  unfold contents. by rewrite Hreg.
Qed.

(** Writing an image that is no ZIP archive, and verifying it. *)
Lemma flash_image_writes_and_verifies image_path device_path verify chunk_size
    pcb vcb scb w data img old :
  0 < chunk_size <= MAX_RW_COUNT ->
  enough_memory w ->
  stat_fault w (Path image_path) = None ->
  fs w !! Path image_path = Some (Regular data) ->
  last_suffix image_path <> Some ".zip" ->
  decoded (codecs w) (last_suffix image_path) data = mkStream img None ->
  fs w !! device_path = Some (BlockDev old) ->
  open_fault w (Path image_path) O_RDONLY = None ->
  open_fault w device_path O_RDWR = None ->
  open_fault w device_path O_RDONLY = None ->
  (length img <= length old)%nat ->
  exists w',
    flash_image image_path device_path verify chunk_size pcb vcb scb false w
    = (Return (Z.of_nat (length img)), w') /\
    fs w' = <[device_path := BlockDev (img ++ drop (length img) old)]> (fs w) /\
    same_env w w'.
Proof.
  intros Hcs Hmem Hstat Hreg Hzip Hdec Hdev Hf1 Hf2 Hf3 Hlen.
  assert (Path image_path <> device_path) as Hne by congruence.
  destruct (prepare_image_source_stream _ _ _ Hstat Hreg Hzip)
    as (src & Hprep & Hclean & _ & Hopen).
  unfold flash_image, bind at 1. rewrite Hprep.
  unfold try_finally, write_then_verify.
  (* the write *)
  set (w0 := (call_status scb "Starting write" w).2).
  assert (open_stream src w0
          = (Return (mkStream img None),
             add_trace (SysOpen (Path image_path) O_RDONLY) w0)) as Ho.
  { subst w0. rewrite call_status_events. cbn [snd].
    rewrite (open_decoded _ _ _ data _ Hopen) by done. cbn [codecs out].
    by rewrite Hdec. }
  set (w1 := add_trace (SysOpen (Path image_path) O_RDONLY) w0) in Ho.
  assert (fs w1 = fs w) as Hfs1
    by (subst w1 w0; by rewrite call_status_events).
  assert (same_env w w1) as Henv1.
  { subst w1 w0. rewrite call_status_events. cbn [snd].
    eapply same_env_trans; [apply same_env_out|apply same_env_add_trace]. }
  destruct (stream_image_to_device_block src device_path chunk_size pcb scb
              w img w1 old Hcs Ho)
    as (w2 & Hrun & Hfs2 & Henv2 & _).
  { by apply (same_env_memory w). }
  { by rewrite Hfs1. }
  { by rewrite (same_env_open_fault w). }
  rewrite chunk_beyond_fits in Hrun by (done || lia).
  rewrite take_ge in Hfs2 by done. rewrite Hfs1 in Hfs2.
  unfold bind at 1. rewrite Hrun. cbn [negb andb].
  assert (same_env w w2) as Henv02 by (by eapply same_env_trans).
  rewrite Bool.andb_true_r.
  unfold bind at 1.
  (* the cleanup *)
  assert (forall w5, cleanup src w5 = (Return tt, add_trace SysCleanup w5))
    as Hcl by (intros w5; by rewrite Hclean).
  destruct verify.
  - (* the verification *)
    set (w3 := (call_status scb "Starting verification" w2).2).
    assert (same_env w w3 /\ fs w3 = fs w2) as [Henv3 Hfs3].
    { subst w3. rewrite call_status_events. cbn [snd]. split; [|done].
      eapply same_env_trans; [exact Henv02|apply same_env_out]. }
    assert (open_stream src w3
            = (Return (mkStream img None),
               add_trace (SysOpen (Path image_path) O_RDONLY) w3)) as Ho3.
    { rewrite (open_decoded _ _ _ data _ Hopen).
      - rewrite (same_env_codecs w) by done. by rewrite Hdec.
      - by rewrite Hfs3, Hfs2, lookup_insert_ne.
      - by rewrite (same_env_open_fault w). }
    destruct (verify_device_contents_match src device_path chunk_size
                (or_else vcb pcb) scb w2 img _
                (img ++ drop (length img) old) ltac:(lia) Ho3)
      as (w4 & Hv & Hfs4 & Henv4).
    { apply (same_env_memory w); [|done].
      eapply same_env_trans; [exact Henv3|apply same_env_add_trace]. }
    { unfold contents. cbn [fs add_trace].
      by rewrite Hfs3, Hfs2, lookup_insert_eq. }
    { cbn [open_fault add_trace]. by rewrite (same_env_open_fault w). }
    { by rewrite take_app_length. }
    rewrite Hv. unfold bind, ret. rewrite Hcl.
    eexists. split; [done|]. split.
    + cbn [fs add_trace]. rewrite Hfs4. cbn [fs add_trace].
      by rewrite Hfs3, Hfs2.
    + eapply same_env_trans; [exact Henv3|].
      eapply same_env_trans; [apply same_env_add_trace|].
      eapply same_env_trans; [exact Henv4|apply same_env_add_trace].
  - unfold ret, bind. rewrite Hcl. eexists. split; [done|].
    split; [done|].
    eapply same_env_trans; [exact Henv02|apply same_env_add_trace].
Qed.

(** X9: Flashing an image that is no ZIP archive, plain or compressed, onto
    a block device that is large enough, with or without verification, with
    a chunk size of at least 1 and at most [MAX_RW_COUNT], what one write or
    read call moves, with memory for every buffer, and with the image file,
    at its normalised path, and the device open to [stat] and [open]:
    [flash_image] returns the number of bytes that the stream of the image
    delivers, the verification that follows the write finds no difference,
    the device begins with the image, and nothing else in the file system
    has changed. *)
Theorem flash_then_verify_succeeds image_path device_path verify chunk_size
    pcb vcb scb w data img old :
  0 < chunk_size <= MAX_RW_COUNT ->
  enough_memory w ->
  stat_fault w (Path image_path) = None ->
  fs w !! Path image_path = Some (Regular data) ->
  last_suffix image_path <> Some ".zip" ->
  decoded (codecs w) (last_suffix image_path) data = mkStream img None ->
  fs w !! device_path = Some (BlockDev old) ->
  open_fault w (Path image_path) O_RDONLY = None ->
  open_fault w device_path O_RDWR = None ->
  open_fault w device_path O_RDONLY = None ->
  (length img <= length old)%nat ->
  exists w',
    flash_image image_path device_path verify chunk_size pcb vcb scb false w
    = (Return (Z.of_nat (length img)), w') /\
    fs w' = <[device_path := BlockDev (img ++ drop (length img) old)]> (fs w) /\
    same_env w w'.
Proof. apply flash_image_writes_and_verifies. Qed.


Lemma flash_then_verify_succeeds_witness :
  exists w',
    flash_image "/a/disk.img.GZ" "/dev/sdb" true 4 None None None false
      gzip_world
    = (Return 10, w') /\
    contents w' "/dev/sdb" = Some (sample_image ++ [b 0; b 0]).
Proof.
  destruct (flash_then_verify_succeeds "/a/disk.img.GZ" "/dev/sdb" true 4
              None None None gzip_world [b 31; b 139; b 8] sample_image
              (replicate 12 (b 0)))
    as (w' & Hrun & Hfs & _);
    [vm_compute; split; [done|discriminate]|intros n; reflexivity
    |reflexivity|vm_compute; reflexivity|vm_compute; intros [=]
    |vm_compute; reflexivity..|simpl; lia|].
  exists w'. split; [exact Hrun|].
  unfold contents. rewrite Hfs, lookup_insert_eq. reflexivity.
Defined.

(** ** Relations that a computation keeps *)

Section Through.
Variable R : World -> World -> Prop.
Hypothesis R_refl : forall w, R w w.
Hypothesis R_trans : forall w1 w2 w3, R w1 w2 -> R w2 w3 -> R w1 w3.
Hypothesis R_call : forall w call, R w (add_trace call w).
Hypothesis R_event : forall w e, R w (add_stdout e w).

Lemma through_ret {A} (a : A) : through R (ret a).
Proof. intros w. apply R_refl. Qed.

Lemma through_raise {A} e : through R (@raise A e).
Proof. intros w. apply R_refl. Qed.

Lemma through_bind {A B} (m : IO A) (k : A -> IO B) :
  through R m -> (forall a, through R (k a)) -> through R (bind m k).
Proof.
  intros Hm Hk w. unfold bind. specialize (Hm w).
  destruct (m w) as [[a|e] w1]; [|done].
  eapply R_trans; [exact Hm|apply Hk].
Qed.

Lemma through_try_except {A} (m : IO A) h :
  through R m -> (forall e k, h e = Some k -> through R k) ->
  through R (try_except m h).
Proof.
  intros Hm Hh w. unfold try_except. specialize (Hm w).
  destruct (m w) as [[a|e] w1]; [done|].
  destruct (h e) as [k|] eqn:He; [|done].
  eapply R_trans; [exact Hm|by eapply Hh].
Qed.

Lemma through_try_except_else {A B} (m : IO A) h (k : A -> IO B) :
  through R m -> (forall e k', h e = Some k' -> through R k') ->
  (forall a, through R (k a)) -> through R (try_except_else m h k).
Proof.
  intros Hm Hh Hk w. unfold try_except_else. specialize (Hm w).
  destruct (m w) as [[a|e] w1].
  - eapply R_trans; [exact Hm|apply Hk].
  - destruct (h e) as [k'|] eqn:He; [|done].
    eapply R_trans; [exact Hm|by eapply Hh].
Qed.

Lemma through_try_finally {A} (m : IO A) f :
  through R m -> through R f -> through R (try_finally m f).
Proof.
  intros Hm Hf w. unfold try_finally. specialize (Hm w).
  destruct (m w) as [r w1]. specialize (Hf w1).
  destruct (f w1) as [[[]|e] w2]; by eapply R_trans.
Qed.

(** A computation that leaves the world as it is. *)
Lemma through_pure {A} (m : IO A) :
  (forall w, (m w).2 = w) -> through R m.
Proof. intros Hq w. rewrite Hq. apply R_refl. Qed.

Lemma through_syscall call : through R (syscall call).
Proof. intros w. apply R_call. Qed.

Lemma through_emit e : through R (emit e).
Proof. intros w. apply R_event. Qed.

Lemma through_emit_all evs : through R (emit_all evs).
Proof.
  induction evs as [|e evs IH]; [apply through_ret|].
  apply through_bind; [apply through_emit|done].
Qed.

Lemma through_call_progress cb current total :
  through R (call_progress cb current total).
Proof. destruct cb; [apply through_emit|apply through_ret]. Qed.

Lemma through_call_status cb message :
  through R (call_status cb message).
Proof. destruct cb; [apply through_emit|apply through_ret]. Qed.

Lemma through_os_open p mode : through R (os_open p mode).
Proof. intros w. rewrite os_open_world. apply R_call. Qed.

Lemma through_os_fdopen p : through R (os_fdopen p).
Proof.
  apply through_pure. intros w. unfold os_fdopen.
  by destruct (fs w !! p) as [[]|].
Qed.

Lemma through_os_fsync p : through R (os_fsync p).
Proof.
  apply through_pure. intros w. unfold os_fsync.
  by destruct (fsync_fault w p).
Qed.

Lemma through_dev_read p pos n : through R (dev_read p pos n).
Proof.
  intros w.
  destruct (dev_read_world p pos n w) as [-> | ->];
    [apply R_refl|apply R_call].
Qed.

Lemma through_stream_read n s : through R (stream_read n s).
Proof. apply through_pure. intros w. apply stream_read_world. Qed.

Lemma through_dest_fsync dest :
  through R (try_except (dest_fsync dest) pass_OSError).
Proof.
  apply through_try_except.
  - destruct dest; [apply through_raise|apply through_os_fsync].
  - intros e k. unfold pass_OSError.
    destruct (is_OSError e); [|done]. intros [= <-]. apply through_ret.
Qed.

Lemma through_open_handlers {A} (wrap : OSError -> exn) e (k : IO A) :
  match is_OSError e with
  | Some exc => Some (raise (wrap exc))
  | None => None
  end = Some k -> through R k.
Proof.
  destruct (is_OSError e); [|done]. intros [= <-]. apply through_raise.
Qed.

Lemma through_path_exists p : through R (path_exists p).
Proof. apply through_pure. intros w. apply path_exists_world. Qed.

Lemma through_path_is_file p : through R (path_is_file p).
Proof. apply through_pure. intros w. apply path_is_file_world. Qed.

Lemma through_stat_size p : through R (stat_size p).
Proof. apply through_pure. intros w. apply stat_size_world. Qed.

Lemma through_open_rb p : through R (open_rb p).
Proof.
  apply through_bind; [apply through_os_open|]. intros _.
  apply through_pure. intros w. by destruct (fs w !! p) as [[]|].
Qed.

Lemma through_codec {A} (f : World -> outcome A) :
  through R (fun w => (f w, w)).
Proof. by apply through_pure. Qed.

Lemma through_make_stream_raw p : through R (make_stream_raw p).
Proof.
  apply through_bind; [apply through_open_rb|]. intros data.
  apply through_ret.
Qed.

Lemma through_make_stream_codec decode p :
  through R (make_stream_codec decode p).
Proof.
  apply through_bind; [apply through_open_rb|]. intros data.
  apply (through_codec (fun w => Return (decode (codecs w) data))).
Qed.

Lemma through_make_stream_zip p target entry :
  through R (ensure_extracted p target entry) ->
  through R (make_stream_zip p target entry).
Proof.
  intros He. apply through_bind; [done|].
  intros extracted. apply through_bind; [apply through_open_rb|].
  intros data. apply through_ret.
Qed.

Lemma through_prepare_image_source p :
  (forall prefix, through R (mkdtemp prefix)) ->
  through R (prepare_image_source p).
Proof.
  intros Hmk. unfold prepare_image_source. cbv zeta.
  apply through_bind; [apply through_path_exists|]. intros present.
  destruct (negb present); [apply through_raise|].
  apply through_bind; [apply through_path_is_file|]. intros regular.
  destruct (negb regular); [apply through_raise|].
  apply through_bind; [apply through_stat_size|]. intros st_size.
  destruct (last _) as [suffix|]; [|apply through_ret].
  repeat (case_bool_decide; [apply through_ret|]).
  case_bool_decide; [|apply through_ret].
  apply through_bind; [apply through_open_rb|]. intros data.
  apply through_bind.
  { apply (through_codec (fun w => zip_infolist (codecs w) data)). }
  intros infos. case_bool_decide; [apply through_raise|].
  destruct (filter _ infos) as [|entry entries]; [apply through_raise|].
  apply through_bind; [apply Hmk|]. intros temp_dir.
  apply through_ret.
Qed.

Lemma through_write_loop fuel cs sync cb total source dest n :
  (forall dest chunk, through R (dest_write dest chunk)) ->
  through R (write_loop fuel cs sync cb total source dest n).
Proof.
  intros Hw. revert source dest n.
  induction fuel as [|fuel IH]; intros source dest n; cbn [write_loop].
  { apply through_ret. }
  apply through_bind; [apply through_stream_read|]. intros [chunk source'].
  case_bool_decide; [apply through_ret|].
  apply through_bind; [apply Hw|]. intros dest'.
  apply through_bind.
  { destruct sync; [apply through_dest_fsync|apply through_ret]. }
  intros _. apply through_bind; [apply through_call_progress|].
  intros _. apply IH.
Qed.

Lemma through_verify_loop fuel cs p cb total source pos c :
  through R (verify_loop fuel cs p cb total source pos c).
Proof.
  revert source pos c.
  induction fuel as [|fuel IH]; intros source pos c; cbn [verify_loop].
  { apply through_ret. }
  apply through_bind; [apply through_stream_read|]. intros [chunk source'].
  case_bool_decide; [apply through_ret|].
  apply through_bind; [apply through_dev_read|]. intros device_chunk.
  case_bool_decide; [apply through_raise|].
  apply through_bind; [apply through_call_progress|].
  intros _. apply IH.
Qed.

Lemma through_stream_image_to_device image_source device_path chunk_size
    pcb scb dry_run :
  through R (open_stream image_source) ->
  (forall dest chunk, through R (dest_write dest chunk)) ->
  through R (stream_image_to_device image_source device_path chunk_size
               pcb scb dry_run).
Proof.
  intros Ho Hw. unfold stream_image_to_device.
  destruct (chunk_size <=? 0); [apply through_raise|].
  apply through_bind; [apply through_call_status|]. intros _.
  apply through_bind.
  { apply through_try_except; [done|]. intros e k.
    apply (through_open_handlers
             (fun exc => FlashError ("Unable to open image: "
                                       +:+ os_str exc))). }
  intros source. apply through_bind.
  { destruct dry_run; [apply through_ret|].
    apply through_bind.
    - apply through_try_except; [apply through_os_open|]. intros e k.
      apply (through_open_handlers
               (fun exc => FlashError (open_device_message device_path exc))).
    - intros _. apply through_bind; [apply through_os_fdopen|].
      intros _. apply through_ret. }
  intros destination. apply through_bind; [by apply through_write_loop|].
  intros n. apply through_bind; [apply through_call_status|].
  intros _. apply through_ret.
Qed.

Lemma through_verify_device_contents image_source device_path chunk_size
    pcb scb :
  through R (open_stream image_source) ->
  through R (verify_device_contents image_source device_path chunk_size
               pcb scb).
Proof.
  intros Ho. unfold verify_device_contents.
  apply through_bind; [apply through_call_status|]. intros _.
  apply through_bind.
  { apply through_try_except; [done|]. intros e k.
    apply (through_open_handlers
             (fun exc => VerificationError
                           ("Unable to reopen image: " +:+ os_str exc))). }
  intros source. apply through_bind.
  { apply through_try_except; [apply through_os_open|]. intros e k.
    apply (through_open_handlers
             (fun exc => VerificationError
                           (read_device_message device_path exc))). }
  intros _. apply through_bind; [apply through_os_fdopen|].
  intros _. apply through_bind; [apply through_verify_loop|].
  intros _. apply through_call_status.
Qed.

Lemma through_write_then_verify image_source device_path verify chunk_size
    pcb vcb scb dry_run :
  through R (open_stream image_source) ->
  (forall dest chunk, through R (dest_write dest chunk)) ->
  through R (write_then_verify image_source device_path verify chunk_size
               pcb vcb scb dry_run).
Proof.
  intros Ho Hw. unfold write_then_verify.
  apply through_bind; [by apply through_stream_image_to_device|]. intros n.
  apply through_bind; [|intros _; apply through_ret].
  destruct (verify && negb dry_run)%bool; [|apply through_ret].
  by apply through_verify_device_contents.
Qed.

End Through.

(** ** The environment is left alone *)

Lemma same_env_add_stdout w e : same_env w (add_stdout e w).
Proof. by repeat split. Qed.

Lemma same_env_dest_write dest chunk : through same_env (dest_write dest chunk).
Proof.
  intros w. destruct dest as [buffer|p pos]; cbn [dest_write].
  { destruct (alloc_fault w _); apply same_env_refl. }
  cbv zeta.
  destruct (fs w !! p) as [[|data|data]|]; try apply same_env_refl.
  - by repeat split.
  - case_decide; [apply same_env_refl|]. by repeat split.
Qed.

Lemma same_env_mkdtemp prefix : through same_env (mkdtemp prefix).
Proof.
  intros w. unfold mkdtemp.
  destruct (fresh_name _ _ _) as [[p rest]|]; by repeat split.
Qed.

Lemma same_env_copy_to_file archive target source :
  through same_env (copy_to_file archive target source).
Proof.
  intros w. unfold copy_to_file, bind, syscall.
  destruct (st_fault source); by repeat split.
Qed.

Lemma same_env_ensure_extracted p target entry :
  through same_env (ensure_extracted p target entry).
Proof.
  unfold ensure_extracted.
  apply through_bind; [apply same_env_trans|..].
  { apply through_path_exists, same_env_refl. }
  intros present. destruct present.
  { apply through_ret, same_env_refl. }
  apply through_bind; [apply same_env_trans|..].
  { apply through_open_rb;
      [apply same_env_refl|apply same_env_trans|apply same_env_add_trace]. }
  intros data. apply through_bind; [apply same_env_trans|..].
  { apply (through_codec _ same_env_refl
             (fun w => zip_open (codecs w) data entry)). }
  intros source. apply through_bind; [apply same_env_trans|..].
  { apply same_env_copy_to_file. }
  intros _. apply through_ret, same_env_refl.
Qed.

Lemma same_env_zip_cleanup target temp_dir :
  through same_env (zip_cleanup target temp_dir).
Proof.
  intros w.
  unfold zip_cleanup, try_except, bind, path_exists, unlink, rmdir, ret.
  destruct (stat_fault w target) as [e|];
    [cbn [pass_OSError is_OSError]; apply same_env_refl|].
  case_bool_decide.
  - destruct (fs w !! target) as [[|data|data]|]; cbn [pass_OSError is_OSError];
      try apply same_env_refl.
    all: cbn [fs set_fs];
      destruct (delete target (fs w) !! temp_dir) as [[|d|d]|];
      try destruct (dir_empty _ _);
      cbn [pass_OSError is_OSError]; by repeat split.
  - destruct (fs w !! temp_dir) as [[|d|d]|];
      try destruct (dir_empty _ _);
      cbn [pass_OSError is_OSError]; by repeat split.
Qed.

Lemma same_env_open_stream_prepared src :
  prepared src -> through same_env (open_stream src).
Proof.
  destruct 1; cbn [open_stream].
  - apply through_make_stream_raw;
      [apply same_env_refl|apply same_env_trans|apply same_env_add_trace].
  - apply through_make_stream_codec;
      [apply same_env_refl|apply same_env_trans|apply same_env_add_trace].
  - apply through_make_stream_zip;
      [apply same_env_refl|apply same_env_trans|apply same_env_add_trace|].
    apply same_env_ensure_extracted.
Qed.

Lemma same_env_cleanup_prepared src :
  prepared src -> through same_env (cleanup src).
Proof.
  destruct 1; cbn [cleanup]; unfold run_cleanup;
    (apply through_bind;
     [apply same_env_trans|apply through_syscall, same_env_add_trace|]);
    intros _; cbn [run_callbacks].
  1,2: apply through_ret, same_env_refl.
  apply through_bind; [apply same_env_trans|..].
  - apply through_try_except; [apply same_env_trans|..].
    + apply same_env_zip_cleanup.
    + intros e k. unfold pass_Exception.
      destruct (is_Exception e); [|done]. intros [= <-].
      apply through_ret, same_env_refl.
  - intros _. apply through_ret, same_env_refl.
Qed.

(** No function of [imaging.py] runs a command or changes a fault, a
    decoder or the devices found. *)
Lemma same_env_flash_image image_path device_path verify chunk_size
    pcb vcb scb dry_run :
  through same_env (flash_image image_path device_path verify chunk_size
                      pcb vcb scb dry_run).
Proof.
  intros w. unfold flash_image, bind.
  pose proof (through_prepare_image_source same_env same_env_refl
                same_env_trans same_env_add_trace image_path
                same_env_mkdtemp w) as Hp.
  destruct (prepare_image_source image_path w) as [[src|e] w1] eqn:Hprep;
    [|done].
  apply prepare_image_source_prepared in Hprep.
  eapply same_env_trans; [exact Hp|].
  apply through_try_finally; [apply same_env_trans|..].
  - apply through_write_then_verify;
      [apply same_env_refl|apply same_env_trans|apply same_env_add_trace
      |apply same_env_add_stdout|..].
    + by apply same_env_open_stream_prepared.
    + apply same_env_dest_write.
  - by apply same_env_cleanup_prepared.
Qed.

(** ** Temporary files *)

Lemma agree_off_refl paths w : agree_off paths w w.
Proof. by intros q _. Qed.

Lemma agree_off_trans paths w1 w2 w3 :
  agree_off paths w1 w2 -> agree_off paths w2 w3 -> agree_off paths w1 w3.
Proof. intros H12 H23 q Hq. by rewrite H23, H12. Qed.

Lemma agree_off_fs paths w w' : fs w' = fs w -> agree_off paths w w'.
Proof. intros Hfs q _. by rewrite Hfs. Qed.

Lemma agree_off_add_trace paths w call : agree_off paths w (add_trace call w).
Proof. by apply agree_off_fs. Qed.

Lemma agree_off_add_stdout paths w e : agree_off paths w (add_stdout e w).
Proof. by apply agree_off_fs. Qed.

Lemma agree_off_mono paths paths' w w' :
  paths ⊆ paths' -> agree_off paths w w' -> agree_off paths' w w'.
Proof. intros Hsub H q Hq. apply H. intros Hin. by apply Hq, Hsub. Qed.

Lemma dir_empty_spec f dir :
  dir_empty f dir = true <->
  forall k, is_Some (f !! k) -> String.prefix (dir +:+ "/") k = false.
Proof.
  unfold dir_empty. rewrite forallb_forall. split.
  - intros Hall k [v Hk].
    specialize (Hall (k, v)). cbn [fst] in Hall.
    apply negb_true_iff, Hall, list_elem_of_In.
    by apply elem_of_map_to_list.
  - intros Hno [k v] Hin. cbn [fst].
    apply list_elem_of_In, elem_of_map_to_list in Hin.
    apply negb_true_iff, Hno. by exists v.
Qed.

Lemma prefix_longer (s t : string) :
  t <> "" -> String.prefix (s +:+ t) s = false.
Proof.
  intros Ht. induction s as [|c s IH].
  - destruct t; [done|]. reflexivity.
  - change (String c s +:+ t) with (String c (s +:+ t)). cbn [String.prefix].
    destruct (Ascii.ascii_dec c c); [exact IH|done].
Qed.

(** What the cleanup of a ZIP source does to the world. *)
Lemma zip_cleanup_spec target temp_dir w :
  exists w',
    zip_cleanup target temp_dir w = (Return tt, w') /\
    agree_off [target; temp_dir] w w' /\
    (stat_fault w target = None ->
     fs w !! target <> Some Directory -> fs w' !! target = None) /\
    stdout w' = stdout w /\ trace w' = trace w.
Proof.
  assert (forall w' : World,
            (forall q, q <> target -> q <> temp_dir ->
                       fs w' !! q = fs w !! q) ->
            agree_off [target; temp_dir] w w') as Hoff.
  { intros w' Hw' q Hq. apply Hw'; intros ->; apply Hq.
    - apply list_elem_of_here.
    - apply list_elem_of_further, list_elem_of_here. }
  unfold zip_cleanup, try_except, bind, path_exists, unlink, rmdir, ret.
  destruct (stat_fault w target) as [e|].
  { cbn [pass_OSError is_OSError]. eexists. split; [done|].
    split; [apply agree_off_refl|]. split; [done|done]. }
  case_bool_decide as Hex.
  - destruct (fs w !! target) as [[|data|data]|] eqn:Ht;
      cbn [pass_OSError is_OSError].
    4: by destruct Hex as [? [=]].
    1: eexists; split; [done|]; split; [apply agree_off_refl|];
      split; [intros _ Hn; by destruct Hn|done].
    all: cbn [fs set_fs];
      destruct (delete target (fs w) !! temp_dir) as [[|d|d]|];
      try destruct (dir_empty _ _);
      cbn [pass_OSError is_OSError];
      (eexists; split; [done|]; split;
       [apply Hoff; intros q ? ?; cbn [fs set_fs];
        by rewrite ?lookup_delete_ne by done|]; split; [|done]; intros _ _;
       cbn [fs set_fs];
       destruct (decide (temp_dir = target)) as [->|];
       rewrite ?lookup_delete_eq, ?lookup_delete_ne, ?lookup_delete_eq
         by done; done).
  - assert (fs w !! target = None) as Ht.
    { destruct (fs w !! target); [|done]. by destruct Hex. }
    destruct (fs w !! temp_dir) as [[|d|d]|] eqn:Hd;
      try destruct (dir_empty _ _);
      cbn [pass_OSError is_OSError];
      (eexists; split; [done|]; split;
       [apply Hoff; intros q ? ?; cbn [fs set_fs];
        by rewrite ?lookup_delete_ne by done|]; split; [|done];
       intros _ _; cbn [fs set_fs]; try done;
       destruct (decide (temp_dir = target)) as [->|];
       rewrite ?lookup_delete_eq, ?lookup_delete_ne by done; done).
Qed.

(** X10: The cleanup of a ZIP source never raises and touches nothing but
    the extracted file and the temporary directory: every other path is
    as before, the output and the trace are as before, and, when the
    [stat] of the extracted file succeeds, that file is gone unless a
    directory has taken its place. *)
Theorem zip_cleanup_removes_only_its_own target temp_dir w :
  exists w',
    zip_cleanup target temp_dir w = (Return tt, w') /\
    agree_off [target; temp_dir] w w' /\
    (stat_fault w target = None ->
     fs w !! target <> Some Directory -> fs w' !! target = None) /\
    stdout w' = stdout w /\ trace w' = trace w.
Proof. apply zip_cleanup_spec. Qed.

(** ** Flashing a ZIP archive *)

(** The source of a ZIP archive with one image, as it is prepared. *)
Lemma prepare_zip_source image_path w data infos entry temp_dir rest :
  let p := Path image_path in
  stat_fault w p = None ->
  fs w !! p = Some (Regular data) ->
  last_suffix image_path = Some ".zip" ->
  open_fault w p O_RDONLY = None ->
  zip_infolist (codecs w) data = Return infos ->
  filter (fun info => is_dir info = false) infos = [entry] ->
  fresh_name (fs w) "shark_etcher_zip_" (tmp_names w)
  = Some (temp_dir, rest) ->
  let target := path_join temp_dir (path_name (filename entry)) in
  exists w1,
    prepare_image_source image_path w
    = (Return (mkImageSource (make_stream_zip p target entry)
                 (Some (file_size entry))
                 (path_name image_path +:+ " -> " +:+ filename entry)
                 (run_cleanup [zip_cleanup target temp_dir])), w1) /\
    fs w1 = <[temp_dir := Directory]> (fs w) /\ same_env w w1 /\
    trace w1 = trace w ++ [SysOpen p O_RDONLY].
Proof.
  intros p Hst Hreg Hsuf Hflt Hinfo He Hfresh target. subst p.
  rewrite (prepare_image_source_zip image_path w data) by done.
  cbv zeta. rewrite Hflt, Hinfo, He.
  rewrite bool_decide_false by (intros Hne; by apply Hne).
  rewrite Hfresh. eexists. split; [reflexivity|].
  split; [done|]. split; [by repeat split|done].
Qed.

(** The first open of the stream in a world that has the temporary
    directory and is otherwise as the world before. *)
Lemma open_zip_first p w w1 data entry temp_dir rest payload :
  fs w !! p = Some (Regular data) ->
  open_fault w p O_RDONLY = None ->
  fresh_name (fs w) "shark_etcher_zip_" (tmp_names w)
  = Some (temp_dir, rest) ->
  let target := path_join temp_dir (path_name (filename entry)) in
  path_name (filename entry) <> "" ->
  stat_fault w target = None ->
  open_fault w target O_RDONLY = None ->
  zip_open (codecs w) data entry = Return (mkStream payload None) ->
  fs w1 = <[temp_dir := Directory]> (fs w) -> same_env w w1 ->
  exists w2,
    make_stream_zip p target entry w1 = (Return (mkStream payload None), w2) /\
    fs w2 = <[target := Regular payload]> (<[temp_dir := Directory]> (fs w)) /\
    same_env w w2 /\
    trace w2 = trace w1 ++ [SysOpen p O_RDONLY; SysExtract p target;
                            SysOpen target O_RDONLY].
Proof.
  intros Hreg Hflt Hfresh target Hnm Hst Hflt' Hzip Hfs1 Henv1.
  destruct (fresh_target _ _ _ _ _ _ Hfresh Hnm) as [Hnone Hneq].
  destruct (fresh_name_fresh _ _ _ _ _ Hfresh) as [Hdir _].
  assert (p <> temp_dir) as Hp by (intros ->; congruence).
  destruct (make_stream_zip_first p target entry w1 data payload)
    as (w2 & Ho2 & Htr2 & Hfs2 & Henv2 & _).
  { unfold contents. by rewrite Hfs1, lookup_insert_ne, Hreg. }
  { by rewrite (same_env_open_fault w). }
  { by rewrite (same_env_stat_fault w). }
  { by rewrite Hfs1, lookup_insert_ne. }
  { by rewrite (same_env_open_fault w). }
  { by rewrite (same_env_codecs w). }
  exists w2. split; [done|]. split; [by rewrite Hfs2, Hfs1|].
  split; [by eapply same_env_trans|done].
Qed.

(** The cleanup after the extraction: the extracted file and the
    temporary directory are removed. *)
Lemma cleanup_zip_restores (f : gmap string Node) target temp_dir payload w :
  f !! temp_dir = None -> f !! target = None -> target <> temp_dir ->
  dir_empty f temp_dir = true ->
  (forall q, q <> target -> q <> temp_dir ->
             is_Some (fs w !! q) -> is_Some (f !! q)) ->
  fs w !! target = Some (Regular payload) ->
  fs w !! temp_dir = Some Directory ->
  stat_fault w target = None ->
  exists w',
    run_cleanup [zip_cleanup target temp_dir] w = (Return tt, w') /\
    fs w' = delete temp_dir (delete target (fs w)) /\
    same_env w w' /\ stdout w' = stdout w /\
    trace w' = trace w ++ [SysCleanup].
Proof.
  intros Hd Ht Hne Hempty Hkeys Hwt Hwd Hst.
  unfold run_cleanup, bind, syscall. cbn [run_callbacks].
  unfold bind, try_except, zip_cleanup, try_except.
  unfold bind at 1, path_exists. cbn [fs stat_fault add_trace].
  rewrite Hst, Hwt.
  rewrite bool_decide_true by done.
  unfold bind at 1, unlink. cbn [fs add_trace]. rewrite Hwt.
  unfold rmdir. cbn [fs set_fs]. rewrite lookup_delete_ne, Hwd by done.
  assert (dir_empty (delete target (fs w)) temp_dir = true) as ->.
  { apply dir_empty_spec. intros k [v Hk].
    destruct (decide (k = target)) as [->|Hkt];
      [by rewrite lookup_delete_eq in Hk|].
    rewrite lookup_delete_ne in Hk by done.
    destruct (decide (k = temp_dir)) as [->|Hkd];
      [by apply prefix_longer|].
    eapply dir_empty_spec; [exact Hempty|]. apply Hkeys; eauto. }
  eexists. split; [reflexivity|]. split; [done|].
  split; [by repeat split|]. by split.
Qed.

Lemma snoc3 (l : list SysCall) a c d :
  l ++ [a; c; d] = ((l ++ [a]) ++ [c]) ++ [d].
Proof. by rewrite <- !(assoc (++)). Qed.

(** X11: A dry run with a ZIP archive that holds one image, with a chunk
    size of at least 1 and below [2 ^ 63], memory for every buffer, and the
    archive, at its normalised path, and the extracted file open to [stat]
    and [open]: the entry is extracted into a new temporary directory and
    read to its end, [flash_image] returns the number of its bytes, and the
    cleanup removes the extracted file and the directory again, so that the
    file system is afterwards as it was before.  The device is not looked
    at: it need not even exist. *)
Theorem zip_dry_run_restores_the_file_system image_path device_path verify
    chunk_size pcb vcb scb w data infos entry temp_dir rest payload :
  let p := Path image_path in
  0 < chunk_size < 2 ^ 63 ->
  enough_memory w ->
  stat_fault w p = None ->
  fs w !! p = Some (Regular data) ->
  last_suffix image_path = Some ".zip" ->
  open_fault w p O_RDONLY = None ->
  zip_infolist (codecs w) data = Return infos ->
  filter (fun info => is_dir info = false) infos = [entry] ->
  fresh_name (fs w) "shark_etcher_zip_" (tmp_names w)
  = Some (temp_dir, rest) ->
  let target := path_join temp_dir (path_name (filename entry)) in
  path_name (filename entry) <> "" ->
  path_name (filename entry) <> ".." ->
  stat_fault w target = None ->
  open_fault w target O_RDONLY = None ->
  zip_open (codecs w) data entry = Return (mkStream payload None) ->
  exists w',
    flash_image image_path device_path verify chunk_size pcb vcb scb true w
    = (Return (Z.of_nat (length payload)), w') /\
    fs w' = fs w /\
    extractions (trace w') = S (extractions (trace w)) /\
    cleanups (trace w') = S (cleanups (trace w)).
Proof.
  intros p Hcs Hmem Hstat Hreg Hsuf Hflt Hinfo He Hfresh target Hnm _ Hst
    Hflt' Hzip.
  destruct (prepare_zip_source _ _ _ _ _ _ _ Hstat Hreg Hsuf Hflt Hinfo He
              Hfresh)
    as (w1 & Hprep & Hfs1 & Henv1 & Htr1).
  fold target p in Hprep, Htr1.
  destruct (fresh_target _ _ _ _ _ _ Hfresh Hnm) as [Hnone Hneq].
  destruct (fresh_name_fresh _ _ _ _ _ Hfresh) as [Hdir Hempty].
  fold target in Hnone, Hneq.
  unfold flash_image, bind at 1. rewrite Hprep.
  set (src := mkImageSource _ _ _ _).
  unfold try_finally, write_then_verify. unfold bind at 1.
  (* the stream *)
  set (w1' := (call_status scb "Starting write" w1).2).
  assert (fs w1' = fs w1 /\ same_env w1 w1' /\ trace w1' = trace w1)
    as (Hfs1' & Henv1' & Htr1').
  { subst w1'. rewrite call_status_events. cbn [snd].
    split; [done|]. split; [apply same_env_out|done]. }
  destruct (open_zip_first p w w1' data entry temp_dir rest payload)
    as (w2 & Ho & Hfs2 & Henv2 & Htr2); try done.
  { by rewrite Hfs1'. }
  { by eapply same_env_trans. }
  fold target in Ho, Hfs2, Htr2.
  pose proof (stream_image_to_device_dry src device_path chunk_size pcb scb
                w1 Hcs) as Hdry.
  cbv zeta in Hdry. cbn [open_stream src] in Hdry. fold w1' in Hdry.
  rewrite Ho in Hdry. cbn [fst snd st_fault st_data] in Hdry.
  destruct Hdry as [evs Hrun]; [by apply (same_env_memory w)|].
  rewrite Hrun.
  rewrite Bool.andb_false_r. unfold bind, ret.
  (* the cleanup *)
  destruct (cleanup_zip_restores (fs w) target temp_dir payload (out w2 evs))
    as (w3 & Hcl & Hfs3 & Henv3 & _ & Htr3); try done.
  { intros q Hqt Hqd. cbn [fs out].
    by rewrite Hfs2, !lookup_insert_ne. }
  { cbn [fs out]. by rewrite Hfs2, lookup_insert_eq. }
  { cbn [fs out]. by rewrite Hfs2, lookup_insert_ne, lookup_insert_eq. }
  { cbn [stat_fault out]. by rewrite (same_env_stat_fault w). }
  cbn [cleanup src]. rewrite Hcl.
  exists w3. split; [done|]. split.
  { rewrite Hfs3. cbn [fs out]. rewrite Hfs2.
    rewrite delete_insert_eq, delete_insert_ne, delete_insert_eq by done.
    rewrite (delete_id _ target) by done. by apply delete_id. }
  rewrite Htr3. cbn [trace out]. rewrite Htr2, Htr1', Htr1.
  rewrite (snoc3 (trace w ++ _)).
  rewrite !extractions_snoc, !cleanups_snoc. cbn [is_extract is_cleanup].
  split; lia.
Qed.

Lemma zip_dry_run_restores_the_file_system_witness :
  exists w',
    flash_image "/a/image.ZIP" "/dev/none" true 4 None None None true
      zip_world
    = (Return 10, w') /\
    fs w' = fs zip_world.
Proof.
  destruct (zip_dry_run_restores_the_file_system "/a/image.ZIP" "/dev/none"
              true 4 None None None zip_world [b 80; b 75]
              [mkZipInfo "img/" 0; mkZipInfo "img/disk.img" 10]
              (mkZipInfo "img/disk.img" 10) "/tmp/shark_etcher_zip_aaaa"
              ["bbbb"] sample_image)
    as (w' & Hrun & Hfs & _);
    [vm_compute; split; reflexivity|intros n; reflexivity
    |vm_compute; reflexivity|vm_compute; reflexivity
    |vm_compute; reflexivity|vm_compute; reflexivity|vm_compute; reflexivity
    |vm_compute; reflexivity|vm_compute; reflexivity|vm_compute; intros [=]
    |vm_compute; intros [=]|vm_compute; reflexivity
    |vm_compute; reflexivity|vm_compute; reflexivity|].
  exists w'. split; [exact Hrun|exact Hfs].
Defined.

Lemma extractions_app a c :
  extractions (a ++ c) = (extractions a + extractions c)%nat.
Proof. unfold extractions. by rewrite filter_app, length_app. Qed.

Lemma extractions_single call :
  extractions [call] = if is_extract call then 1%nat else 0%nat.
Proof. apply (extractions_snoc [] call). Qed.

Lemma extractions_none (P : SysCall -> Prop) calls :
  (forall call, P call -> is_extract call = false) ->
  Forall P calls -> extractions calls = 0%nat.
Proof.
  intros HP. induction 1 as [|call calls Hc _ IH]; [done|].
  change (call :: calls) with ([call] ++ calls).
  by rewrite extractions_app, IH, extractions_single, (HP call Hc).
Qed.

Lemma write_to_no_extract p call : write_to p call -> is_extract call = false.
Proof. by intros (off & chunk & ->). Qed.

Lemma read_of_no_extract p call : read_of p call -> is_extract call = false.
Proof. by intros [->|(off & cnt & ->)]. Qed.

(** X12: Flashing a ZIP archive that holds one image onto a block device
    that is large enough, with or without verification, with a chunk size of
    at least 1 and at most [MAX_RW_COUNT], memory for every buffer, and the
    archive, at its normalised path, the extracted file and the device open
    to [stat] and [open]: the entry is extracted once, also when the
    verification opens the stream a second time; [flash_image] returns the
    number of its bytes; afterwards the device begins with the image, the
    extracted file and the temporary directory are gone, and nothing else in
    the file system has changed. *)
Theorem zip_flash_removes_what_it_extracted image_path device_path verify
    chunk_size pcb vcb scb w data infos entry temp_dir rest payload old :
  let p := Path image_path in
  0 < chunk_size <= MAX_RW_COUNT ->
  enough_memory w ->
  stat_fault w p = None ->
  fs w !! p = Some (Regular data) ->
  last_suffix image_path = Some ".zip" ->
  open_fault w p O_RDONLY = None ->
  zip_infolist (codecs w) data = Return infos ->
  filter (fun info => is_dir info = false) infos = [entry] ->
  fresh_name (fs w) "shark_etcher_zip_" (tmp_names w)
  = Some (temp_dir, rest) ->
  let target := path_join temp_dir (path_name (filename entry)) in
  path_name (filename entry) <> "" ->
  path_name (filename entry) <> ".." ->
  stat_fault w target = None ->
  open_fault w target O_RDONLY = None ->
  zip_open (codecs w) data entry = Return (mkStream payload None) ->
  fs w !! device_path = Some (BlockDev old) ->
  open_fault w device_path O_RDWR = None ->
  open_fault w device_path O_RDONLY = None ->
  (length payload <= length old)%nat ->
  exists w',
    flash_image image_path device_path verify chunk_size pcb vcb scb false w
    = (Return (Z.of_nat (length payload)), w') /\
    fs w'
    = <[device_path := BlockDev (payload ++ drop (length payload) old)]>
        (fs w) /\
    extractions (trace w') = S (extractions (trace w)).
Proof.
  intros p Hcs Hmem Hstat Hreg Hsuf Hflt Hinfo He Hfresh target Hnm _ Hst
    Hflt' Hzip Hdev Hf2 Hf3 Hlen.
  destruct (prepare_zip_source _ _ _ _ _ _ _ Hstat Hreg Hsuf Hflt Hinfo He
              Hfresh)
    as (w1 & Hprep & Hfs1 & Henv1 & Htr1).
  fold target p in Hprep, Htr1.
  destruct (fresh_target _ _ _ _ _ _ Hfresh Hnm) as [Hnone Hneq].
  destruct (fresh_name_fresh _ _ _ _ _ Hfresh) as [Hdir Hempty].
  fold target in Hnone, Hneq.
  assert (device_path <> target) as Hdt by (intros ->; congruence).
  assert (device_path <> temp_dir) as Hdd by (intros ->; congruence).
  unfold flash_image, bind at 1. rewrite Hprep.
  set (src := mkImageSource _ _ _ _).
  unfold try_finally, write_then_verify. unfold bind at 1.
  (* the stream *)
  set (w1' := (call_status scb "Starting write" w1).2).
  assert (fs w1' = fs w1 /\ same_env w1 w1' /\ trace w1' = trace w1)
    as (Hfs1' & Henv1' & Htr1').
  { subst w1'. rewrite call_status_events. cbn [snd].
    split; [done|]. split; [apply same_env_out|done]. }
  destruct (open_zip_first p w w1' data entry temp_dir rest payload)
    as (w2 & Ho & Hfs2 & Henv2 & Htr2); try done.
  { by rewrite Hfs1'. }
  { by eapply same_env_trans. }
  fold target in Ho, Hfs2, Htr2.
  (* the write *)
  destruct (stream_image_to_device_block src device_path chunk_size pcb scb
              w1 payload w2 old Hcs Ho)
    as (w3 & Hrun & Hfs3 & Henv3 & _ & _ & wcalls & Htr3 & Hwcalls).
  { by apply (same_env_memory w). }
  { by rewrite Hfs2, !lookup_insert_ne. }
  { by rewrite (same_env_open_fault w). }
  rewrite chunk_beyond_fits in Hrun by (done || lia).
  rewrite take_ge in Hfs3 by done.
  rewrite Hrun. cbn [negb]. rewrite Bool.andb_true_r.
  assert (same_env w w3) as Henv03 by (by eapply same_env_trans).
  assert (exists w4 calls,
            (do (if verify
                 then verify_device_contents src device_path chunk_size
                        (or_else vcb pcb) scb
                 else ret tt) then
             ret (Z.of_nat (length payload))) w3
            = (Return (Z.of_nat (length payload)), w4) /\
            fs w4 = fs w3 /\ same_env w w4 /\
            trace w4 = trace w3 ++ calls /\ extractions calls = 0%nat)
    as (w4 & vcalls & -> & Hfs4 & Henv4 & Htr4 & Hx4).
  { destruct verify.
    2:{ exists w3, []. unfold bind, ret.
        split; [done|]. split; [done|]. split; [done|].
        by rewrite app_nil_r. }
    set (w3' := (call_status scb "Starting verification" w3).2).
    assert (fs w3' = fs w3 /\ same_env w w3' /\ trace w3' = trace w3)
      as (Hfs3' & Henv3' & Htr3').
    { subst w3'. rewrite call_status_events. cbn [snd].
      split; [done|]. split; [|done].
      eapply same_env_trans; [exact Henv03|apply same_env_out]. }
    assert (open_stream src w3'
            = (Return (mkStream payload None),
               add_trace (SysOpen target O_RDONLY) w3')) as Ho3.
    { cbn [open_stream src]. rewrite make_stream_zip_reuses.
      2:{ by rewrite (same_env_stat_fault w). }
      2:{ rewrite Hfs3', Hfs3, Hfs2.
          rewrite lookup_insert_ne, lookup_insert_eq by done. eauto. }
      unfold bind. rewrite (open_rb_ok target w3' payload); [done|..].
      - unfold contents. rewrite Hfs3', Hfs3, Hfs2.
        by rewrite lookup_insert_ne, lookup_insert_eq.
      - by rewrite (same_env_open_fault w). }
    destruct (verify_device_contents_match src device_path chunk_size
                (or_else vcb pcb) scb w3 payload _
                (payload ++ drop (length payload) old) ltac:(lia) Ho3)
      as (w4 & Hv & Hfs4 & Henv4).
    { apply (same_env_memory w); [|done].
      eapply same_env_trans; [exact Henv3'|apply same_env_add_trace]. }
    { unfold contents. cbn [fs add_trace].
      by rewrite Hfs3', Hfs3, lookup_insert_eq. }
    { cbn [open_fault add_trace]. by rewrite (same_env_open_fault w). }
    { by rewrite take_app_length. }
    destruct (verify_device_contents_reads src device_path chunk_size
                (or_else vcb pcb) scb w3) as (_ & rcalls & Htr & Hrc).
    fold w3' in Htr. rewrite Ho3, Hv in Htr. cbn [snd trace add_trace] in Htr.
    exists w4, ([SysOpen target O_RDONLY] ++ rcalls).
    unfold bind, ret. rewrite Hv.
    split; [done|]. split; [by rewrite Hfs4|]. split.
    { eapply same_env_trans; [exact Henv3'|].
      eapply same_env_trans; [apply same_env_add_trace|exact Henv4]. }
    split; [by rewrite Htr, Htr3', <- (assoc (++))|].
    rewrite extractions_app, extractions_single.
    by rewrite (extractions_none _ _ (read_of_no_extract device_path) Hrc). }
  (* the cleanup *)
  destruct (cleanup_zip_restores (fs w) target temp_dir payload w4)
    as (w5 & Hcl & Hfs5 & Henv5 & _ & Htr5); try done.
  { intros q Hqt Hqd. rewrite Hfs4, Hfs3, Hfs2.
    destruct (decide (q = device_path)) as [->|Hqv]; [by rewrite Hdev|].
    by rewrite !lookup_insert_ne. }
  { rewrite Hfs4, Hfs3, Hfs2.
    by rewrite lookup_insert_ne, lookup_insert_eq. }
  { rewrite Hfs4, Hfs3, Hfs2.
    rewrite !lookup_insert_ne by done. by rewrite lookup_insert_eq. }
  { by rewrite (same_env_stat_fault w). }
  cbn [cleanup src]. rewrite Hcl.
  exists w5. split; [done|]. split.
  { rewrite Hfs5, Hfs4, Hfs3, Hfs2. apply map_eq. intros q.
    destruct (decide (q = temp_dir)) as [->|Hqd].
    { by rewrite lookup_delete_eq, lookup_insert_ne, Hdir. }
    rewrite lookup_delete_ne by done.
    destruct (decide (q = target)) as [->|Hqt].
    { by rewrite lookup_delete_eq, lookup_insert_ne, Hnone. }
    rewrite lookup_delete_ne by done.
    destruct (decide (q = device_path)) as [->|Hqv].
    { by rewrite !lookup_insert_eq. }
    by rewrite !lookup_insert_ne. }
  rewrite Htr5, Htr4, Htr3, Htr2, Htr1', Htr1.
  rewrite (snoc3 (trace w ++ _)).
  change (SysOpen device_path O_RDWR :: wcalls)
    with ([SysOpen device_path O_RDWR] ++ wcalls).
  rewrite !extractions_app, !extractions_single, Hx4.
  rewrite (extractions_none _ _ (write_to_no_extract device_path) Hwcalls).
  cbn [is_extract]. lia.
Qed.

Lemma zip_flash_removes_what_it_extracted_witness :
  exists w',
    flash_image "/a/image.ZIP" "/dev/sdb" true 4 None None None false
      zip_device_world
    = (Return 10, w') /\
    fs w' = <["/dev/sdb" := BlockDev (sample_image ++ [b 0; b 0])]>
              (fs zip_device_world).
Proof.
  destruct (zip_flash_removes_what_it_extracted "/a/image.ZIP" "/dev/sdb"
              true 4 None None None zip_device_world [b 80; b 75]
              [mkZipInfo "img/" 0; mkZipInfo "img/disk.img" 10]
              (mkZipInfo "img/disk.img" 10) "/tmp/shark_etcher_zip_aaaa"
              ["bbbb"] sample_image (replicate 12 (b 0)))
    as (w' & Hrun & Hfs & _);
    [vm_compute; split; [done|discriminate]|intros n; reflexivity
    |vm_compute; reflexivity|vm_compute; reflexivity
    |vm_compute; reflexivity|vm_compute; reflexivity|vm_compute; reflexivity
    |vm_compute; reflexivity|vm_compute; reflexivity|vm_compute; intros [=]
    |vm_compute; intros [=]|vm_compute; reflexivity
    |vm_compute; reflexivity|vm_compute; reflexivity|vm_compute; reflexivity
    |vm_compute; reflexivity|vm_compute; reflexivity|simpl; lia|].
  exists w'. split; [exact Hrun|exact Hfs].
Defined.

(** ** A dry run changes nothing *)

Lemma keeps_files_refl w : keeps_files w w.
Proof. by intros q _. Qed.

Lemma keeps_files_trans w1 w2 w3 :
  keeps_files w1 w2 -> keeps_files w2 w3 -> keeps_files w1 w3.
Proof.
  intros H12 H23 q Hq. rewrite <- (H12 q Hq). apply H23.
  by rewrite (H12 q Hq).
Qed.

Lemma keeps_files_fs w w' : fs w' = fs w -> keeps_files w w'.
Proof. intros Hfs q _. by rewrite Hfs. Qed.

Lemma keeps_files_mkdtemp prefix : through keeps_files (mkdtemp prefix).
Proof.
  intros w. unfold mkdtemp.
  destruct (fresh_name _ _ _) as [[p rest]|] eqn:Hfresh;
    [|apply keeps_files_refl].
  destruct (fresh_name_fresh _ _ _ _ _ Hfresh) as [Hnone _].
  intros q [v Hq]. cbn [snd fs set_fs set_tmp_names].
  rewrite lookup_insert_ne; [done|]. intros ->. congruence.
Qed.

Lemma keeps_files_prepare_image_source p :
  through keeps_files (prepare_image_source p).
Proof.
  apply through_prepare_image_source.
  - apply keeps_files_refl.
  - apply keeps_files_trans.
  - intros w call. by apply keeps_files_fs.
  - apply keeps_files_mkdtemp.
Qed.

(** The extraction writes the target and nothing else. *)
Lemma agree_off_ensure_extracted p target entry :
  through (agree_off [target]) (ensure_extracted p target entry).
Proof.
  unfold ensure_extracted.
  apply through_bind; [apply agree_off_trans|..].
  { apply through_path_exists, agree_off_refl. }
  intros present. destruct present.
  { apply through_ret, agree_off_refl. }
  apply through_bind; [apply agree_off_trans|..].
  { apply through_open_rb;
      [apply agree_off_refl|apply agree_off_trans|apply agree_off_add_trace]. }
  intros data. apply through_bind; [apply agree_off_trans|..].
  { apply (through_codec _ (agree_off_refl _)
             (fun w => zip_open (codecs w) data entry)). }
  intros source. apply through_bind; [apply agree_off_trans|..].
  { intros w. unfold copy_to_file, bind, syscall.
    assert (agree_off [target] w
              (set_fs (<[target:=Regular (st_data source)]>
                         (fs (add_trace (SysExtract p target) w)))
                 (add_trace (SysExtract p target) w))) as Hw.
    { intros q Hq. cbn [fs set_fs add_trace].
      rewrite lookup_insert_ne; [done|]. intros ->. apply Hq.
      apply list_elem_of_here. }
    by destruct (st_fault source). }
  intros _. apply through_ret, agree_off_refl.
Qed.

(** The world after [prepare_image_source]: it is as before, or it has a
    new temporary directory for an extracted file that is not there yet. *)
Lemma prepare_image_source_fresh p w src w1 :
  prepare_image_source p w = (Return src, w1) ->
  (fs w1 = fs w /\ cleanup src = run_cleanup [] /\
   forall w', fs (open_stream src w').2 = fs w') \/
  (exists p' target entry temp_dir,
     open_stream src = make_stream_zip p' target entry /\
     cleanup src = run_cleanup [zip_cleanup target temp_dir] /\
     fs w !! temp_dir = None /\ fs w !! target = None /\
     agree_off [target; temp_dir] w w1).
Proof.
  assert (forall q w', fs (open_rb q w').2 = fs w') as Hrb.
  { intros q w'. by rewrite open_rb_world. }
  assert (forall q w', fs (make_stream_raw q w').2 = fs w') as Hraw.
  { intros q w'. unfold make_stream_raw, bind. specialize (Hrb q w').
    by destruct (open_rb q w') as [[d|e] w'']. }
  assert (forall decode q w', fs (make_stream_codec decode q w').2 = fs w')
    as Hcodec.
  { intros decode q w'. unfold make_stream_codec, bind.
    specialize (Hrb q w'). by destruct (open_rb q w') as [[d|e] w'']. }
  unfold prepare_image_source. cbv zeta. generalize (Path p). intros q0.
  unfold bind at 1.
  pose proof (path_exists_world q0 w) as Hw0.
  destruct (path_exists q0 w) as [[present|e] w0]; [|done].
  cbn [snd] in Hw0. subst w0.
  destruct (negb _); [done|].
  unfold bind at 1.
  pose proof (path_is_file_world q0 w) as Hw0.
  destruct (path_is_file q0 w) as [[regular|e] w0]; [|done].
  cbn [snd] in Hw0. subst w0.
  destruct (negb _); [done|].
  unfold bind at 1.
  pose proof (stat_size_world q0 w) as Hst.
  destruct (stat_size q0 w) as [[st_size|e] w0]; [|done].
  cbn [snd] in Hst. subst w0.
  assert (forall sz nm,
            cleanup (mkImageSource (make_stream_raw q0) sz nm (run_cleanup []))
            = run_cleanup [] /\
            forall w', fs (open_stream
                             (mkImageSource (make_stream_raw q0) sz nm
                                (run_cleanup [])) w').2 = fs w') as Hplain.
  { intros sz nm. split; [done|]. intros w'. apply Hraw. }
  destruct (last _) as [suffix|]; [|intros [= <- <-]; left; by split].
  repeat (case_bool_decide;
          [intros [= <- <-]; left; split; [done|]; split; [done|];
           intros w'; apply Hcodec|]).
  case_bool_decide; [|intros [= <- <-]; left; by split].
  unfold bind at 1. pose proof (open_rb_world q0 w) as Hw2.
  destruct (open_rb q0 w) as [[data|e] w2]; [|done].
  cbn [snd] in Hw2. subst w2.
  unfold bind at 1.
  destruct (zip_infolist _ data) as [infos|e]; [|done].
  case_bool_decide; [done|].
  destruct (filter _ infos) as [|entry entries]; [done|].
  unfold bind, mkdtemp. cbn [fs tmp_names add_trace].
  destruct (fresh_name _ _ _) as [[temp_dir rest]|] eqn:Hfresh; [|done].
  intros [= <- <-]. right.
  destruct (fresh_name_fresh _ _ _ _ _ Hfresh) as [Hdir Hempty].
  eexists _, _, _, _. split; [reflexivity|]. split; [reflexivity|].
  split; [done|]. split.
  - destruct (path_name (filename entry)) as [|c nm] eqn:Hnm; [done|].
    eapply (fresh_target _ _ _ _ _ (String c nm)); [exact Hfresh|done].
  - intros q Hq. cbn [fs set_tmp_names set_fs add_trace].
    rewrite lookup_insert_ne; [done|]. intros ->. apply Hq.
    apply list_elem_of_further, list_elem_of_here.
Qed.

(** The cleanup of a source without temporary files. *)
Lemma run_cleanup_nil w : run_cleanup [] w = (Return tt, add_trace SysCleanup w).
Proof. done. Qed.

Lemma run_cleanup_zip target temp_dir w :
  exists w',
    run_cleanup [zip_cleanup target temp_dir] w = (Return tt, w') /\
    agree_off [target; temp_dir] w w'.
Proof.
  unfold run_cleanup, bind, syscall. cbn [run_callbacks].
  unfold bind, try_except.
  destruct (zip_cleanup_spec target temp_dir (add_trace SysCleanup w))
    as (w' & -> & Hoff & _).
  exists w'. split; [done|].
  eapply agree_off_trans; [apply agree_off_add_trace|exact Hoff].
Qed.

(** The file system after the write operation of a dry run is the one
    after the stream has been opened. *)
Lemma dry_run_body_fs src device_path verify chunk_size pcb vcb scb w :
  fs (write_then_verify src device_path verify chunk_size pcb vcb scb true
        w).2
  = fs w \/
  fs (write_then_verify src device_path verify chunk_size pcb vcb scb true
        w).2
  = fs (open_stream src (call_status scb "Starting write" w).2).2.
Proof.
  unfold write_then_verify. rewrite Bool.andb_false_r. unfold bind.
  destruct (Z.leb_spec chunk_size 0) as [Hle|Hgt].
  - left. by rewrite stream_image_to_device_guard.
  - right.
    destruct (stream_image_to_device_dry_world src device_path chunk_size
                pcb scb w Hgt) as [evs Hw].
    destruct (stream_image_to_device _ _ _ _ _ _ w) as [r w2].
    cbn [snd] in Hw. subst w2. by destruct r.
Qed.

Lemma flash_image_dry_run_keeps_files image_path device_path verify
    chunk_size pcb vcb scb w :
  keeps_files w
    (flash_image image_path device_path verify chunk_size pcb vcb scb true
       w).2.
Proof.
  unfold flash_image, bind.
  pose proof (keeps_files_prepare_image_source image_path w) as Hkeep.
  destruct (prepare_image_source image_path w) as [[src|e] w1] eqn:Hprep;
    [|done].
  unfold try_finally.
  pose proof (dry_run_body_fs src device_path verify chunk_size pcb vcb scb
                w1) as Hbody.
  destruct (write_then_verify src device_path verify chunk_size pcb vcb scb
              true w1) as [r w2].
  cbn [snd] in Hbody.
  assert (fs (call_status scb "Starting write" w1).2 = fs w1) as Hst
    by (by rewrite call_status_events).
  destruct (prepare_image_source_fresh _ _ _ _ Hprep)
    as [(Hfs1 & Hcl & Hopen)
       |(p' & target & entry & temp_dir & Hopen & Hcl & Hd & Ht & Hoff1)].
  - rewrite Hcl, run_cleanup_nil. cbn [snd].
    apply keeps_files_fs. cbn [fs add_trace].
    destruct Hbody as [->| ->]; [done|]. by rewrite Hopen, Hst.
  - rewrite Hcl.
    destruct (run_cleanup_zip target temp_dir w2) as (w3 & -> & Hoff3).
    cbn [snd].
    assert (agree_off [target; temp_dir] w1 w2) as Hoff2.
    { destruct Hbody as [Hb|Hb]; [by apply agree_off_fs|].
      intros q Hq. rewrite Hb, Hopen.
      pose proof (through_make_stream_zip (agree_off [target])
                    (agree_off_refl _) (agree_off_trans _)
                    (agree_off_add_trace _) p' target entry
                    (agree_off_ensure_extracted p' target entry)
                    (call_status scb "Starting write" w1).2) as Ho.
      rewrite Ho, Hst; [done|]. intros Hin. apply Hq.
      apply elem_of_cons. left. by apply list_elem_of_singleton in Hin. }
    intros q [v Hq].
    rewrite (Hoff3 q), (Hoff2 q), (Hoff1 q); [done|..];
      intros Hin; apply elem_of_cons in Hin as [->|Hin];
      try apply list_elem_of_singleton in Hin as ->; congruence.
Qed.

Section DryRunWorker.
Context `{SetOrder}.

(** In a dry run the worker looks the device up and unmounts nothing. *)
Lemma worker_unmount_dry_run device w :
  exists returned evs,
    worker_unmount device true w = (returned, out w evs) /\
    forall code, returned <> Return (Some code).
Proof.
  rewrite worker_unmount_eq.
  pose proof (find_device_by_path_world device false w) as Hw.
  destruct (find_device_by_path device false w) as [[[info|]|e] w0];
    cbn [snd] in Hw; subst w0.
  - rewrite Bool.andb_false_r. exists (Return None), [].
    by rewrite out_nil.
  - unfold bind. rewrite emit_out. by eexists _, _.
  - exists (Raise e), []. by rewrite out_nil.
Qed.

(** X13: The worker in a dry run: it runs none of the commands of the
    unmount phase ([findmnt], [umount], [udisksctl]), so that nothing is
    unmounted, and every file, directory and device that exists when it
    starts is the same when it ends, whatever the arguments are and
    however the operation ends. *)
Theorem dry_run_worker_changes_nothing args w :
  arg_dry_run args = true ->
  proc_log (_run_worker args w).2 = proc_log w /\
  keeps_files w (_run_worker args w).2.
Proof.
  intros Hdry. destruct (_run_worker args w) as [r w'] eqn:Hrun.
  cbn [snd]. revert Hrun. unfold _run_worker.
  destruct (negb _ || negb _)%bool.
  { unfold bind. rewrite emit_out. intros [= _ <-].
    split; [done|]. by apply keeps_files_fs. }
  unfold bind at 1. rewrite Hdry.
  destruct (worker_unmount_dry_run (default EmptyString (arg_device args)) w)
    as (returned & evs & -> & Hnone).
  set (image := default EmptyString (arg_image args)).
  set (device := default EmptyString (arg_device args)).
  set (w1 := out w evs).
  destruct returned as [[code|]|e];
    [by destruct (Hnone code)| |
     intros [= _ <-]; split; [done|by apply keeps_files_fs]].
  unfold try_except_else.
  pose proof (same_env_flash_image image device (arg_verify args)
                (arg_chunk_size args)
                (Some (fun current total => EvProgress PhaseWrite current total))
                (Some (fun current total => EvProgress PhaseVerify current total))
                (Some (fun message => EvStatus message)) true w1) as Henv.
  pose proof (flash_image_dry_run_keeps_files image device (arg_verify args)
                (arg_chunk_size args)
                (Some (fun current total => EvProgress PhaseWrite current total))
                (Some (fun current total => EvProgress PhaseVerify current total))
                (Some (fun message => EvStatus message)) w1) as Hkeep.
  destruct (flash_image _ _ _ _ _ _ _ true w1) as [[written|e] w2];
    cbn [snd] in Henv, Hkeep.
  - unfold bind. rewrite emit_out. intros [= _ <-]. cbn [proc_log out fs].
    rewrite (same_env_proc_log w1) by done. split; [done|].
    intros q Hq. cbn [fs out]. by rewrite (Hkeep q Hq).
  - destruct (worker_handlers_spec true e) as (code & msg & -> & _).
    unfold bind. rewrite emit_out. intros [= _ <-]. cbn [proc_log out fs].
    rewrite (same_env_proc_log w1) by done. split; [done|].
    intros q Hq. cbn [fs out]. by rewrite (Hkeep q Hq).
Qed.

End DryRunWorker.

Lemma dry_run_worker_changes_nothing_witness :
  (_run_worker (mkArgs (Some "/a/image.ZIP") (Some "/dev/sdb") true true 4)
     zip_device_world).1 = Return 0 /\
  proc_log
    (_run_worker (mkArgs (Some "/a/image.ZIP") (Some "/dev/sdb") true true 4)
       zip_device_world).2 = [].
Proof.
  split; [vm_compute; reflexivity|].
  apply (dry_run_worker_changes_nothing
           (mkArgs (Some "/a/image.ZIP") (Some "/dev/sdb") true true 4)
           zip_device_world).
  reflexivity.
Defined.

(** ** The worker *)

Lemma opt_truthy_true s : s <> "" -> opt_truthy (Some s) = true.
Proof. intros Hs. by apply truthy_nonempty. Qed.

Section WorkerRuns.
Context `{SetOrder}.

Lemma unmount_device_nothing_mounted device w :
  mountpoints device = [] -> unmount_device device w = (Return [], w).
Proof.
  intros Hm. unfold unmount_device, unmount_targets. rewrite Hm.
  rewrite filter_nil.
  assert (set_iter [] = []) as ->.
  { destruct (set_iter []) as [|x l] eqn:Hs; [done|].
    assert (x ∈ set_iter []) as Hx by (rewrite Hs; apply list_elem_of_here).
    apply (proj1 (set_iter_elem [] x)) in Hx. by apply elem_of_nil in Hx. }
  done.
Qed.

(** X14: When a mountpoint of the device cannot be unmounted, the worker
    stops there: it returns 10 after the status and the error record, and
    it has not opened the image or the device, and has written nothing. *)
Theorem failed_unmount_stops_the_worker args image device info msg partial w :
  arg_image args = Some image -> image <> "" ->
  arg_device args = Some device -> device <> "" ->
  arg_dry_run args = false ->
  find_device_by_path device false w = (Return (Some info), w) ->
  (unmount_device info (add_stdout (EvStatus ("Unmounting " +:+ device)) w)).1
  = Raise (UnmountError msg partial) ->
  exists w',
    _run_worker args w = (Return 10, w') /\
    stdout w'
    = stdout w ++ [EvStatus ("Unmounting " +:+ device); EvError msg] /\
    fs w' = fs w /\ trace w' = trace w.
Proof.
  intros Hi Hin Hd Hdn Hdry Hfind Hun. unfold _run_worker.
  rewrite Hi, Hd, !opt_truthy_true by done. cbn [negb orb default]. unfold id.
  unfold bind at 1, worker_unmount. unfold bind at 1. rewrite Hfind, Hdry.
  assert (mountpoints info <> []) as Hm.
  { intros Hm. by rewrite unmount_device_nothing_mounted in Hun. }
  rewrite bool_decide_true by done. cbn [negb andb].
  unfold bind at 1. rewrite emit_out. unfold try_except_else.
  change (add_stdout (EvStatus ("Unmounting " +:+ device)) w)
    with (out w [EvStatus ("Unmounting " +:+ device)]) in Hun.
  destruct (unmount_device_outcome info
              (out w [EvStatus ("Unmounting " +:+ device)]))
    as (cmds & Hw).
  destruct (unmount_device info _) as [r w1]. cbn [fst snd] in Hun, Hw.
  subst r w1. cbn [exn_str]. unfold bind at 1. rewrite emit_out.
  eexists. split; [reflexivity|]. cbn [stdout fs trace out ran].
  split; [by rewrite <- (assoc (++))|done].
Qed.

Lemma worker_unmount_nothing_mounted device dry_run found w :
  find_device_by_path device false w = (Return found, w) ->
  (forall info, found = Some info -> mountpoints info = []) ->
  exists evs, worker_unmount device dry_run w = (Return None, out w evs).
Proof.
  intros Hfind Hm. rewrite worker_unmount_eq, Hfind.
  destruct found as [info|].
  - rewrite (Hm info eq_refl). rewrite bool_decide_false by (by intros []).
    exists []. by rewrite out_nil.
  - unfold bind. rewrite emit_out. by eexists.
Qed.

(** X15: The worker from its arguments to the [done] record: with an image
    that is no ZIP archive, a block device that is large enough, a lookup
    of the device that returns and finds nothing mounted, a chunk size of
    at least 1 and at most [MAX_RW_COUNT], memory for every buffer, and no
    fault on the way, the worker returns 0, its
    last record is [done] with the number of bytes of the image, the
    device begins with the image, and no unmount command has been run. *)
Theorem worker_flashes_and_reports_done args image device found w data img
    old :
  arg_image args = Some image -> image <> "" ->
  arg_device args = Some device -> device <> "" ->
  arg_dry_run args = false ->
  0 < arg_chunk_size args <= MAX_RW_COUNT ->
  enough_memory w ->
  find_device_by_path device false w = (Return found, w) ->
  (forall info, found = Some info -> mountpoints info = []) ->
  stat_fault w (Path image) = None ->
  fs w !! Path image = Some (Regular data) ->
  last_suffix image <> Some ".zip" ->
  decoded (codecs w) (last_suffix image) data = mkStream img None ->
  fs w !! device = Some (BlockDev old) ->
  open_fault w (Path image) O_RDONLY = None ->
  open_fault w device O_RDWR = None ->
  open_fault w device O_RDONLY = None ->
  (length img <= length old)%nat ->
  exists w',
    _run_worker args w = (Return 0, w') /\
    last (stdout w') = Some (EvDone (Z.of_nat (length img)) false) /\
    fs w' = <[device := BlockDev (img ++ drop (length img) old)]> (fs w) /\
    proc_log w' = proc_log w.
Proof.
  intros Hi Hin Hd Hdn Hdry Hcs Hmem Hfind Hm Hstat Hreg Hzip Hdec Hdev Hf1
    Hf2 Hf3 Hlen.
  unfold _run_worker.
  rewrite Hi, Hd, !opt_truthy_true by done. cbn [negb orb default]. unfold id.
  unfold bind at 1.
  destruct (worker_unmount_nothing_mounted device (arg_dry_run args) found w
              Hfind Hm)
    as [evs ->].
  rewrite Hdry. unfold try_except_else.
  destruct (flash_image_writes_and_verifies image device (arg_verify args)
              (arg_chunk_size args)
              (Some (fun current total => EvProgress PhaseWrite current total))
              (Some (fun current total => EvProgress PhaseVerify current total))
              (Some (fun message => EvStatus message))
              (out w evs) data img old)
    as (w' & -> & Hfs & Henv); try done.
  unfold bind. rewrite emit_out. eexists. split; [reflexivity|].
  cbn [stdout fs proc_log out].
  split; [by rewrite last_snoc|]. split; [done|].
  by rewrite (same_env_proc_log (out w evs)).
Qed.

End WorkerRuns.

Lemma failed_unmount_stops_the_worker_witness :
  exists w',
    _run_worker (mkArgs (Some "/img.bin") (Some "/dev/sdb") true false 4)
      mounted_world
    = (Return 10, w') /\
    fs w' = fs mounted_world /\ trace w' = [].
Proof.
  destruct (failed_unmount_stops_the_worker
              (mkArgs (Some "/img.bin") (Some "/dev/sdb") true false 4)
              "/img.bin" "/dev/sdb" sample_device
              "Failed to unmount: /mnt/usb/boot, /mnt/usb, /mnt" []
              mounted_world)
    as (w' & Hrun & _ & Hfs & Htr);
    [reflexivity|vm_compute; intros [=]|reflexivity|vm_compute; intros [=]
    |reflexivity|vm_compute; reflexivity|vm_compute; reflexivity|].
  exists w'. split; [exact Hrun|]. split; [exact Hfs|exact Htr].
Defined.

Lemma worker_flashes_and_reports_done_witness :
  exists w',
    _run_worker (mkArgs (Some "/img.bin") (Some "/dev/sdb") true false 4)
      (sample_world (replicate 12 (b 0)))
    = (Return 0, w') /\
    last (stdout w') = Some (EvDone 10 false).
Proof.
  destruct (worker_flashes_and_reports_done
              (mkArgs (Some "/img.bin") (Some "/dev/sdb") true false 4)
              "/img.bin" "/dev/sdb" None
              (sample_world (replicate 12 (b 0)))
              sample_image sample_image (replicate 12 (b 0)))
    as (w' & Hrun & Hlast & _);
    [reflexivity|vm_compute; intros [=]|reflexivity|vm_compute; intros [=]
    |reflexivity|vm_compute; split; [done|discriminate]
    |intros n; reflexivity|vm_compute; reflexivity
    |intros info Hf; discriminate Hf|reflexivity
    |vm_compute; reflexivity|vm_compute; intros [=]|vm_compute; reflexivity
    |vm_compute; reflexivity|vm_compute; reflexivity|vm_compute; reflexivity
    |vm_compute; reflexivity|simpl; lia|].
  exists w'. split; [exact Hrun|exact Hlast].
Defined.

(** ** Progress *)

Lemma write_loop_dry_events fuel cs cb total d buffer n w :
  0 < cs < 2 ^ 63 -> enough_memory w -> (length d < fuel)%nat ->
  write_loop fuel cs false cb total (mkStream d None) (BytesIO buffer) n w
  = (Return (n + Z.of_nat (length d)),
     out w (progress_events cb total
              (map (Z.add n) (progress_marks cs (length d))))).
Proof.
  intros Hcs. assert (0 < cs) as Hpos by lia. revert d buffer n w.
  induction fuel as [|fuel IH]; intros d buffer n w Hmem Hf; [lia|].
  destruct d as [|x d].
  - cbn [write_loop]. unfold bind at 1. rewrite stream_read_end by done.
    rewrite bool_decide_true by done. cbn [length].
    rewrite progress_marks_nil by done. cbn [map].
    rewrite progress_events_nil, out_nil. unfold ret. do 2 f_equal. lia.
  - cbn [write_loop]. unfold bind at 1. rewrite stream_read_pos by done.
    set (k := Z.to_nat cs). assert (0 < k)%nat as Hk by lia.
    set (rest := x :: d) in *.
    assert (0 < length rest)%nat as Hn by (subst rest; simpl; lia).
    set (chunk := take k rest).
    assert (length chunk = Nat.min k (length rest)) as Hlc
      by (subst chunk; apply length_take).
    rewrite bool_decide_false
      by (subst chunk rest; destruct k; [lia|done]).
    unfold bind at 1. cbn [dest_write]. rewrite Hmem.
    unfold bind at 1. unfold ret at 1.
    unfold bind at 1. rewrite call_progress_events.
    rewrite IH by (exact Hmem || (rewrite length_drop; lia)).
    rewrite out_out, length_drop. f_equal; [f_equal; lia|]. f_equal.
    destruct (decide (length rest <= k)%nat) as [Hle|Hgt].
    + replace (length rest - k)%nat with 0%nat by lia.
      rewrite progress_marks_nil, (progress_marks_last cs (length rest))
        by (done || lia).
      cbn [map]. rewrite progress_events_nil, app_nil_r.
      do 2 f_equal. lia.
    + rewrite (progress_marks_step cs (length rest)) by (done || lia).
      fold k. cbn [map].
      rewrite (progress_events_cons _ _ (n + cs)).
      f_equal; [do 2 f_equal; lia|]. f_equal.
      rewrite <- list_fmap_compose. apply list_fmap_ext.
      intros i y _. unfold compose. subst k. lia.
Qed.

Lemma progress_marks_length cs n :
  0 < cs ->
  Z.of_nat (length (progress_marks cs n)) = (Z.of_nat n + cs - 1) / cs.
Proof.
  intros Hcs. unfold progress_marks. rewrite length_map, length_seq.
  destruct (ceil_div_bounds (Z.of_nat n) cs Hcs ltac:(lia)) as (_&_&?). lia.
Qed.

Lemma progress_marks_lookup cs n i m :
  0 < cs -> progress_marks cs n !! i = Some m ->
  m = Z.min (Z.of_nat (S i) * cs) (Z.of_nat n) /\
  Z.of_nat i * cs < Z.of_nat n.
Proof.
  intros Hcs. unfold progress_marks. rewrite list_lookup_fmap.
  destruct (seq 0 _ !! i) as [j|] eqn:Hj; [|done].
  apply lookup_seq in Hj as [-> Hlt]. intros [= <-]. split; [done|].
  destruct (ceil_div_bounds (Z.of_nat n) cs Hcs ltac:(lia)) as (Hq&_&_).
  cbn [Nat.add]. nia.
Qed.

Lemma progress_marks_final cs n :
  0 < cs -> (0 < n)%nat -> last (progress_marks cs n) = Some (Z.of_nat n).
Proof.
  intros Hcs Hn. unfold progress_marks.
  destruct (ceil_div_bounds (Z.of_nat n) cs Hcs ltac:(lia)) as (H1&H2&H3).
  set (q := (Z.of_nat n + cs - 1) / cs) in *.
  assert (1 <= q) by nia.
  replace (Z.to_nat q) with (S (Z.to_nat (q - 1))) by lia.
  rewrite seq_S, map_app. cbn [map]. rewrite last_snoc. cbn [Nat.add]. f_equal. nia.
Qed.

(** X16: Progress in a dry run, with a chunk size of at least 1 and below
    [2 ^ 63] and memory for every buffer: after the stream has been opened the
    operation writes one progress record after every chunk, with the number
    of bytes read so far and the size of the source, and then the closing
    status; nothing else in the world changes.  The counts grow by the chunk
    size, there are as many as there are chunks, and the last one is the
    length of the image. *)
Theorem dry_run_reports_progress_per_chunk image_source device_path
    chunk_size pcb scb w img w1 :
  0 < chunk_size < 2 ^ 63 ->
  open_stream image_source (call_status scb "Starting write" w).2
  = (Return (mkStream img None), w1) ->
  enough_memory w1 ->
  let marks := progress_marks chunk_size (length img) in
  stream_image_to_device image_source device_path chunk_size pcb scb true w
  = (Return (Z.of_nat (length img)),
     out w1 (progress_events pcb (image_size image_source) marks
               ++ status_events scb "Write completed")) /\
  (forall i m,
     marks !! i = Some m ->
     m = Z.min (Z.of_nat (S i) * chunk_size) (Z.of_nat (length img))) /\
  Z.of_nat (length marks)
  = (Z.of_nat (length img) + chunk_size - 1) / chunk_size /\
  (img <> [] -> last marks = Some (Z.of_nat (length img))).
Proof.
  intros Hcs Ho Hmem marks. assert (0 < chunk_size) as Hpos by lia.
  split; [|split; [|split]].
  - unfold stream_image_to_device.
    destruct (Z.leb_spec chunk_size 0); [lia|].
    unfold bind at 1. rewrite call_status_events in Ho |- *.
    cbn [snd] in Ho. unfold bind at 1, try_except at 1. rewrite Ho.
    unfold bind at 1, ret at 1. cbn [negb st_data]. unfold bind at 1.
    rewrite write_loop_dry_events by (done || lia).
    unfold bind. rewrite call_status_events, out_out, map_add_0.
    unfold ret. f_equal.
  - intros i m Hm. by apply progress_marks_lookup in Hm as [-> _].
  - by apply progress_marks_length.
  - intros Hne. apply progress_marks_final; [done|].
    destruct img; [done|simpl; lia].
Qed.

Lemma dry_run_reports_progress_per_chunk_witness :
  stdout
    (stream_image_to_device sample_source "/dev/sdb" 4
       (Some (fun current total => EvProgress PhaseWrite current total))
       None true (sample_world [])).2
  = [EvProgress PhaseWrite 4 (Some 10); EvProgress PhaseWrite 8 (Some 10);
     EvProgress PhaseWrite 10 (Some 10)].
Proof.
  set (w := sample_world []).
  assert (open_stream sample_source (call_status None "Starting write" w).2
          = (Return (mkStream sample_image None),
             add_trace (SysOpen "/img.bin" O_RDONLY) w)) as Ho
    by (vm_compute; reflexivity).
  destruct (dry_run_reports_progress_per_chunk sample_source "/dev/sdb" 4
              (Some (fun current total => EvProgress PhaseWrite current total))
              None w sample_image _ ltac:(vm_compute; split; reflexivity) Ho
              ltac:(intros n; reflexivity)) as (Hrun & _).
  rewrite Hrun. vm_compute. reflexivity.
Defined.

(** ** Unmounting one target *)

Lemma passed_over_ran w a c cmd :
  passed_over (ran w a) c cmd = passed_over w (a ++ c) cmd.
Proof.
  unfold passed_over. cbn [proc_oracle proc_log ran]. by rewrite app_assoc.
Qed.

Lemma passed_over_cons w first c cmd :
  passed_over (ran w [first]) c cmd = passed_over w (first :: c) cmd.
Proof. apply (passed_over_ran w [first]). Qed.

Lemma completes_cons w first c cmd :
  completes (ran w [first]) c cmd = completes w (first :: c) cmd.
Proof. apply (completes_ran w [first]). Qed.

(** The loop over the candidates passes over every command that cannot be
    run or fails, and stops at the first command that completes or raises
    anything else. *)
Lemma try_candidates_first_success candidates w :
  exists r cmds rest,
    try_candidates candidates w = (r, ran w cmds) /\
    candidates = cmds ++ rest /\
    (forall i cmd,
       cmds !! i = Some cmd -> (S i < length cmds)%nat ->
       passed_over w (take i cmds) cmd = true) /\
    match r with
    | Return true =>
        exists done cmd, cmds = done ++ [cmd] /\ completes w done cmd = true
    | Return false =>
        rest = [] /\
        forall done cmd,
          cmds = done ++ [cmd] -> passed_over w done cmd = true
    | Raise e =>
        not_run e = false /\
        exists done cmd,
          cmds = done ++ [cmd] /\
          proc_oracle w (proc_log w ++ done) cmd = Raise e
    end.
Proof.
  revert w. induction candidates as [|cmd candidates IH]; intros w.
  { exists (Return false), [], []. rewrite ran_nil.
    split_and!; [done|done|done|done|]. by intros [|] ?. }
  cbn [try_candidates]. unfold try_except_else. rewrite subprocess_run_ran.
  destruct (proc_oracle w (proc_log w) cmd) as [output|e] eqn:Hrun.
  { exists (Return true), [cmd], candidates.
    split_and!; [done|done| |].
    - intros [|i] c; [|done]. cbn [length]. lia.
    - exists [], cmd. split; [done|]. unfold completes.
      by rewrite app_nil_r, Hrun. }
  destruct (not_run e) eqn:He.
  2:{ exists (Raise e), [cmd], candidates.
      assert (is_FileNotFoundError e = false /\
              is_CalledProcessError e = false) as [-> ->]
        by (by apply orb_false_elim).
      split_and!; [done|done| |done|].
      - intros [|i] c; [|done]. cbn [length]. lia.
      - exists [], cmd. by rewrite app_nil_r. }
  assert (passed_over w [] cmd = true) as Hfirst.
  { unfold passed_over. by rewrite app_nil_r, Hrun. }
  destruct (IH (ran w [cmd]))
    as (r & cmds & rest & Hloop & -> & Heach & Hlast).
  exists r, (cmd :: cmds), rest.
  split.
  { change (cmd :: cmds) with ([cmd] ++ cmds).
    rewrite <- (ran_ran w [cmd] cmds), <- Hloop.
    unfold not_run in He.
    destruct (is_FileNotFoundError e); [done|].
    by destruct (is_CalledProcessError e). }
  split; [done|]. split.
  { intros [|i] c Hi Hlen; cbn [take].
    - by injection Hi as <-.
    - rewrite <- passed_over_cons. apply Heach; [done|].
      cbn [length] in Hlen. lia. }
  destruct r as [[|]|e'].
  - destruct Hlast as (done & c & -> & Hc). exists (cmd :: done), c.
    split; [done|]. by rewrite <- completes_cons.
  - destruct Hlast as [-> Hlast]. split; [done|].
    intros [|c0 done] c Heq.
    + by injection Heq as <- _.
    + injection Heq as <- ->. rewrite <- passed_over_cons.
      by apply Hlast.
  - destruct Hlast as (He' & done & c & -> & Hc). split; [done|].
    exists (cmd :: done), c. split; [done|].
    revert Hc. cbn [proc_oracle proc_log ran]. by rewrite <- app_assoc.
Qed.

Lemma _lookup_mount_source_run target w :
  _lookup_mount_source target w
  = (match proc_oracle w (proc_log w)
             ["findmnt"; "-no"; "SOURCE"; "--"; target] with
     | Return output =>
         Return (if truthy (strip output) then Some (strip output) else None)
     | Raise e => if not_run e then Return None else Raise e
     end,
     ran w [["findmnt"; "-no"; "SOURCE"; "--"; target]]).
Proof.
  unfold _lookup_mount_source, try_except_else. rewrite subprocess_run_ran.
  destruct (proc_oracle w (proc_log w) _) as [output|e]; [done|].
  by destruct (not_run e).
Qed.

(** After a lookup of the mount source that does not stop the call, the
    candidates are tried. *)
Lemma _unmount_target_candidates target w :
  match proc_oracle w (proc_log w)
          ["findmnt"; "-no"; "SOURCE"; "--"; target] with
  | Return _ => True
  | Raise e => not_run e = true
  end ->
  _unmount_target target w
  = try_candidates (unmount_candidates w target)
      (ran w [["findmnt"; "-no"; "SOURCE"; "--"; target]]).
Proof.
  unfold _unmount_target, unmount_candidates. unfold bind at 1.
  rewrite _lookup_mount_source_run.
  set (lookup := ["findmnt"; "-no"; "SOURCE"; "--"; target]).
  destruct (proc_oracle w (proc_log w) lookup) as [output|e].
  - intros _. destruct (truthy (strip output)); [|done]. cbn [andb].
    unfold bind, shutil_which. cbn [which_oracle proc_log ran].
    by destruct (which_oracle w (proc_log w ++ [lookup]) "udisksctl").
  - by intros ->.
Qed.

(** The loop over the candidates, seen from the world before the
    lookup. *)
Lemma try_candidates_after_lookup target w :
  let lookup := ["findmnt"; "-no"; "SOURCE"; "--"; target] in
  exists r cmds rest,
    try_candidates (unmount_candidates w target) (ran w [lookup])
    = (r, ran w (lookup :: cmds)) /\
    (forall i cmd,
       cmds !! i = Some cmd -> (S i < length cmds)%nat ->
       passed_over w (lookup :: take i cmds) cmd = true) /\
    match r with
    | Return ok =>
        unmount_candidates w target = cmds ++ rest /\
        exists done cmd,
          cmds = done ++ [cmd] /\
          if ok then completes w (lookup :: done) cmd = true
          else passed_over w (lookup :: done) cmd = true /\ rest = []
    | Raise e =>
        not_run e = false /\
        ((cmds = [] /\ proc_oracle w (proc_log w) lookup = Raise e) \/
         (unmount_candidates w target = cmds ++ rest /\
          exists done cmd,
            cmds = done ++ [cmd] /\
            proc_oracle w (proc_log w ++ lookup :: done) cmd = Raise e))
    end.
Proof.
  intros lookup.
  destruct (try_candidates_first_success (unmount_candidates w target)
              (ran w [lookup]))
    as (r & cmds & rest & -> & Hc & Heach & Hlast).
  exists r, cmds, rest. rewrite ran_ran.
  split; [done|].
  split.
  { intros i cmd Hi Hlen. rewrite <- passed_over_cons. by apply Heach. }
  destruct r as [[|]|e'].
  - destruct Hlast as (done & cmd & -> & Hlast).
    split; [done|]. exists done, cmd. split; [done|].
    by rewrite <- completes_cons.
  - destruct Hlast as [-> Hlast]. split; [done|].
    rewrite app_nil_r in Hc.
    assert (exists done,
              unmount_candidates w target
              = done ++ [["umount"; "-l"; target]]) as [done Hsplit].
    { unfold unmount_candidates. eexists. by rewrite (assoc (++)). }
    rewrite Hsplit in Hc. subst cmds.
    exists done, ["umount"; "-l"; target]. split; [done|].
    split; [|done]. rewrite <- passed_over_cons. by apply Hlast.
  - destruct Hlast as (He' & done & cmd & -> & Hlast).
    split; [done|]. right. split; [done|]. exists done, cmd.
    split; [done|]. revert Hlast. cbn [proc_oracle proc_log ran].
    by rewrite <- app_assoc.
Qed.

(** X17: [_unmount_target] looks the mount source up and then tries its
    commands in a fixed order, the plain unmount, then the unmount by
    [udisksctl] when [findmnt] named a source and the tool is installed,
    then the lazy unmount.  The commands run are a beginning of that list;
    each but the last of them could not be run or failed.  The call
    answers true when the last one completed, and false when the last one
    could not be run or failed too, and then every candidate has been
    tried.  It raises what [findmnt] or the last command raised, when that
    is neither [FileNotFoundError] nor [CalledProcessError]: the
    candidates after it stay untried. *)
Theorem unmount_target_stops_at_first_success target w :
  let lookup := ["findmnt"; "-no"; "SOURCE"; "--"; target] in
  exists r cmds rest,
    _unmount_target target w = (r, ran w (lookup :: cmds)) /\
    (forall i cmd,
       cmds !! i = Some cmd -> (S i < length cmds)%nat ->
       passed_over w (lookup :: take i cmds) cmd = true) /\
    match r with
    | Return ok =>
        unmount_candidates w target = cmds ++ rest /\
        exists done cmd,
          cmds = done ++ [cmd] /\
          if ok then completes w (lookup :: done) cmd = true
          else passed_over w (lookup :: done) cmd = true /\ rest = []
    | Raise e =>
        not_run e = false /\
        ((cmds = [] /\ proc_oracle w (proc_log w) lookup = Raise e) \/
         (unmount_candidates w target = cmds ++ rest /\
          exists done cmd,
            cmds = done ++ [cmd] /\
            proc_oracle w (proc_log w ++ lookup :: done) cmd = Raise e))
    end.
Proof.
  intros lookup.
  assert (match proc_oracle w (proc_log w) lookup with
          | Return _ => True
          | Raise e => not_run e = true
          end \/
          exists e, proc_oracle w (proc_log w) lookup = Raise e /\
                    not_run e = false) as [Hok|(e & Hlook & He)].
  { destruct (proc_oracle w (proc_log w) lookup) as [output|e]; [by left|].
    destruct (not_run e) eqn:He; [by left|]. right. by exists e. }
  - rewrite _unmount_target_candidates by done.
    apply try_candidates_after_lookup.
  - exists (Raise e), [], [].
    unfold _unmount_target. unfold bind at 1.
    rewrite _lookup_mount_source_run. fold lookup. rewrite Hlook, He.
    split; [done|]. split; [done|]. split; [done|]. by left.
Qed.

Lemma unmount_target_stops_at_first_success_witness :
  (_unmount_target "/mnt/usb" udisks_world).1 = Return true /\
  proc_log (_unmount_target "/mnt/usb" udisks_world).2
  = [["findmnt"; "-no"; "SOURCE"; "--"; "/mnt/usb"];
     ["umount"; "/mnt/usb"];
     ["udisksctl"; "unmount"; "-b"; "/dev/sdb1"]].
Proof.
  destruct (unmount_target_stops_at_first_success "/mnt/usb" udisks_world)
    as (r & cmds & rest & Hrun & _).
  pose proof (f_equal fst Hrun) as H1.
  pose proof (f_equal (fun r => proc_log (snd r)) Hrun) as H2.
  vm_compute in H1. vm_compute in H2.
  subst r. injection H2 as <-.
  rewrite Hrun. split; reflexivity.
Defined.

(** ** Looking a device up *)

Lemma find_first (device_path : string) (devices : list BlockDevice) :
  match find (fun device => bool_decide (path device = device_path)) devices
  with
  | Some device =>
      exists before after,
        devices = before ++ device :: after /\
        path device = device_path /\
        Forall (fun other => path other <> device_path) before
  | None => Forall (fun other => path other <> device_path) devices
  end.
Proof.
  induction devices as [|d devices IH]; [by constructor|].
  cbn [find]. case_bool_decide as Hd.
  - exists [], devices. by split_and!.
  - destruct (find _ devices) as [device|].
    + destruct IH as (before & after & -> & Hp & Hb).
      exists (d :: before), after. split_and!; [done|done|by constructor].
    + by constructor.
Qed.

(** X18: [find_device_by_path] changes nothing.  When the enumeration
    of the devices raises [DeviceEnumerationError] it returns [None]; any
    other exception of the enumeration leaves it as it is; otherwise it
    returns the first of the listed devices with the given path, where
    only the removable devices are listed if that is asked for, and
    [None] when no listed device has the path. *)
Theorem find_device_by_path_returns_the_first_match device_path
    require_removable w :
  exists r,
    find_device_by_path device_path require_removable w = (r, w) /\
    match enumeration w with
    | inl (DeviceEnumerationError _) => r = Return None
    | inl e => r = Raise e
    | inr devices =>
        let listed :=
          if require_removable
          then filter (fun d => removable d = true) devices
          else devices in
        exists found,
          r = Return found /\
          match found with
          | Some device =>
              exists before after,
                listed = before ++ device :: after /\
                path device = device_path /\
                Forall (fun other => path other <> device_path) before
          | None => Forall (fun other => path other <> device_path) listed
          end
    end.
Proof.
  unfold find_device_by_path, try_except, bind, list_block_devices.
  destruct (enumeration w) as [e|devices].
  - destruct e; by eexists.
  - eexists. split; [reflexivity|]. eexists. split; [reflexivity|].
    apply find_first.
Qed.

(** ** Other platforms *)

Lemma platform_devices_off_linux system found :
  system <> "Linux" ->
  exists msg,
    platform_devices system found = inl (DeviceEnumerationError msg).
Proof.
  intros Hs. unfold platform_devices. rewrite bool_decide_false by done.
  repeat case_bool_decide; by eexists.
Qed.

(** X19: On every platform but Linux the enumeration of the devices raises
    [DeviceEnumerationError]; [find_device_by_path] answers [None] then,
    and the worker writes a warning to its log and goes on to the flash
    operation without unmounting anything. *)
Theorem no_device_info_off_linux `{SetOrder} system found device dry_run w :
  system <> "Linux" ->
  enumeration w = platform_devices system found ->
  (exists msg,
     list_block_devices false w = (Raise (DeviceEnumerationError msg), w)) /\
  find_device_by_path device false w = (Return None, w) /\
  worker_unmount device dry_run w
  = (Return None,
     out w [EvLog ("Warning: could not refresh device info for "
                     +:+ device)]).
Proof.
  intros Hs He.
  destruct (platform_devices_off_linux system found Hs) as [msg Hmsg].
  rewrite Hmsg in He.
  assert (find_device_by_path device false w = (Return None, w)) as Hfind.
  { unfold find_device_by_path, try_except, bind, list_block_devices.
    by rewrite He. }
  split; [|split; [done|]].
  - exists msg. unfold list_block_devices. by rewrite He.
  - rewrite worker_unmount_eq, Hfind. unfold bind. by rewrite emit_out.
Qed.

Lemma no_device_info_off_linux_witness :
  worker_unmount "/dev/sdb" false darwin_world
  = (Return None,
     out darwin_world
       [EvLog "Warning: could not refresh device info for /dev/sdb"]).
Proof.
  apply (no_device_info_off_linux "Darwin" (inr [sample_device]) "/dev/sdb"
           false darwin_world).
  - intros [=].
  - reflexivity.
Defined.

(** ** Collecting the mountpoints *)

(** Induction on the tree of [lsblk]. *)
Lemma LsblkNode_tree_ind (P : LsblkNode -> Prop) :
  (forall mp list_mp children,
     Forall P (or_nil children) -> P (mkLsblkNode mp list_mp children)) ->
  forall node, P node.
Proof.
  intros Hnode. fix IH 1. intros [mp list_mp children]. apply Hnode.
  destruct children as [l|]; [|constructor]. cbn [or_nil].
  induction l as [|child l IHl]; constructor; [apply IH|exact IHl].
Qed.

Section CollectProofs.
Context `{SetOrder}.

Lemma _collect_mountpoints_eq mp list_mp children :
  _collect_mountpoints (mkLsblkNode mp list_mp children)
  = set_iter
      (filter (fun m => truthy m = true)
         (match mp with
          | Some m => if truthy m then [m] else []
          | None => []
          end
          ++ truthy_items (or_nil list_mp)
          ++ mjoin (_collect_mountpoints <$> or_nil children))).
Proof.
  cbn [_collect_mountpoints]. do 4 f_equal.
  destruct children as [l|]; [|done]. cbn [or_nil].
  induction l as [|child l IHl]; [done|]. cbn. by rewrite IHl.
Qed.

Lemma truthy_items_elem m items :
  m ∈ truthy_items items <-> m <> "" /\ Some m ∈ items.
Proof.
  unfold truthy_items. rewrite list_elem_of_omap. split.
  - intros ([m'|] & Hin & Hm); [|done].
    destruct (truthy m') eqn:Ht; [|done]. injection Hm as ->.
    split; [by apply truthy_nonempty|done].
  - intros [Hne Hin]. exists (Some m). split; [done|].
    by rewrite (proj2 (truthy_nonempty m) Hne).
Qed.

(** X20: [_collect_mountpoints] returns the mountpoints of a node of the
    [lsblk] tree and of all nodes below it, as a set: a string is in the
    result exactly when it is not empty and is the [mountpoint] of one of
    these nodes or an item of its [mountpoints]; nothing occurs twice.
    The mountpoints of the partitions thus count for the disk. *)
Theorem collect_mountpoints_of_the_subtree node :
  (forall m,
     m ∈ _collect_mountpoints node <-> m <> "" /\ mounted_at m node) /\
  NoDup (_collect_mountpoints node).
Proof.
  induction node as [mp list_mp children IH] using LsblkNode_tree_ind.
  rewrite _collect_mountpoints_eq. split; [|apply set_iter_NoDup].
  intros m. rewrite set_iter_elem, list_elem_of_filter, truthy_nonempty.
  rewrite !elem_of_app, truthy_items_elem.
  split.
  - intros (Hne & [Hown|[[_ Hitem]|Hbelow]]); (split; [done|]).
    + destruct mp as [m'|]; [|by apply elem_of_nil in Hown].
      destruct (truthy m'); [|by apply elem_of_nil in Hown].
      apply list_elem_of_singleton in Hown as ->. constructor.
    + destruct list_mp as [items|]; [|by apply elem_of_nil in Hitem].
      by constructor.
    + apply list_elem_of_join in Hbelow as (l & Hm & Hl).
      apply list_elem_of_fmap in Hl as (child & -> & Hchild).
      destruct children as [l|]; [|by apply elem_of_nil in Hchild].
      cbn [or_nil] in *. apply (mounted_below m _ _ l child); [done|].
      rewrite Forall_forall in IH. by apply (IH child Hchild).
  - intros (Hne & Hat). split; [done|].
    inversion Hat as [l c|mp' items c Hitem|mp' l children' child Hchild Hm];
      subst.
    + left. rewrite (proj2 (truthy_nonempty m) Hne).
      apply list_elem_of_here.
    + right. left. by split.
    + right. right. apply list_elem_of_join.
      exists (_collect_mountpoints child). split.
      * rewrite Forall_forall in IH. apply (IH child Hchild). by split.
      * apply list_elem_of_fmap. by exists child.
Qed.

End CollectProofs.

Lemma collect_mountpoints_of_the_subtree_witness :
  "/mnt/boot" ∈ _collect_mountpoints sample_node.
Proof.
  apply (proj1 (collect_mountpoints_of_the_subtree sample_node)).
  split; [intros [=]|].
  eapply mounted_below; [apply list_elem_of_here|].
  apply mounted_listed. apply list_elem_of_further, list_elem_of_here.
Defined.

(** ** Sizes as text *)

Lemma float_of_int_exact n : 0 < n < 2 ^ 53 -> float_of_int n = Some n.
Proof.
  intros [Hpos Hlt]. unfold float_of_int.
  apply Z.log2_lt_pow2 in Hlt; [|done].
  destruct (Z.leb_spec (Z.log2 n + 1) 53); [done|lia].
Qed.

Lemma format_1f_tenths m k :
  0 <= m ->
  exists tenths,
    format_1f m k = one_decimal tenths /\
    2 * Z.abs (10 * m - tenths * 1024 ^ Z.of_nat k) <= 1024 ^ Z.of_nat k /\
    0 <= tenths.
Proof.
  intros Hm. unfold format_1f.
  set (den := 1024 ^ Z.of_nat k).
  assert (0 < den) as Hden by (subst den; apply Z.pow_pos_nonneg; lia).
  pose proof (Z.div_mod (10 * m) den ltac:(lia)) as Hdm.
  pose proof (Z.mod_pos_bound (10 * m) den Hden) as Hr.
  assert (0 <= 10 * m / den) as Hq by (apply Z.div_pos; lia).
  set (q := 10 * m / den) in *. set (r := (10 * m) mod den) in *.
  eexists. split; [reflexivity|].
  destruct (Z.ltb_spec den (2 * r)); cbn [orb].
  - split; nia.
  - destruct (Z.eqb_spec (2 * r) den); cbn [andb].
    + destruct (Z.odd q); split; nia.
    + split; nia.
Qed.

Ltac pow_compute :=
  repeat match goal with
         | |- context [1024 ^ Z.of_nat ?n] =>
             let v := eval vm_compute in (1024 ^ Z.of_nat n) in
             change (1024 ^ Z.of_nat n) with v
         | H : context [1024 ^ Z.of_nat ?n] |- _ =>
             let v := eval vm_compute in (1024 ^ Z.of_nat n) in
             change (1024 ^ Z.of_nat n) with v in H
         end.

Lemma scale_units m k :
  (k <= 4)%nat -> 1024 ^ Z.of_nat k <= m < 1024 * 1024 ^ Z.of_nat k ->
  scale units m 0 "B" = (k, default "" (units !! k)).
Proof.
  intros Hk Hm. unfold units.
  do 5 (destruct k as [|k];
        [cbn [scale]; pow_compute;
         repeat match goal with
                | |- context [?a <? ?c] =>
                    destruct (Z.ltb_spec a c); [try lia|]
                end; try done; lia|]).
  lia.
Qed.

Lemma scale_beyond m :
  1024 ^ 5 <= m -> scale units m 0 "B" = (5%nat, "TiB").
Proof.
  intros Hm. unfold units. cbn [scale]. pow_compute.
  change (1024 ^ 5) with 1125899906842624 in Hm.
  repeat match goal with
         | |- context [?a <? ?c] => destruct (Z.ltb_spec a c); [lia|]
         end.
  done.
Qed.

Lemma format_positive_exact n k unit :
  0 < n < 2 ^ 53 -> scale units n 0 "B" = (k, unit) ->
  exists tenths,
    format_positive n = Return (one_decimal tenths +:+ " " +:+ unit) /\
    2 * Z.abs (10 * n - tenths * 1024 ^ Z.of_nat k) <= 1024 ^ Z.of_nat k.
Proof.
  intros Hn Hs. unfold format_positive.
  rewrite float_of_int_exact, Hs by done.
  destruct (format_1f_tenths n k ltac:(lia)) as (tenths & -> & Hacc & _).
  by exists tenths.
Qed.

(** X21: [_format_size] of [devices.py] and of [main.py]: a size that is
    not positive is shown as [Unknown] and as [0 B]; a size below 1024 to
    the fifth power is shown in the largest of the units B, KiB, MiB, GiB
    and TiB that does not exceed it, as a number with one decimal place
    that is within a twentieth of the size in that unit.  (Sizes from 2 to
    the 53rd power on are rounded when they become a float.) *)
Theorem format_size_picks_the_unit n :
  (n <= 0 ->
   Devices._format_size n = Return "Unknown" /\
   Main._format_size n = Return "0 B") /\
  (forall k : nat,
     (k <= 4)%nat -> 0 < n < 2 ^ 53 ->
     1024 ^ Z.of_nat k <= n < 1024 * 1024 ^ Z.of_nat k ->
     exists tenths,
       Devices._format_size n
       = Return (one_decimal tenths +:+ " " +:+ default "" (units !! k)) /\
       Main._format_size n = Devices._format_size n /\
       2 * Z.abs (10 * n - tenths * 1024 ^ Z.of_nat k) <= 1024 ^ Z.of_nat k).
Proof.
  unfold Devices._format_size, Main._format_size. split.
  - intros Hn. by destruct (Z.leb_spec n 0); [|lia].
  - intros k Hk Hn Hr. destruct (Z.leb_spec n 0); [lia|].
    destruct (format_positive_exact n k _ Hn (scale_units n k Hk Hr))
      as (tenths & -> & Hacc).
    by exists tenths.
Qed.

Lemma format_size_picks_the_unit_witness :
  Devices._format_size 1536 = Return "1.5 KiB".
Proof.
  destruct (proj2 (format_size_picks_the_unit 1536) 1%nat)
    as (tenths & Hd & _ & Hacc); [lia|lia|simpl; lia|].
  change (1024 ^ Z.of_nat 1) with 1024 in Hacc.
  assert (tenths = 15) as -> by lia. exact Hd.
Defined.

(** X22: [_format_size] has no unit beyond TiB, and the loop divides once
    more when it runs out of units: a size of 1024 to the fifth power or
    more is shown with the unit TiB, but the number is the size divided by
    1024 to the fifth power, the number of PiB. *)
Theorem format_size_beyond_TiB n :
  1024 ^ 5 <= n < 2 ^ 53 ->
  exists tenths,
    Devices._format_size n = Return (one_decimal tenths +:+ " TiB") /\
    Main._format_size n = Return (one_decimal tenths +:+ " TiB") /\
    2 * Z.abs (10 * n - tenths * 1024 ^ 5) <= 1024 ^ 5.
Proof.
  intros [Hlo Hhi]. unfold Devices._format_size, Main._format_size.
  assert (0 < n) as Hpos by (change (1024 ^ 5) with 1125899906842624 in Hlo; lia).
  destruct (Z.leb_spec n 0); [lia|].
  destruct (format_positive_exact n 5 "TiB" ltac:(lia) (scale_beyond n Hlo))
    as (tenths & -> & Hacc).
  by exists tenths.
Qed.

Lemma format_size_beyond_TiB_witness :
  Devices._format_size (2 * 1024 ^ 5) = Return "2.0 TiB".
Proof.
  destruct (format_size_beyond_TiB (2 * 1024 ^ 5)) as (tenths & Hd & _ & Hacc).
  { split; [vm_compute; intros [=]|vm_compute; reflexivity]. }
  change (1024 ^ 5) with 1125899906842624 in Hacc.
  assert (tenths = 20) as -> by lia. exact Hd.
Defined.
